(** * Spherical annotation geometry of the 360-degree video annotator

    A shallow embedding of [src/utils/annotationGeometry.ts],
    [src/utils/storage.ts] (legacy migration) and of the overlay component
    (active set, gesture release, screenshot protocol).

    JavaScript numbers are modelled as real numbers: no rounding, no NaN,
    no infinities and no signed zero.  Where the source divides by a
    quantity that may vanish, the theorems carry the hypothesis that keeps
    the divisor away from zero. *)

From Stdlib Require Import ZArith Reals Zfloor Lra Lia List String Ascii Bool.
From Stdlib Require Import DecimalString.
Import ListNotations.
Open Scope R_scope.

(** ** [Math] functions used by the source *)

Module JsMath.

(** [Math.atan2(y, x)] on the reals (quadrant-aware arctangent). *)
Definition atan2 (y x : R) : R :=
  if Rlt_dec 0 x then atan (y / x)
  else if Rlt_dec x 0 then
         (if Rle_dec 0 y then atan (y / x) + PI else atan (y / x) - PI)
  else if Rlt_dec 0 y then PI / 2
  else if Rlt_dec y 0 then - (PI / 2)
  else 0.

(** [Math.max], [Math.min], [Math.abs], [Math.asin], [Math.tan] are
    [Rmax], [Rmin], [Rabs], [asin] and [tan]. *)
Definition max := Rmax.
Definition min := Rmin.
Definition abs := Rabs.

(** The comparison [a > b] as a boolean. *)
Definition gtb (a b : R) : bool := if Rgt_dec a b then true else false.

End JsMath.

(** ** The three.js operations the geometry module calls *)

Module THREE.

Record Vector3 := mkVector3 { vx : R; vy : R; vz : R }.

Record Vector2 := mkVector2 { v2x : R; v2y : R }.

(** [Matrix4.elements], column-major: [e0..e3] is the first column. *)
Record Matrix4 := mkMatrix4 {
  e0 : R; e1 : R; e2 : R; e3 : R;
  e4 : R; e5 : R; e6 : R; e7 : R;
  e8 : R; e9 : R; e10 : R; e11 : R;
  e12 : R; e13 : R; e14 : R; e15 : R }.

Definition identity : Matrix4 :=
  mkMatrix4 1 0 0 0
            0 1 0 0
            0 0 1 0
            0 0 0 1.

(** [Vector3.applyMatrix4]: multiply by the matrix and divide by the
    perspective component. *)
Definition applyMatrix4 (v : Vector3) (m : Matrix4) : Vector3 :=
  let w := 1 / (e3 m * vx v + e7 m * vy v + e11 m * vz v + e15 m) in
  mkVector3 ((e0 m * vx v + e4 m * vy v + e8 m * vz v + e12 m) * w)
            ((e1 m * vx v + e5 m * vy v + e9 m * vz v + e13 m) * w)
            ((e2 m * vx v + e6 m * vy v + e10 m * vz v + e14 m) * w).

Definition length (v : Vector3) : R :=
  sqrt (vx v * vx v + vy v * vy v + vz v * vz v).

Definition multiplyScalar (v : Vector3) (s : R) : Vector3 :=
  mkVector3 (vx v * s) (vy v * s) (vz v * s).

Definition divideScalar (v : Vector3) (s : R) : Vector3 :=
  multiplyScalar v (1 / s).

(** [normalize() { return this.divideScalar(this.length() || 1) }] *)
Definition normalize (v : Vector3) : Vector3 :=
  divideScalar v (if Req_dec_T (length v) 0 then 1 else length v).

Definition sub (a b : Vector3) : Vector3 :=
  mkVector3 (vx a - vx b) (vy a - vy b) (vz a - vz b).

Definition setFromMatrixPosition (m : Matrix4) : Vector3 :=
  mkVector3 (e12 m) (e13 m) (e14 m).

(** The fields of a [PerspectiveCamera] that projection reads. *)
Record PerspectiveCamera := mkCamera {
  fov : R;
  matrixWorld : Matrix4;
  matrixWorldInverse : Matrix4;
  projectionMatrix : Matrix4;
  projectionMatrixInverse : Matrix4 }.

(** [Vector3.project(camera)] and [Vector3.unproject(camera)]. *)
Definition project (v : Vector3) (camera : PerspectiveCamera) : Vector3 :=
  applyMatrix4 (applyMatrix4 v (matrixWorldInverse camera))
               (projectionMatrix camera).

Definition unproject (v : Vector3) (camera : PerspectiveCamera) : Vector3 :=
  applyMatrix4 (applyMatrix4 v (projectionMatrixInverse camera))
               (matrixWorld camera).

Record Ray := mkRay { origin : Vector3; direction : Vector3 }.

(** [Raycaster.setFromCamera(coords, camera)], perspective branch. *)
Definition setFromCamera (coords : Vector2) (camera : PerspectiveCamera) : Ray :=
  let o := setFromMatrixPosition (matrixWorld camera) in
  mkRay o
        (normalize
           (sub (unproject (mkVector3 (v2x coords) (v2y coords) (1 / 2)) camera) o)).

(** [Matrix4.makePerspective(left, right, top, bottom, near, far)]. *)
Definition makePerspective (left right top bottom near far : R) : Matrix4 :=
  let x := 2 * near / (right - left) in
  let y := 2 * near / (top - bottom) in
  let a := (right + left) / (right - left) in
  let b := (top + bottom) / (top - bottom) in
  let c := - (far + near) / (far - near) in
  let d := (- 2 * far * near) / (far - near) in
  mkMatrix4 x 0 0 0
            0 y 0 0
            a b c (-1)
            0 0 d 0.

Definition DEG2RAD : R := PI / 180.

(** [PerspectiveCamera.updateProjectionMatrix] with zoom 1, no view offset
    and no film offset. *)
Definition updateProjectionMatrix (fov aspect near far : R) : Matrix4 :=
  let top := near * tan (DEG2RAD * (1 / 2) * fov) / 1 in
  let height := 2 * top in
  let width := aspect * height in
  let left := - (1 / 2) * width in
  makePerspective left (left + width) top (top - height) near far.

(** Inverse of a perspective matrix [[x 0 a 0; 0 y b 0; 0 0 c d; 0 0 -1 0]]. *)
Definition invertPerspective (m : Matrix4) : Matrix4 :=
  mkMatrix4 (1 / e0 m) 0 0 0
            0 (1 / e5 m) 0 0
            0 0 0 (1 / e14 m)
            (e8 m / e0 m) (e9 m / e5 m) (-1) (e10 m / e14 m).

(** [new THREE.PerspectiveCamera(fov, aspect, near, far)] left at its
    initial pose (position at the origin, no rotation). *)
Definition newPerspectiveCamera (fov aspect near far : R) : PerspectiveCamera :=
  let p := updateProjectionMatrix fov aspect near far in
  mkCamera fov identity identity p (invertPerspective p).

(** A perspective matrix of a frustum symmetric about the view axis:
    [[px 0 0 0; 0 py 0 0; 0 0 c d; 0 0 -1 0]]. *)
Definition symmetricPerspective (px py c d : R) : Matrix4 :=
  mkMatrix4 px 0 0 0
            0 py 0 0
            0 0 c (-1)
            0 0 d 0.

(** Matrix product [a * b] ([Matrix4.multiplyMatrices]). *)
Definition multiplyMatrices (a b : Matrix4) : Matrix4 :=
  mkMatrix4
    (e0 a * e0 b + e4 a * e1 b + e8 a * e2 b + e12 a * e3 b)
    (e1 a * e0 b + e5 a * e1 b + e9 a * e2 b + e13 a * e3 b)
    (e2 a * e0 b + e6 a * e1 b + e10 a * e2 b + e14 a * e3 b)
    (e3 a * e0 b + e7 a * e1 b + e11 a * e2 b + e15 a * e3 b)
    (e0 a * e4 b + e4 a * e5 b + e8 a * e6 b + e12 a * e7 b)
    (e1 a * e4 b + e5 a * e5 b + e9 a * e6 b + e13 a * e7 b)
    (e2 a * e4 b + e6 a * e5 b + e10 a * e6 b + e14 a * e7 b)
    (e3 a * e4 b + e7 a * e5 b + e11 a * e6 b + e15 a * e7 b)
    (e0 a * e8 b + e4 a * e9 b + e8 a * e10 b + e12 a * e11 b)
    (e1 a * e8 b + e5 a * e9 b + e9 a * e10 b + e13 a * e11 b)
    (e2 a * e8 b + e6 a * e9 b + e10 a * e10 b + e14 a * e11 b)
    (e3 a * e8 b + e7 a * e9 b + e11 a * e10 b + e15 a * e11 b)
    (e0 a * e12 b + e4 a * e13 b + e8 a * e14 b + e12 a * e15 b)
    (e1 a * e12 b + e5 a * e13 b + e9 a * e14 b + e13 a * e15 b)
    (e2 a * e12 b + e6 a * e13 b + e10 a * e14 b + e14 a * e15 b)
    (e3 a * e12 b + e7 a * e13 b + e11 a * e14 b + e15 a * e15 b).

End THREE.

(** ** [src/utils/annotationGeometry.ts] *)

Record WorldDirection := mkWorldDirection { phi : R; theta : R }.

(** The camera pose has the same shape [{ phi, theta }]. *)
Definition CameraRotation := WorldDirection.

Record ScreenPoint := mkScreenPoint { pt_x : R; pt_y : R }.

Record Box := mkBox { box_x : R; box_y : R; box_width : R; box_height : R }.

(** The declared result type is [{ phi, theta } | null]. *)
Definition screenToWorldDirection
    (screenX screenY screenWidth screenHeight : R)
    (camera : THREE.PerspectiveCamera) (_cameraRotation : CameraRotation)
  : option WorldDirection :=
  let ndcX := (screenX / screenWidth) * 2 - 1 in
  let ndcY := - (screenY / screenHeight) * 2 + 1 in
  let mouse := THREE.mkVector2 ndcX ndcY in
  let raycaster := THREE.setFromCamera mouse camera in
  let rayDirection := THREE.normalize (THREE.direction raycaster) in
  let theta := JsMath.atan2 (THREE.vx rayDirection) (THREE.vz rayDirection) in
  let phi := asin (THREE.vy rayDirection) in
  Some (mkWorldDirection phi theta).

(** The unit vector of a direction, before [direction.normalize()]. *)
Definition directionVector (d : WorldDirection) : THREE.Vector3 :=
  THREE.mkVector3 (cos (phi d) * sin (theta d))
                  (sin (phi d))
                  (cos (phi d) * cos (theta d)).

(** The clip-space vector [vector] after [vector.project(camera)]. *)
Definition clipVector (d : WorldDirection) (camera : THREE.PerspectiveCamera)
  : THREE.Vector3 :=
  THREE.project (THREE.normalize (directionVector d)) camera.

Definition worldDirectionToScreen
    (worldDirection : WorldDirection) (screenWidth screenHeight : R)
    (camera : THREE.PerspectiveCamera) : option ScreenPoint :=
  let vector := clipVector worldDirection camera in
  let x := (THREE.vx vector + 1) * screenWidth / 2 in
  let y := (- THREE.vy vector + 1) * screenHeight / 2 in
  let clipX := THREE.vx vector in
  let clipY := THREE.vy vector in
  let clipZ := THREE.vz vector in
  if JsMath.gtb clipZ 1 then None
  else if JsMath.gtb (JsMath.abs clipX) 3 || JsMath.gtb (JsMath.abs clipY) 3
       then None
  else Some (mkScreenPoint x y).

Definition legacyBoxToWorldDirection
    (box : Box) (cameraRotation : option CameraRotation) : WorldDirection :=
  let centerX := box_x box + box_width box / 2 in
  let centerY := box_y box + box_height box / 2 in
  let ndcX := (centerX - 5 / 10) * 2 in
  let ndcY := - (centerY - 5 / 10) * 2 in
  let fov := 75 * (PI / 180) in
  match cameraRotation with
  | Some cameraRotation =>
      let cameraRelativeTheta := JsMath.atan2 ndcX 1 * (fov / 2) in
      let cameraRelativePhi := JsMath.atan2 ndcY 1 * (fov / 2) in
      let worldTheta := theta cameraRotation + cameraRelativeTheta in
      let worldPhi := phi cameraRotation + cameraRelativePhi in
      let worldPhi := JsMath.max (- PI / 2) (JsMath.min (PI / 2) worldPhi) in
      mkWorldDirection worldPhi worldTheta
  | None => mkWorldDirection 0 0
  end.

Definition getAnnotationBox
    (worldDirection : WorldDirection) (screenWidth screenHeight : R)
    (camera : THREE.PerspectiveCamera) (boxSizeDegrees : R) : option Box :=
  match worldDirectionToScreen worldDirection screenWidth screenHeight camera with
  | None => None
  | Some center =>
      let fovRadians := THREE.fov camera * (PI / 180) in
      let pixelsPerRadian := screenHeight / (2 * tan (fovRadians / 2)) in
      let boxSizeRadians := boxSizeDegrees * (PI / 180) in
      let boxSizePixels := boxSizeRadians * pixelsPerRadian in
      let boxWidth := JsMath.max 20 boxSizePixels in
      let boxHeight := JsMath.max 20 boxSizePixels in
      Some (mkBox (pt_x center - boxWidth / 2)
                  (pt_y center - boxHeight / 2)
                  boxWidth
                  boxHeight)
  end.


(** The contract of the migration as the specification words it: the
    offset angle is [ndc * (fov / 2)].  Compared with
    [legacyBoxToWorldDirection] below. *)
Definition legacyBoxToWorldDirection_smallAngle
    (box : Box) (cameraRotation : option CameraRotation) : WorldDirection :=
  let ndcX := (box_x box + box_width box / 2 - 5 / 10) * 2 in
  let ndcY := - (box_y box + box_height box / 2 - 5 / 10) * 2 in
  let fov := 75 * (PI / 180) in
  match cameraRotation with
  | Some pose =>
      mkWorldDirection
        (JsMath.max (- PI / 2) (JsMath.min (PI / 2) (phi pose + ndcY * (fov / 2))))
        (theta pose + ndcX * (fov / 2))
  | None => mkWorldDirection 0 0
  end.

(** The view matrix of a camera placed at the origin is linear: no
    translation and no perspective row. *)
Definition viewIsLinear (m : THREE.Matrix4) : Prop :=
  THREE.e3 m = 0 /\ THREE.e7 m = 0 /\ THREE.e11 m = 0 /\ THREE.e15 m = 1 /\
  THREE.e12 m = 0 /\ THREE.e13 m = 0 /\ THREE.e14 m = 0.

(** The camera looks along [forward]: its view matrix takes that
    direction to the view axis [(0, 0, -1)]. *)
Definition looksAlong (camera : THREE.PerspectiveCamera) (forward : WorldDirection)
  : Prop :=
  viewIsLinear (THREE.matrixWorldInverse camera) /\
  THREE.applyMatrix4 (directionVector forward) (THREE.matrixWorldInverse camera)
  = THREE.mkVector3 0 0 (-1).

(** The projection is that of a symmetric frustum between [near] and [far]. *)
Definition hasFrustum (camera : THREE.PerspectiveCamera) (near far : R) : Prop :=
  exists px py,
    THREE.projectionMatrix camera =
    THREE.symmetricPerspective px py (- (far + near) / (far - near))
                               ((- 2 * far * near) / (far - near)).

(** The direction opposite to [forward]. *)
Definition opposite (forward : WorldDirection) : WorldDirection :=
  mkWorldDirection (- phi forward) (theta forward + PI).

(** The view-space point a pointer ray goes through, up to scale, for a
    symmetric frustum with focal factors [px] and [py]. *)
Definition eyePoint (px py nx ny : R) : THREE.Vector3 :=
  THREE.mkVector3 (nx / px) (ny / py) (-1).

(** The camera the player creates:
    [new THREE.PerspectiveCamera(75, width / height, 0.1, 1000)]. *)
Definition playerCamera (width height : R) : THREE.PerspectiveCamera :=
  THREE.newPerspectiveCamera 75 (width / height) (1 / 10) 1000.

(** ** [src/types.ts]: the annotation record *)

(** [number | 'N/A'] of the grade and DROPS scores. *)
Inductive Score :=
| NA
| ScoreValue (n : Z).

Record Annotation := mkAnnotation {
  id : string;
  videoTime : R;
  screenshotDataUrl : string;
  notes : string;
  colour : string;
  grade : option Score;
  drops : option Score;
  riskIndex : option Z;
  riskLevel : option string;
  primaryDescription : option string;
  secondaryDescription : option string;
  description : option string;
  defectNumber : option Z;
  worldDirection : option WorldDirection;
  box : option Box;
  createdAt : string;
  cameraRotation : option CameraRotation;
  label : option string;
  severity : option Z;
  criticality : option Z }.

(** [{ ...ann, worldDirection }] *)
Definition withWorldDirection (ann : Annotation) (d : WorldDirection) : Annotation :=
  mkAnnotation (id ann) (videoTime ann) (screenshotDataUrl ann) (notes ann)
               (colour ann) (grade ann) (drops ann) (riskIndex ann)
               (riskLevel ann) (primaryDescription ann)
               (secondaryDescription ann) (description ann) (defectNumber ann)
               (Some d) (box ann) (createdAt ann) (cameraRotation ann)
               (label ann) (severity ann) (criticality ann).

(** ** [src/utils/storage.ts]: legacy migration *)

Definition migrateAnnotation (ann : Annotation) : Annotation :=
  match worldDirection ann with
  | Some _ => ann
  | None =>
      match box ann with
      | Some b => withWorldDirection ann (legacyBoxToWorldDirection b (cameraRotation ann))
      | None => ann
      end
  end.

Definition migrateLegacyAnnotations (annotations : list Annotation) : list Annotation :=
  map migrateAnnotation annotations.

(** What [localStorage.getItem(STORAGE_KEY)] followed by [JSON.parse]
    yields: nothing stored, a string that does not parse, or a collection. *)
Inductive Stored :=
| NoItem
| Unparsable
| Parsed (annotations : list Annotation).

Definition isSome {A : Type} (o : option A) : bool :=
  match o with Some _ => true | None => false end.

(** [migrated.some((ann, i) => !annotations[i].worldDirection && ann.worldDirection)] *)
Definition needsSaving (annotations migrated : list Annotation) : bool :=
  existsb (fun p => negb (isSome (worldDirection (fst p)))
                    && isSome (worldDirection (snd p)))
          (combine annotations migrated).

(** [saveAnnotations]: [localStorage.setItem] may throw (quota exceeded,
    storage disabled); the error is logged and swallowed, and the store
    keeps what it held. *)
Definition saveAnnotations (setItemThrows : bool) (annotations : list Annotation)
    (store : Stored) : Stored :=
  if setItemThrows then store else Parsed annotations.

(** [loadAnnotations]: the loaded collection and the store afterwards. *)
Definition loadAnnotations (setItemThrows : bool) (store : Stored)
  : list Annotation * Stored :=
  match store with
  | NoItem => ([], store)
  | Unparsable => ([], store)
  | Parsed annotations =>
      let migrated := migrateLegacyAnnotations annotations in
      if needsSaving annotations migrated
      then (migrated, saveAnnotations setItemThrows migrated store)
      else (migrated, store)
  end.

(** ** The overlay component: active set *)

Definition ltb (a b : R) : bool := if Rlt_dec a b then true else false.

(** [annotations.filter(ann => Math.abs(ann.videoTime - currentVideoTime) < 1.0)] *)
Definition activeAnnotations (annotations : list Annotation) (currentVideoTime : R)
  : list Annotation :=
  filter (fun ann => ltb (JsMath.abs (videoTime ann - currentVideoTime)) 1)
         annotations.

(** ** The overlay component: state, canvas and handlers *)

Record FormData := mkFormData {
  fd_notes : string;
  fd_colour : string;
  fd_grade : Score;
  fd_drops : Score;
  fd_primaryDescription : string;
  fd_secondaryDescription : string;
  fd_description : string }.

(** [ANNOTATION_COLORS[0].value] is white. *)
Definition emptyFormData : FormData :=
  mkFormData EmptyString "#ffffff" NA NA EmptyString EmptyString EmptyString.

(** The one-shot value the compositor draws ([pendingAnnotationForScreenshot]). *)
Record PendingAnnotation := mkPendingAnnotation {
  pa_worldDirection : WorldDirection;
  pa_box : option Box;
  pa_colour : string;
  pa_notes : string }.

(** What a 2D context call leaves on a canvas, with the context state
    ([strokeStyle], [lineWidth], line dash, [fillStyle], [globalAlpha],
    [font]) in force at the call. *)
Inductive DrawOp :=
| StrokeRect (strokeStyle : string) (lineWidth : R) (lineDash : list R)
             (x y w h : R)
| FillRect (fillStyle : string) (globalAlpha : R) (x y w h : R)
| FillText (fillStyle : string) (font : string) (text : string) (x y : R).

(** The calls made on the 2D context of a canvas since it was last
    cleared, in order.  A call is recorded wherever it draws: what of it
    falls inside the canvas rectangle is given by [covers] and [marks]
    below. *)
Definition Canvas := list DrawOp.

(** What [drawImage] copies into the screenshot canvas. *)
Inductive Layer :=
| RendererCanvas
| VideoFrame
| OverlayCanvas (content : Canvas).

Definition Raster := list Layer.

Record MouseEvent := mkMouseEvent {
  button : Z;
  clientX : R;
  clientY : R }.

(** Props of the component and the facts of the page it reads.
    [toDataURL] is [canvas.toDataURL('image/png')] on the screenshot
    canvas, [None] when it throws (a canvas tainted by a cross-origin
    frame); [newAnnotationId] and [newAnnotationCreatedAt] are what the
    parent assigns to the annotation it is handed. *)
Record Env := mkEnv {
  annotationMode : bool;
  currentVideoTime : R;
  videoElement : bool;
  annotations : list Annotation;
  width : R;
  height : R;
  disableInteractions : bool;
  onPauseVideo : bool;
  onGetCameraRotation : option (option CameraRotation);
  onGetCamera : option (option THREE.PerspectiveCamera);
  canvasMounted : bool;
  canvasContext : bool;
  canvasLeft : R;
  canvasTop : R;
  rendererCanvasFound : bool;
  screenshotContext : bool;
  rendererDrawThrows : bool;
  videoReady : bool;
  videoDrawThrows : bool;
  overlayDrawThrows : bool;
  toDataURL : Raster -> option string;
  newAnnotationId : string;
  newAnnotationCreatedAt : string }.

(** The values of one render that [draw] closes over. *)
Record Closure := mkClosure {
  c_activeAnnotations : list Annotation;
  c_pendingAnnotationForScreenshot : option PendingAnnotation;
  c_isCapturingScreenshot : bool }.

(** Dependencies of the redraw effect:
    [[activeAnnotations.length, currentVideoTime, width, height,
      isCapturingScreenshot]]. *)
Record Deps := mkDeps {
  d_activeLength : nat;
  d_currentVideoTime : R;
  d_width : R;
  d_height : R;
  d_isCapturingScreenshot : bool }.

Record Overlay := mkOverlay {
  isDrawing : bool;
  startPos : R * R;
  currentBox : option Box;
  showForm : bool;
  formData : FormData;
  pendingBox : option Box;
  pendingWorldDirection : option WorldDirection;
  isCapturingScreenshot : bool;
  pendingAnnotationForScreenshot : option PendingAnnotation;
  canvas : Canvas;
  loop : option Closure;
  loopDeps : option Deps;
  videoPaused : bool;
  consoleErrors : list string;
  alerts : list string;
  created : list Annotation }.

Definition initialOverlay : Overlay :=
  mkOverlay false (0, 0) None false emptyFormData None None false None
            [] None None false [] [] [].

(** Field updates. *)
Definition set_isDrawing (v : bool) (s : Overlay) : Overlay :=
  mkOverlay v (startPos s) (currentBox s) (showForm s) (formData s)
            (pendingBox s) (pendingWorldDirection s) (isCapturingScreenshot s)
            (pendingAnnotationForScreenshot s) (canvas s) (loop s) (loopDeps s)
            (videoPaused s) (consoleErrors s) (alerts s) (created s).

Definition set_startPos (v : R * R) (s : Overlay) : Overlay :=
  mkOverlay (isDrawing s) v (currentBox s) (showForm s) (formData s)
            (pendingBox s) (pendingWorldDirection s) (isCapturingScreenshot s)
            (pendingAnnotationForScreenshot s) (canvas s) (loop s) (loopDeps s)
            (videoPaused s) (consoleErrors s) (alerts s) (created s).

Definition set_currentBox (v : option Box) (s : Overlay) : Overlay :=
  mkOverlay (isDrawing s) (startPos s) v (showForm s) (formData s)
            (pendingBox s) (pendingWorldDirection s) (isCapturingScreenshot s)
            (pendingAnnotationForScreenshot s) (canvas s) (loop s) (loopDeps s)
            (videoPaused s) (consoleErrors s) (alerts s) (created s).

Definition setShowForm (v : bool) (s : Overlay) : Overlay :=
  mkOverlay (isDrawing s) (startPos s) (currentBox s) v (formData s)
            (pendingBox s) (pendingWorldDirection s) (isCapturingScreenshot s)
            (pendingAnnotationForScreenshot s) (canvas s) (loop s) (loopDeps s)
            (videoPaused s) (consoleErrors s) (alerts s) (created s).

Definition setFormData (v : FormData) (s : Overlay) : Overlay :=
  mkOverlay (isDrawing s) (startPos s) (currentBox s) (showForm s) v
            (pendingBox s) (pendingWorldDirection s) (isCapturingScreenshot s)
            (pendingAnnotationForScreenshot s) (canvas s) (loop s) (loopDeps s)
            (videoPaused s) (consoleErrors s) (alerts s) (created s).

Definition setPendingBox (v : option Box) (s : Overlay) : Overlay :=
  mkOverlay (isDrawing s) (startPos s) (currentBox s) (showForm s) (formData s)
            v (pendingWorldDirection s) (isCapturingScreenshot s)
            (pendingAnnotationForScreenshot s) (canvas s) (loop s) (loopDeps s)
            (videoPaused s) (consoleErrors s) (alerts s) (created s).

Definition setPendingWorldDirection (v : option WorldDirection) (s : Overlay)
  : Overlay :=
  mkOverlay (isDrawing s) (startPos s) (currentBox s) (showForm s) (formData s)
            (pendingBox s) v (isCapturingScreenshot s)
            (pendingAnnotationForScreenshot s) (canvas s) (loop s) (loopDeps s)
            (videoPaused s) (consoleErrors s) (alerts s) (created s).

Definition setIsCapturingScreenshot (v : bool) (s : Overlay) : Overlay :=
  mkOverlay (isDrawing s) (startPos s) (currentBox s) (showForm s) (formData s)
            (pendingBox s) (pendingWorldDirection s) v
            (pendingAnnotationForScreenshot s) (canvas s) (loop s) (loopDeps s)
            (videoPaused s) (consoleErrors s) (alerts s) (created s).

Definition setPendingAnnotationForScreenshot (v : option PendingAnnotation)
    (s : Overlay) : Overlay :=
  mkOverlay (isDrawing s) (startPos s) (currentBox s) (showForm s) (formData s)
            (pendingBox s) (pendingWorldDirection s) (isCapturingScreenshot s)
            v (canvas s) (loop s) (loopDeps s)
            (videoPaused s) (consoleErrors s) (alerts s) (created s).

Definition set_canvas (v : Canvas) (s : Overlay) : Overlay :=
  mkOverlay (isDrawing s) (startPos s) (currentBox s) (showForm s) (formData s)
            (pendingBox s) (pendingWorldDirection s) (isCapturingScreenshot s)
            (pendingAnnotationForScreenshot s) v (loop s) (loopDeps s)
            (videoPaused s) (consoleErrors s) (alerts s) (created s).

Definition set_loop (v : option Closure) (d : option Deps) (s : Overlay) : Overlay :=
  mkOverlay (isDrawing s) (startPos s) (currentBox s) (showForm s) (formData s)
            (pendingBox s) (pendingWorldDirection s) (isCapturingScreenshot s)
            (pendingAnnotationForScreenshot s) (canvas s) v d
            (videoPaused s) (consoleErrors s) (alerts s) (created s).

Definition set_videoPaused (v : bool) (s : Overlay) : Overlay :=
  mkOverlay (isDrawing s) (startPos s) (currentBox s) (showForm s) (formData s)
            (pendingBox s) (pendingWorldDirection s) (isCapturingScreenshot s)
            (pendingAnnotationForScreenshot s) (canvas s) (loop s) (loopDeps s)
            v (consoleErrors s) (alerts s) (created s).

(** [console.error(msg)] *)
Definition consoleError (msg : string) (s : Overlay) : Overlay :=
  mkOverlay (isDrawing s) (startPos s) (currentBox s) (showForm s) (formData s)
            (pendingBox s) (pendingWorldDirection s) (isCapturingScreenshot s)
            (pendingAnnotationForScreenshot s) (canvas s) (loop s) (loopDeps s)
            (videoPaused s) (consoleErrors s ++ [msg]) (alerts s) (created s).

(** [alert(msg)] *)
Definition alert (msg : string) (s : Overlay) : Overlay :=
  mkOverlay (isDrawing s) (startPos s) (currentBox s) (showForm s) (formData s)
            (pendingBox s) (pendingWorldDirection s) (isCapturingScreenshot s)
            (pendingAnnotationForScreenshot s) (canvas s) (loop s) (loopDeps s)
            (videoPaused s) (consoleErrors s) (alerts s ++ [msg]) (created s).

(** [await onAnnotationCreate(annotation)]: the parent appends it to the
    collection (and assigns [id] and [createdAt]). *)
Definition onAnnotationCreate (a : Annotation) (s : Overlay) : Overlay :=
  mkOverlay (isDrawing s) (startPos s) (currentBox s) (showForm s) (formData s)
            (pendingBox s) (pendingWorldDirection s) (isCapturingScreenshot s)
            (pendingAnnotationForScreenshot s) (canvas s) (loop s) (loopDeps s)
            (videoPaused s) (consoleErrors s) (alerts s) (created s ++ [a]).

(** [if (onPauseVideo && videoElement && !videoElement.paused) onPauseVideo()] *)
Definition pauseVideo (env : Env) (s : Overlay) : Overlay :=
  if onPauseVideo env && videoElement env && negb (videoPaused s)
  then set_videoPaused true s
  else s.

(** [onGetCamera ? onGetCamera() : null] *)
Definition getCamera (env : Env) : option THREE.PerspectiveCamera :=
  match onGetCamera env with
  | Some r => r
  | None => None
  end.

(** [onGetCameraRotation ? onGetCameraRotation() : null] *)
Definition getCameraRotation (env : Env) : option CameraRotation :=
  match onGetCameraRotation env with
  | Some r => r
  | None => None
  end.

Definition nonEmpty (s : string) : bool :=
  match s with EmptyString => false | _ => true end.

Definition handleMouseDown (env : Env) (e : MouseEvent) (s : Overlay) : Overlay :=
  if negb (annotationMode env) || disableInteractions env
     || negb (Z.eqb (button e) 2)
  then s
  else if negb (canvasMounted env) then s
  else
    let x := clientX e - canvasLeft env in
    let y := clientY e - canvasTop env in
    let s := pauseVideo env s in
    set_currentBox None (set_startPos (x, y) (set_isDrawing true s)).

(** [ann.notes || ann.label], drawn only when it is a non-empty string. *)
Definition displayText (ann : Annotation) : option string :=
  if nonEmpty (notes ann) then Some (notes ann)
  else match label ann with
       | Some l => if nonEmpty l then Some l else None
       | None => None
       end.

(** Stroke of an annotation box and its text, as [draw] paints them. *)
Definition paintAnnotation (ann : Annotation) (b : Box) : Canvas :=
  StrokeRect (colour ann) 2 [] (box_x b) (box_y b) (box_width b) (box_height b)
  :: match displayText ann with
     | Some t => [FillText (colour ann) "14px Arial" t (box_x b) (box_y b - 5)]
     | None => []
     end.

(** Border, translucent fill and notes of the pending annotation. *)
Definition paintPending (colour notes : string) (x y w h : R) : Canvas :=
  StrokeRect colour 3 [] x y w h
  :: FillRect colour (1 / 10) x y w h
  :: (if nonEmpty notes then [FillText colour "14px Arial" notes x (y - 5)]
      else []).

(** The stored box dimensions centred on the projected point. *)
Definition boxAround (screenPos : ScreenPoint) (b : Box) (width height : R) : Box :=
  mkBox (pt_x screenPos - (box_width b * width) / 2)
        (pt_y screenPos - (box_height b * height) / 2)
        (box_width b * width)
        (box_height b * height).

(** A legacy box scaled to the viewport. *)
Definition legacyBox (b : Box) (width height : R) : Box :=
  mkBox (box_x b * width) (box_y b * height)
        (box_width b * width) (box_height b * height).

(** The body of [activeAnnotations.forEach] in [draw]. *)
Definition drawActive (env : Env) (camera : option THREE.PerspectiveCamera)
    (ann : Annotation) : Canvas :=
  let b :=
    match worldDirection ann, camera with
    | Some wd, Some cam =>
        match worldDirectionToScreen wd (width env) (height env) cam with
        | Some screenPos =>
            match box ann with
            | Some ab => Some (boxAround screenPos ab (width env) (height env))
            | None => getAnnotationBox wd (width env) (height env) cam 5
            end
        | None => None
        end
    | _, _ =>
        match box ann with
        | Some ab => Some (legacyBox ab (width env) (height env))
        | None => None
        end
    end in
  match b with
  | Some b => paintAnnotation ann b
  | None => []
  end.

(** The pending-annotation part of [draw]. *)
Definition drawPending (env : Env) (camera : option THREE.PerspectiveCamera)
    (pending : option PendingAnnotation) : Canvas :=
  match pending, camera with
  | Some p, Some cam =>
      match worldDirectionToScreen (pa_worldDirection p)
                                   (width env) (height env) cam with
      | Some screenPos =>
          let b :=
            match pa_box p with
            | Some pb => Some (boxAround screenPos pb (width env) (height env))
            | None => getAnnotationBox (pa_worldDirection p)
                                       (width env) (height env) cam 5
            end in
          match b with
          | Some b => paintPending (pa_colour p) (pa_notes p)
                                   (box_x b) (box_y b) (box_width b) (box_height b)
          | None => []
          end
      | None => []
      end
  | _, _ => []
  end.

(** The dashed white rectangle of a drag in progress. *)
Definition paintCurrentBox (b : Box) : Canvas :=
  [StrokeRect "#ffffff" 2 [5; 5] (box_x b) (box_y b) (box_width b) (box_height b)].

(** [draw], with the values of the render it was created in. *)
Definition draw (env : Env) (c : Closure) (s : Overlay) : Overlay :=
  if negb (canvasMounted env) then s
  else if negb (canvasContext env) then s
  else
    let camera := getCamera env in
    set_canvas
      (flat_map (drawActive env camera) (c_activeAnnotations c)
       ++ drawPending env camera (c_pendingAnnotationForScreenshot c)
       ++ match currentBox s with
          | Some b => if negb (c_isCapturingScreenshot c) then paintCurrentBox b
                      else []
          | None => []
          end)
      s.

(** The values a handler or effect created by the current render sees. *)
Definition closureOf (env : Env) (s : Overlay) : Closure :=
  mkClosure (activeAnnotations (annotations env) (currentVideoTime env))
            (pendingAnnotationForScreenshot s)
            (isCapturingScreenshot s).

Definition depsOf (env : Env) (s : Overlay) : Deps :=
  mkDeps (List.length (activeAnnotations (annotations env) (currentVideoTime env)))
         (currentVideoTime env) (width env) (height env)
         (isCapturingScreenshot s).

Definition Reqb (a b : R) : bool := if Req_dec_T a b then true else false.

Definition deps_eqb (a b : Deps) : bool :=
  Nat.eqb (d_activeLength a) (d_activeLength b)
  && Reqb (d_currentVideoTime a) (d_currentVideoTime b)
  && Reqb (d_width a) (d_width b)
  && Reqb (d_height a) (d_height b)
  && Bool.eqb (d_isCapturingScreenshot a) (d_isCapturingScreenshot b).

(** One run of [animate]: the frame callback of the redraw loop. *)
Definition animate (env : Env) (c : Closure) (s : Overlay) : Overlay :=
  if negb (c_isCapturingScreenshot c) then draw env c s else s.

(** A display-refresh tick: the scheduled [animate], if a loop is running. *)
Definition frame (env : Env) (s : Overlay) : Overlay :=
  match loop s with
  | Some c => animate env c s
  | None => s
  end.

(** A committed render: when a dependency changed, the effect cancels the
    running loop and, unless a capture is in progress, starts a new one
    with a first [animate()]. *)
Definition render (env : Env) (s : Overlay) : Overlay :=
  let deps := depsOf env s in
  let unchanged :=
    match loopDeps s with
    | Some old => deps_eqb old deps
    | None => false
    end in
  if unchanged then s
  else if isCapturingScreenshot s then set_loop None (Some deps) s
  else
    let c := closureOf env s in
    animate env c (set_loop (Some c) (Some deps) s).

Definition handleMouseMove (env : Env) (e : MouseEvent) (s : Overlay) : Overlay :=
  if negb (annotationMode env) || negb (isDrawing s) || disableInteractions env
  then s
  else if negb (canvasMounted env) then s
  else
    let currentX := clientX e - canvasLeft env in
    let currentY := clientY e - canvasTop env in
    let x := JsMath.min (fst (startPos s)) currentX in
    let y := JsMath.min (snd (startPos s)) currentY in
    let w := JsMath.abs (currentX - fst (startPos s)) in
    let h := JsMath.abs (currentY - snd (startPos s)) in
    draw env (closureOf env s) (set_currentBox (Some (mkBox x y w h)) s).

Definition cameraUnavailableMessage : string :=
  "Cannot create annotation: camera or camera rotation not available".

Definition conversionFailedMessage : string :=
  "Failed to convert screen coordinates to world direction".

Definition handleMouseUp (env : Env) (e : MouseEvent) (s : Overlay) : Overlay :=
  if negb (annotationMode env) || negb (isDrawing s) || disableInteractions env
     || negb (Z.eqb (button e) 2)
  then s
  else
    let s := set_isDrawing false s in
    match currentBox s with
    | None => s
    | Some cb =>
        if negb (canvasMounted env) then s
        else
          let s := pauseVideo env s in
          match getCamera env, getCameraRotation env with
          | Some camera, Some cameraRotation =>
              let boxCenterX := box_x cb + box_width cb / 2 in
              let boxCenterY := box_y cb + box_height cb / 2 in
              match screenToWorldDirection boxCenterX boxCenterY
                                           (width env) (height env)
                                           camera cameraRotation with
              | None => consoleError conversionFailedMessage s
              | Some worldDirection =>
                  let normalizedBox :=
                    mkBox (box_x cb / width env) (box_y cb / height env)
                          (box_width cb / width env) (box_height cb / height env) in
                  setShowForm true
                    (setFormData emptyFormData
                       (setPendingWorldDirection (Some worldDirection)
                          (setPendingBox (Some normalizedBox) s)))
              end
          | _, _ => consoleError cameraUnavailableMessage s
          end
    end.

Definition handleFormCancel (s : Overlay) : Overlay :=
  set_currentBox None
    (setPendingWorldDirection None (setPendingBox None (setShowForm false s))).

(** ** The overlay component: form submission and screenshot capture *)

(** [String.prototype.trim] removes white space and line terminators at
    both ends.  Strings are held as their UTF-8 bytes; these are the
    encodings of the code points ECMAScript counts as white space or line
    terminator: U+0009 to U+000D, U+0020, U+00A0, U+1680, U+2000 to
    U+200A, U+2028, U+2029, U+202F, U+205F, U+3000 and U+FEFF. *)
Definition isWhitespace (c : ascii) : bool :=
  let n := nat_of_ascii c in
  ((9 <=? n)%nat && (n <=? 13)%nat) || (n =? 32)%nat.

(** U+00A0 is [C2 A0]. *)
Definition isWhitespace2 (a b : ascii) : bool :=
  ((nat_of_ascii a =? 194) && (nat_of_ascii b =? 160))%nat.

(** U+1680 is [E1 9A 80]; U+2000 to U+200A, U+2028, U+2029 and U+202F
    are [E2 80 80] to [E2 80 8A], [E2 80 A8], [E2 80 A9] and [E2 80 AF];
    U+205F is [E2 81 9F]; U+3000 is [E3 80 80]; U+FEFF is [EF BB BF]. *)
Definition isWhitespace3 (a b c : ascii) : bool :=
  let x := nat_of_ascii a in
  let y := nat_of_ascii b in
  let z := nat_of_ascii c in
  ((x =? 225) && (y =? 154) && (z =? 128)
   || (x =? 226) && (y =? 128)
      && ((128 <=? z) && (z <=? 138) || (z =? 168) || (z =? 169) || (z =? 175))
   || (x =? 226) && (y =? 129) && (z =? 159)
   || (x =? 227) && (y =? 128) && (z =? 128)
   || (x =? 239) && (y =? 187) && (z =? 191))%nat.

Fixpoint trimStartBytes (s : list ascii) : list ascii :=
  match s with
  | [] => []
  | a :: r =>
      if isWhitespace a then trimStartBytes r
      else
        match r with
        | [] => s
        | b :: r2 =>
            if isWhitespace2 a b then trimStartBytes r2
            else
              match r2 with
              | [] => s
              | c :: r3 => if isWhitespace3 a b c then trimStartBytes r3 else s
              end
        end
  end.

(** The same from the end, on the reversed bytes. *)
Fixpoint trimEndReversed (s : list ascii) : list ascii :=
  match s with
  | [] => []
  | c :: r =>
      if isWhitespace c then trimEndReversed r
      else
        match r with
        | [] => s
        | b :: r2 =>
            if isWhitespace2 b c then trimEndReversed r2
            else
              match r2 with
              | [] => s
              | a :: r3 => if isWhitespace3 a b c then trimEndReversed r3 else s
              end
        end
  end.

Definition trimStart (s : string) : string :=
  string_of_list_ascii (trimStartBytes (list_ascii_of_string s)).

Definition trimEnd (s : string) : string :=
  string_of_list_ascii
    (rev (trimEndReversed (rev (list_ascii_of_string s)))).

Definition trim (s : string) : string := trimEnd (trimStart s).

Definition isNA (v : Score) : bool :=
  match v with NA => true | ScoreValue _ => false end.

Definition scoreColour (v : Z) : option string :=
  if Z.eqb v 1 then Some "#00ff00"%string
  else if Z.eqb v 2 then Some "#ffff00"%string
  else if Z.eqb v 3 then Some "#ffa500"%string
  else if Z.eqb v 4 then Some "#ff0000"%string
  else None.

Definition calculateColor (fd : FormData) (grade drops : Score) : string :=
  match grade, drops with
  | ScoreValue _, ScoreValue _ => fd_colour fd
  | NA, ScoreValue d =>
      match scoreColour d with Some c => c | None => "#ffffff" end
  | ScoreValue g, NA =>
      match scoreColour g with Some c => c | None => "#ffffff" end
  | NA, NA => "#ffffff"
  end.

Definition calculateRiskIndex (grade drops : Score) : Z :=
  let gradeValue := match grade with NA => 3%Z | ScoreValue g => g end in
  let dropsValue := match drops with NA => 3%Z | ScoreValue d => d end in
  (gradeValue * dropsValue)%Z.

Definition getRiskLevel (riskIndex : Z) : string :=
  if ((1 <=? riskIndex) && (riskIndex <=? 4))%Z then "Low"
  else if ((5 <=? riskIndex) && (riskIndex <=? 8))%Z then "Medium"
  else if ((9 <=? riskIndex) && (riskIndex <=? 12))%Z then "High"
  else if ((13 <=? riskIndex) && (riskIndex <=? 16))%Z then "Extreme"
  else "N/A".

(** [a || b] on strings. *)
Definition orElse (a b : string) : string := if nonEmpty a then a else b.

(** The colour the annotation ends up with. *)
Definition finalColor (fd : FormData) : string :=
  if isNA (fd_grade fd) || isNA (fd_drops fd)
  then calculateColor fd (fd_grade fd) (fd_drops fd)
  else fd_colour fd.

Definition combinedDescription (fd : FormData) : string :=
  (fd_primaryDescription fd ++ " - " ++ fd_secondaryDescription fd)%string.

Definition finalNotes (fd : FormData) : string :=
  orElse (orElse (trim (fd_notes fd)) (combinedDescription fd)) EmptyString.

(** The constants of one run of [handleFormSubmit]. *)
Record Submission := mkSubmission {
  sub_annotationData : Annotation;
  sub_pendingAnnotation : PendingAnnotation }.

(** [annotationData]; [videoTime] and [screenshotDataUrl] are filled in
    when the annotation is created, [id] and [createdAt] by the parent. *)
Definition annotationData (env : Env) (fd : FormData)
    (pendingWorldDirection : WorldDirection) (pendingBox : Box) : Annotation :=
  let riskIndex := calculateRiskIndex (fd_grade fd) (fd_drops fd) in
  mkAnnotation EmptyString 0 EmptyString
               (finalNotes fd) (finalColor fd)
               (Some (fd_grade fd)) (Some (fd_drops fd))
               (Some riskIndex) (Some (getRiskLevel riskIndex))
               (Some (fd_primaryDescription fd))
               (Some (fd_secondaryDescription fd))
               (Some (combinedDescription fd))
               (Some (Z.of_nat (List.length (annotations env)) + 1)%Z)
               (Some pendingWorldDirection) (Some pendingBox)
               EmptyString
               (match onGetCameraRotation env with
                | Some r => r
                | None => None
                end)
               None None None.

(** From the call to the first [await]: validation, then steps 1 to 4. *)
Definition submitBegin (env : Env) (s : Overlay) : option Submission * Overlay :=
  match pendingBox s, pendingWorldDirection s with
  | Some pb, Some pwd =>
      if negb (nonEmpty (fd_primaryDescription (formData s)))
      then (None, alert "Please select a primary description." s)
      else if negb (nonEmpty (fd_secondaryDescription (formData s)))
      then (None, alert "Please select a secondary description." s)
      else
        let data := annotationData env (formData s) pwd pb in
        let pendingAnnotation :=
          mkPendingAnnotation pwd (Some pb) (finalColor (formData s))
                              (finalNotes (formData s)) in
        (Some (mkSubmission data pendingAnnotation),
         setIsCapturingScreenshot true
           (setPendingAnnotationForScreenshot (Some pendingAnnotation)
              (set_currentBox None (setShowForm false s))))
  | _, _ => (None, s)
  end.

(** The body of [activeAnnotations.forEach] in the forced redraw. *)
Definition redrawActive (env : Env) (camera : THREE.PerspectiveCamera)
    (ann : Annotation) : Canvas :=
  let b :=
    match worldDirection ann with
    | Some wd =>
        match worldDirectionToScreen wd (width env) (height env) camera, box ann with
        | Some screenPos, Some ab =>
            Some (boxAround screenPos ab (width env) (height env))
        | _, _ => None
        end
    | None =>
        match box ann with
        | Some ab => Some (legacyBox ab (width env) (height env))
        | None => None
        end
    end in
  match b with
  | Some b => paintAnnotation ann b
  | None => []
  end.

(** The pending annotation in the forced redraw. *)
Definition redrawPending (env : Env) (camera : option THREE.PerspectiveCamera)
    (p : PendingAnnotation) : Canvas :=
  match camera, pa_box p with
  | Some cam, Some pb =>
      match worldDirectionToScreen (pa_worldDirection p)
                                   (width env) (height env) cam with
      | Some screenPos =>
          let x := pt_x screenPos - (box_width pb * width env) / 2 in
          let y := pt_y screenPos - (box_height pb * height env) / 2 in
          let w := box_width pb * width env in
          let h := box_height pb * height env in
          paintPending (pa_colour p) (pa_notes p) x y w h
      | None => []
      end
  | _, _ => []
  end.

(** Step 6: clear the canvas, redraw the active annotations, then the
    pending one. *)
Definition forcedRedraw (env : Env) (sub : Submission) (s : Overlay) : Overlay :=
  if canvasMounted env && canvasContext env then
    let camera := getCamera env in
    set_canvas
      (match camera with
       | Some cam =>
           flat_map (redrawActive env cam)
                    (activeAnnotations (annotations env) (currentVideoTime env))
       | None => []
       end
       ++ redrawPending env camera (sub_pendingAnnotation sub))
      s
  else s.

Definition rendererDrawError : string := "Error drawing renderer canvas:".
Definition videoDrawError : string := "Error drawing video element:".
Definition overlayDrawError : string := "Error drawing overlay canvas:".

(** What [captureScreenshot] draws into the screenshot canvas, and the
    errors it logs on the way. *)
Definition composite (env : Env) (overlay : Canvas) : Raster * list string :=
  let base :=
    if rendererDrawThrows env then
      if videoElement env && videoReady env then
        if videoDrawThrows env
        then ([], [rendererDrawError; videoDrawError])
        else ([VideoFrame], [rendererDrawError])
      else ([], [rendererDrawError])
    else ([RendererCanvas], []) in
  let top :=
    if overlayDrawThrows env
    then ([], [overlayDrawError])
    else ([OverlayCanvas overlay], []) in
  (fst base ++ fst top, snd base ++ snd top)%list.

Definition logAll (msgs : list string) (s : Overlay) : Overlay :=
  fold_left (fun s m => consoleError m s) msgs s.

(** How an awaited promise ends: resolved with a value, or never
    settled. *)
Inductive Awaited (A : Type) :=
| Resolved (a : A)
| NeverSettled.

Arguments Resolved {A} a.
Arguments NeverSettled {A}.

(** [captureScreenshot]: the promise resolves with the data URL or the
    empty string.  [canvas.toDataURL] is called outside every [try],
    inside the frame callback: when it throws, [resolve] is never reached
    and the promise never settles. *)
Definition captureScreenshot (env : Env) (s : Overlay)
  : Awaited string * Overlay :=
  if negb (rendererCanvasFound env)
  then (Resolved EmptyString,
        consoleError "Renderer canvas not found for screenshot" s)
  else if negb (screenshotContext env)
  then (Resolved EmptyString,
        consoleError "Failed to get 2D context for screenshot canvas" s)
  else
    let r := composite env (canvas s) in
    match toDataURL env (fst r) with
    | Some dataUrl => (Resolved dataUrl, logAll (snd r) s)
    | None => (NeverSettled, logAll (snd r) s)
    end.

(** Steps 10 and 11; step 11 is reached only when the capture settles. *)
Definition capture (env : Env) (s : Overlay) : Awaited string * Overlay :=
  if videoElement env && canvasMounted env then
    match captureScreenshot env s with
    | (Resolved screenshotDataUrl, s) =>
        (Resolved screenshotDataUrl,
         setPendingAnnotationForScreenshot None
           (if negb (nonEmpty screenshotDataUrl)
               || (String.length screenshotDataUrl <=? 100)%nat
            then consoleError "Screenshot capture failed or returned empty data" s
            else s))
    | (NeverSettled, s) => (NeverSettled, s)
    end
  else
    (Resolved EmptyString,
     setPendingAnnotationForScreenshot None
       (consoleError "Cannot capture screenshot: missing videoElement or canvas"
                     s)).

(** [{ videoTime, screenshotDataUrl, ...annotationData, colour }] *)
Definition finishedAnnotation (env : Env) (fd : FormData) (data : Annotation)
    (url : string) : Annotation :=
  mkAnnotation (id data) (currentVideoTime env) url (notes data)
               (finalColor fd) (grade data) (drops data) (riskIndex data)
               (riskLevel data) (primaryDescription data)
               (secondaryDescription data) (description data)
               (defectNumber data) (worldDirection data) (box data)
               (createdAt data) (cameraRotation data)
               (label data) (severity data) (criticality data).

(** Step 13 and the call of [onAnnotationCreate]. *)
Definition submitCreate (annotation : Annotation) (s : Overlay) : Overlay :=
  onAnnotationCreate annotation (setIsCapturingScreenshot false s).

(** After [await onAnnotationCreate(...)]: the reset. *)
Definition submitReset (s : Overlay) : Overlay :=
  set_currentBox None (setPendingWorldDirection None (setPendingBox None s)).

(** The parent's [newAnnotation]: what it was handed, with [id] and
    [createdAt] assigned. *)
Definition newAnnotation (env : Env) (a : Annotation) : Annotation :=
  mkAnnotation (newAnnotationId env) (videoTime a) (screenshotDataUrl a)
               (notes a) (colour a) (grade a) (drops a) (riskIndex a)
               (riskLevel a) (primaryDescription a) (secondaryDescription a)
               (description a) (defectNumber a) (worldDirection a) (box a)
               (newAnnotationCreatedAt env) (cameraRotation a)
               (label a) (severity a) (criticality a).

(** The props once the parent ran [setAnnotations(prev => [...prev,
    newAnnotation])]: renders that commit while the parent saves the
    screenshot see the longer collection. *)
Definition afterCreate (env : Env) (a : Annotation) : Env :=
  mkEnv (annotationMode env) (currentVideoTime env) (videoElement env)
        (annotations env ++ [newAnnotation env a])
        (width env) (height env) (disableInteractions env) (onPauseVideo env)
        (onGetCameraRotation env) (onGetCamera env)
        (canvasMounted env) (canvasContext env) (canvasLeft env) (canvasTop env)
        (rendererCanvasFound env) (screenshotContext env)
        (rendererDrawThrows env) (videoReady env) (videoDrawThrows env)
        (overlayDrawThrows env) (toDataURL env)
        (newAnnotationId env) (newAnnotationCreatedAt env).

(** What may run while [handleFormSubmit] waits with the barrier up:
    display-refresh ticks and committed renders.  Pointer handlers are
    behind the barrier. *)
Inductive Background :=
| Frame
| Render.

Definition background (env : Env) (events : list Background) (s : Overlay)
  : Overlay :=
  fold_left (fun s ev => match ev with
                         | Frame => frame env s
                         | Render => render env s
                         end) events s.

(** What may run while [onAnnotationCreate] is awaited: the barrier is
    lifted by then, so besides ticks and renders the pointer handlers can
    run, and a form they open can be edited ([setFormData] with any new
    value) or cancelled.  A second submission started within this same
    wait is not followed. *)
Inductive Activity :=
| Tick (ev : Background)
| PointerDown (e : MouseEvent)
| PointerMove (e : MouseEvent)
| PointerUp (e : MouseEvent)
| FormChange (fd : FormData)
| FormCancel.

Definition act (env : Env) (s : Overlay) (a : Activity) : Overlay :=
  match a with
  | Tick Frame => frame env s
  | Tick Render => render env s
  | PointerDown e => handleMouseDown env e s
  | PointerMove e => handleMouseMove env e s
  | PointerUp e => handleMouseUp env e s
  | FormChange fd => setFormData fd s
  | FormCancel => handleFormCancel s
  end.

Definition unblocked (env : Env) (events : list Activity) (s : Overlay)
  : Overlay :=
  fold_left (act env) events s.

(** [handleFormSubmit], with what runs during its four waits: [settle]
    (step 5), [paint] (steps 7, 8 and the frames awaited by
    [captureScreenshot]), [release] (step 12) and [persist] (the await of
    [onAnnotationCreate], after the barrier is lifted and the parent has
    the new annotation).  When the capture never settles the handler
    never gets past step 10: the state it is left in is returned. *)
Definition handleFormSubmit (env : Env)
    (settle paint release : list Background) (persist : list Activity)
    (s : Overlay) : Overlay :=
  match submitBegin env s with
  | (None, s) => s
  | (Some sub, s1) =>
      let s2 := background env settle s1 in
      let s3 := forcedRedraw env sub s2 in
      let s4 := background env paint s3 in
      match capture env s4 with
      | (NeverSettled, s5) => s5
      | (Resolved screenshotDataUrl, s5) =>
          let s6 := background env release s5 in
          let annotation :=
            finishedAnnotation env (formData s) (sub_annotationData sub)
                               screenshotDataUrl in
          let s7 := submitCreate annotation s6 in
          let s8 := unblocked (afterCreate env annotation) persist s7 in
          submitReset s8
      end
  end.



(** The running redraw loop, if any, was started by a render that was
    not capturing. *)
Definition loopConsistent (s : Overlay) : Prop :=
  match loop s with
  | Some c =>
      c_isCapturingScreenshot c = false /\
      exists d, loopDeps s = Some d /\ d_isCapturingScreenshot d = false
  | None => True
  end.

(** The state [handleFormSubmit] reads the overlay canvas in, when the
    submission passes validation. *)
Definition beforeCapture (env : Env) (settle paint : list Background)
    (s : Overlay) : option (Submission * Overlay) :=
  match submitBegin env s with
  | (None, _) => None
  | (Some sub, s1) =>
      Some (sub,
            background env paint
              (forcedRedraw env sub (background env settle s1)))
  end.

(** The raster [captureScreenshot] encodes, when it gets that far. *)
Definition capturedRaster (env : Env) (s : Overlay) : option Raster :=
  if videoElement env && canvasMounted env && rendererCanvasFound env
     && screenshotContext env
  then Some (fst (composite env (canvas s)))
  else None.

(** How the capture ends for the overlay read in state [s]: with the
    encoded raster, with the empty string when it did not get as far as
    compositing, or never when encoding throws. *)
Definition screenshotOutcome (env : Env) (s : Overlay) : Awaited string :=
  match capturedRaster env s with
  | Some r =>
      match toDataURL env r with
      | Some dataUrl => Resolved dataUrl
      | None => NeverSettled
      end
  | None => Resolved EmptyString
  end.

(** *** What of a drawing call falls inside the canvas *)




(** The band of a solid stroked rectangle meets the inside of the
    canvas: it is drawn at all, its outer rectangle reaches into the
    canvas and the canvas does not lie in its hole. *)
Definition strokeMeetsCanvas (W H lineWidth x y w h : R) : bool :=
  let x0 := Rmin x (x + w) in
  let x1 := Rmax x (x + w) in
  let y0 := Rmin y (y + h) in
  let y1 := Rmax y (y + h) in
  let o := lineWidth / 2 in
  let ox := if Reqb h 0 then 0 else o in
  let oy := if Reqb w 0 then 0 else o in
  ltb 0 W && ltb 0 H && ltb 0 lineWidth && negb (Reqb w 0 && Reqb h 0)
  && ltb (x0 - ox) W && ltb 0 (x1 + ox) && ltb (y0 - oy) H && ltb 0 (y1 + oy)
  && negb (negb (ltb 0 (x0 + o)) && negb (ltb (x1 - o) W)
           && negb (ltb 0 (y0 + o)) && negb (ltb (y1 - o) H)).


(** An annotation at a video time, every other field empty. *)
Definition annotationAt (t : R) : Annotation :=
  mkAnnotation EmptyString t EmptyString EmptyString EmptyString
               None None None None None None None None None None
               EmptyString None None None None.

(** A legacy annotation: a box, no world direction. *)
Definition legacyAnnotation (b : Box) (pose : option CameraRotation) : Annotation :=
  mkAnnotation EmptyString 0 EmptyString EmptyString EmptyString
               None None None None None None None None None (Some b)
               EmptyString pose None None None.

(** A page where everything the overlay needs is available, seen through
    the player's camera at its initial pose in a 1920 by 1080 viewport. *)
Definition exampleEnv : Env :=
  mkEnv true 0 true [] 1920 1080 false true
        (Some (Some (mkWorldDirection 0 0)))
        (Some (Some (playerCamera 1920 1080)))
        true true 0 0 true true false true false false
        (fun _ => Some "data:image/png;base64,"%string)
        "ann-1" "2024-01-01T00:00:00.000Z".

(** A form ready to submit. *)
Definition exampleFormData : FormData :=
  mkFormData EmptyString "#ffffff" NA NA "Piping & Valves" "Corrosion" EmptyString.

(** The overlay waiting for confirmation of a box whose direction is [d]. *)
Definition exampleOverlay (d : WorldDirection) : Overlay :=
  mkOverlay false (0, 0) (Some (mkBox 100 100 200 100)) true exampleFormData
            (Some (mkBox (100 / 1920) (100 / 1080) (200 / 1920) (100 / 1080)))
            (Some d) false None [] None None true [] [] [].

(** ** [src/utils/storage.ts]: times and paths *)

(** JavaScript strings are held as their UTF-8 bytes; the separators
    looked for below are single bytes, and never part of the encoding of
    another character. *)

(** [Number.prototype.toString] on an integer. *)
Definition toString (z : Z) : string := NilZero.string_of_int (Z.to_int z).

Fixpoint repeatChar (c : ascii) (n : nat) : string :=
  match n with
  | O => EmptyString
  | S n => String c (repeatChar c n)
  end.

(** [s.padStart(n, c)] for a one-character filler. *)
Definition padStart (n : nat) (c : ascii) (s : string) : string :=
  (repeatChar c (n - String.length s) ++ s)%string.

(** [Math.trunc] and the remainder operator [%] on the reals. *)
Definition Ztrunc (x : R) : Z := if Rle_dec 0 x then Zfloor x else Zceil x.

Definition remainder (a b : R) : R := a - b * IZR (Ztrunc (a / b)).

(** The [mins] and [secs] of [formatTime]. *)
Definition formatTimeParts (seconds : R) : Z * Z :=
  let mins := Zfloor (seconds / 60) in
  let secs := Zfloor (remainder seconds 60) in
  (mins, secs).

Definition formatTime (seconds : R) : string :=
  let mins := fst (formatTimeParts seconds) in
  let secs := snd (formatTimeParts seconds) in
  (padStart 2 "0" (toString mins) ++ ":" ++ padStart 2 "0" (toString secs))%string.

Definition slash : ascii := "/"%char.

Definition backslash : ascii := ascii_of_nat 92.

(** [s.lastIndexOf(c)] for a one-character needle: -1 when absent. *)
Fixpoint lastIndexFrom (c : ascii) (s : string) (i acc : Z) : Z :=
  match s with
  | EmptyString => acc
  | String a r => lastIndexFrom c r (i + 1) (if Ascii.eqb a c then i else acc)
  end.

Definition lastIndexOf (c : ascii) (s : string) : Z :=
  lastIndexFrom c s 0 (-1).

(** [s.includes(c)] for a one-character needle. *)
Fixpoint includes (c : ascii) (s : string) : bool :=
  match s with
  | EmptyString => false
  | String a r => Ascii.eqb a c || includes c r
  end.

Definition getDirectoryFromPath (filePath : string) : string :=
  let lastSeparator :=
    Z.max (lastIndexOf slash filePath) (lastIndexOf backslash filePath) in
  if (lastSeparator =? -1)%Z then EmptyString
  else substring 0 (Z.to_nat lastSeparator) filePath.

Definition getDeliverablesFolderPath (videoPath : string) : string :=
  let videoDirectory := getDirectoryFromPath videoPath in
  if negb (nonEmpty videoDirectory) then "deliverables"%string
  else
    let pathSeparator := if includes backslash videoPath then backslash else slash in
    (videoDirectory ++ String pathSeparator "deliverables")%string.

(** A character that is one of the two path separators. *)
Definition isSeparator (a : ascii) : bool :=
  Ascii.eqb a slash || Ascii.eqb a backslash.

(** A string without path separator. *)
Fixpoint noSeparator (s : string) : bool :=
  match s with
  | EmptyString => true
  | String a r => negb (isSeparator a) && noSeparator r
  end.

Definition isDigit (c : ascii) : bool :=
  ((48 <=? nat_of_ascii c) && (nat_of_ascii c <=? 57))%nat.

(** A string of exactly two decimal digits. *)
Definition twoDigits (s : string) : bool :=
  match s with
  | String a (String b EmptyString) => isDigit a && isDigit b
  | _ => false
  end.

(** A score the form can produce: ['N/A'] or 1 to 4. *)
Definition validScore (v : Score) : bool :=
  match v with
  | NA => true
  | ScoreValue n => ((1 <=? n) && (n <=? 4))%Z
  end.

(** The redraw loop is off and the last render saw the capture flag. *)
Definition loopSuspended (s : Overlay) : Prop :=
  isCapturingScreenshot s = true /\ loop s = None /\
  exists d, loopDeps s = Some d /\ d_isCapturingScreenshot d = true.

(** Once the barrier is lifted: not capturing, nothing pending, and the
    loop is either still off since a capturing render, or running for a
    render that was not capturing and had nothing pending. *)
Definition loopResuming (s : Overlay) : Prop :=
  isCapturingScreenshot s = false /\
  pendingAnnotationForScreenshot s = None /\
  ((loop s = None /\
    exists d, loopDeps s = Some d /\ d_isCapturingScreenshot d = true) \/
   (exists c, loop s = Some c /\ c_isCapturingScreenshot c = false /\
              c_pendingAnnotationForScreenshot c = None)).

(** ** [Video360Player]: the pan controls and the saved view *)

Module Video360Player.

(** What the handlers read from the page: [renderer.xr.isPresenting]
    and whether [cameraRef.current] is set. *)
Record Page := mkPage { isPresenting : bool; cameraRef : bool }.

(** The refs of the player the pan controls write; [lookAt] is the
    argument of the last [camera.lookAt(x, y, z)] on the current camera,
    if any. *)
Record State := mkState {
  isDragging : bool;
  previousMousePosition : R * R;
  cameraRotation : CameraRotation;
  lookAt : option THREE.Vector3 }.

Definition initial : State :=
  mkState false (0, 0) (mkWorldDirection 0 0) None.

(** [Math.max(-Math.PI / 2, Math.min(Math.PI / 2, phi))]. *)
Definition clampPhi (phi : R) : R :=
  JsMath.max (- PI / 2) (JsMath.min (PI / 2) phi).

Definition handleMouseDown (page : Page) (e : MouseEvent) (s : State) : State :=
  if isPresenting page then s
  else if negb (Z.eqb (button e) 0) then s
  else mkState true (clientX e, clientY e) (cameraRotation s) (lookAt s).

Definition handleMouseMove (page : Page) (e : MouseEvent) (s : State) : State :=
  if isPresenting page
  then mkState false (previousMousePosition s) (cameraRotation s) (lookAt s)
  else if negb (isDragging s) || negb (cameraRef page) then s
  else
    let deltaX := clientX e - fst (previousMousePosition s) in
    let deltaY := clientY e - snd (previousMousePosition s) in
    let theta := theta (cameraRotation s) - deltaX * (5 / 1000) in
    let phi := phi (cameraRotation s) + deltaY * (5 / 1000) in
    let phi := clampPhi phi in
    let rotation := mkWorldDirection phi theta in
    mkState (isDragging s) (clientX e, clientY e) rotation
            (Some (directionVector rotation)).

Definition handleMouseUp (s : State) : State :=
  mkState false (previousMousePosition s) (cameraRotation s) (lookAt s).

Definition restoreCameraView (page : Page) (phi theta : R) (s : State) : State :=
  let rotation := mkWorldDirection (clampPhi phi) theta in
  mkState (isDragging s) (previousMousePosition s) rotation
          (if cameraRef page then Some (directionVector rotation) else lookAt s).

Definition getCameraRotation (s : State) : option CameraRotation :=
  Some (mkWorldDirection (phi (cameraRotation s)) (theta (cameraRotation s))).

(** The scene effect runs again (its dependencies [videoUrl],
    [disablePanning] or [shouldStayPaused] changed): a new camera is
    created, at its initial orientation, while the refs keep their
    values. *)
Definition sceneCreated (s : State) : State :=
  mkState (isDragging s) (previousMousePosition s) (cameraRotation s) None.

(** What happens to the player, each with the page facts of that moment:
    the pointer events, a view restoration ([restoreCameraView], or the
    [seekToTime] effect, which does the same) and the creation of a new
    scene. *)
Inductive Event :=
| MouseDown (e : MouseEvent)
| MouseMove (e : MouseEvent)
| MouseUp
| RestoreCameraView (phi theta : R)
| SceneCreated.

Definition step (s : State) (pe : Page * Event) : State :=
  match snd pe with
  | MouseDown e => handleMouseDown (fst pe) e s
  | MouseMove e => handleMouseMove (fst pe) e s
  | MouseUp => handleMouseUp s
  | RestoreCameraView phi theta => restoreCameraView (fst pe) phi theta s
  | SceneCreated => sceneCreated s
  end.

Definition run (events : list (Page * Event)) (s : State) : State :=
  fold_left step events s.

(** The pointer position of the last event of a drag. *)
Definition lastPosition (moves : list MouseEvent) (start : R * R) : R * R :=
  fold_left (fun _ e => (clientX e, clientY e)) moves start.

(** What the camera is aimed at: the target of its last [lookAt], or,
    when it was not turned since it was created, the point straight ahead
    of a new camera, [(0, 0, -1)]. *)
Definition aim (s : State) : THREE.Vector3 :=
  match lookAt s with
  | Some t => t
  | None => THREE.mkVector3 0 0 (-1)
  end.

(** The stored rotation and the camera go together: when the camera was
    turned since it was created, it was last turned to the direction of
    the stored rotation. *)
Definition inSync (s : State) : Prop :=
  forall t, lookAt s = Some t -> t = directionVector (cameraRotation s).

(** What the pan controls keep: the pitch stays in range and the
    camera is only ever turned to points of the unit sphere. *)
Definition panInvariant (s : State) : Prop :=
  - PI / 2 <= phi (cameraRotation s) <= PI / 2 /\
  forall t, lookAt s = Some t -> THREE.length t = 1.

End Video360Player.

(** ** Cameras turned about the origin *)

(** [world] and [view] are the [matrixWorld] and [matrixWorldInverse] of
    a camera at the origin that was only rotated: both are linear,
    [view] undoes [world], and [world] keeps lengths. *)
Definition isRotation (world view : THREE.Matrix4) : Prop :=
  viewIsLinear world /\ viewIsLinear view /\
  (forall v, THREE.applyMatrix4 (THREE.applyMatrix4 v world) view = v) /\
  (forall v, THREE.length (THREE.applyMatrix4 v world) = THREE.length v).

(** The camera with the pose matrices replaced and the projection kept. *)
Definition withPose (camera : THREE.PerspectiveCamera) (world view : THREE.Matrix4)
  : THREE.PerspectiveCamera :=
  THREE.mkCamera (THREE.fov camera) world view
                 (THREE.projectionMatrix camera)
                 (THREE.projectionMatrixInverse camera).

(** [Matrix4.makeRotationY(angle)]. *)
Definition makeRotationY (angle : R) : THREE.Matrix4 :=
  THREE.mkMatrix4 (cos angle) 0 (- sin angle) 0
                  0 1 0 0
                  (sin angle) 0 (cos angle) 0
                  0 0 0 1.
(** ** Facts about [Math.atan2] and unit vectors *)

Section Trigonometry.

Lemma gtb_true (a b : R) : JsMath.gtb a b = true <-> a > b.
Proof.
  unfold JsMath.gtb. destruct (Rgt_dec a b); split; intros; try easy.
Qed.

Lemma gtb_false (a b : R) : JsMath.gtb a b = false <-> a <= b.
Proof.
  unfold JsMath.gtb. destruct (Rgt_dec a b); split; intros; try easy; lra.
Qed.

Lemma sqrt_one_plus_sqr_ratio (x z : R) :
  z <> 0 -> sqrt (1 + (x / z)²) = sqrt (x * x + z * z) / Rabs z.
Proof.
  intros Hz.
  assert (Ha : 0 < Rabs z) by (apply Rabs_pos_lt; exact Hz).
  assert (Hr : 0 <= sqrt (x * x + z * z)) by apply sqrt_pos.
  apply sqrt_lem_1.
  - unfold Rsqr. nra.
  - apply Rmult_le_pos; [exact Hr | left; apply Rinv_0_lt_compat; exact Ha].
  - assert (Hs : sqrt (x * x + z * z) * sqrt (x * x + z * z) = x * x + z * z)
      by (apply sqrt_sqrt; nra).
    assert (Hz2 : Rabs z * Rabs z = z * z).
    { unfold Rabs. destruct (Rcase_abs z); ring. }
    unfold Rsqr.
    replace (sqrt (x * x + z * z) / Rabs z * (sqrt (x * x + z * z) / Rabs z))
      with ((sqrt (x * x + z * z) * sqrt (x * x + z * z)) / (Rabs z * Rabs z))
      by (field; lra).
    rewrite Hs, Hz2. field. exact Hz.
Qed.

Lemma sin_atan2 (x z : R) :
  x <> 0 \/ z <> 0 ->
  sin (JsMath.atan2 x z) = x / sqrt (x * x + z * z).
Proof.
  intros Hxz. unfold JsMath.atan2.
  assert (Hr : 0 < sqrt (x * x + z * z)) by (apply sqrt_lt_R0; nra).
  destruct (Rlt_dec 0 z) as [Hp | Hnp].
  - rewrite sin_atan, sqrt_one_plus_sqr_ratio by lra.
    rewrite Rabs_right by lra. field. lra.
  - destruct (Rlt_dec z 0) as [Hn | Hnn].
    + assert (Hs : sin (atan (x / z)) = - x / sqrt (x * x + z * z)).
      { rewrite sin_atan, sqrt_one_plus_sqr_ratio by lra.
        rewrite Rabs_left by lra. field. lra. }
      destruct (Rle_dec 0 x).
      * rewrite neg_sin, Hs. field. lra.
      * unfold Rminus. rewrite sin_plus, sin_neg, cos_neg, sin_PI, cos_PI, Hs.
        field. lra.
    + assert (Hz : z = 0) by lra. subst z.
      replace (x * x + 0 * 0) with (x * x) in * by ring.
      destruct (Rlt_dec 0 x).
      * rewrite sin_PI2, sqrt_square by lra. field. lra.
      * destruct (Rlt_dec x 0).
        -- rewrite sin_neg, sin_PI2.
           replace (x * x) with ((- x) * (- x)) by ring.
           rewrite sqrt_square by lra. field. lra.
        -- exfalso. destruct Hxz; lra.
Qed.

Lemma cos_atan2 (x z : R) :
  x <> 0 \/ z <> 0 ->
  cos (JsMath.atan2 x z) = z / sqrt (x * x + z * z).
Proof.
  intros Hxz. unfold JsMath.atan2.
  assert (Hr : 0 < sqrt (x * x + z * z)) by (apply sqrt_lt_R0; nra).
  destruct (Rlt_dec 0 z) as [Hp | Hnp].
  - rewrite cos_atan, sqrt_one_plus_sqr_ratio by lra.
    rewrite Rabs_right by lra. field. lra.
  - destruct (Rlt_dec z 0) as [Hn | Hnn].
    + assert (Hs : cos (atan (x / z)) = - z / sqrt (x * x + z * z)).
      { rewrite cos_atan, sqrt_one_plus_sqr_ratio by lra.
        rewrite Rabs_left by lra. field. lra. }
      destruct (Rle_dec 0 x).
      * rewrite neg_cos, Hs. field. lra.
      * unfold Rminus. rewrite cos_plus, sin_neg, cos_neg, sin_PI, cos_PI, Hs.
        field. lra.
    + assert (Hz : z = 0) by lra. subst z.
      destruct (Rlt_dec 0 x).
      * rewrite cos_PI2. unfold Rdiv. ring.
      * destruct (Rlt_dec x 0).
        -- rewrite cos_neg, cos_PI2. unfold Rdiv. ring.
        -- exfalso. destruct Hxz; lra.
Qed.

(** [Math.atan2] ranges over (-PI, PI]. *)
Lemma atan2_bound (y x : R) :
  - PI < JsMath.atan2 y x <= PI.
Proof.
  unfold JsMath.atan2.
  pose proof (atan_bound (y / x)) as Hb.
  pose proof PI_RGT_0 as Hpi.
  destruct (Rlt_dec 0 x); [lra | ].
  destruct (Rlt_dec x 0) as [Hx | Hx].
  - destruct (Rle_dec 0 y) as [Hy | Hy].
    + assert (y / x <= 0).
      { unfold Rdiv. assert (/ x < 0) by (apply Rinv_lt_0_compat; lra). nra. }
      assert (atan (y / x) <= 0).
      { rewrite <- atan_0. destruct H as [H | H].
        - left. apply atan_increasing. exact H.
        - rewrite H. lra. }
      lra.
    + assert (0 < y / x).
      { unfold Rdiv. assert (/ x < 0) by (apply Rinv_lt_0_compat; lra). nra. }
      assert (0 < atan (y / x)).
      { rewrite <- atan_0. apply atan_increasing. exact H. }
      lra.
  - destruct (Rlt_dec 0 y); [lra | ].
    destruct (Rlt_dec y 0); lra.
Qed.

End Trigonometry.

(** ** Unit vectors and [normalize] *)

Section UnitVectors.

Import THREE.

Lemma sqr_sum_nonneg (a b c : R) : 0 <= a * a + b * b + c * c.
Proof. nra. Qed.

Lemma normalize_unit (v : Vector3) : length v = 1 -> normalize v = v.
Proof.
  intros Hl. unfold normalize, divideScalar, multiplyScalar.
  destruct (Req_dec_T (length v) 0) as [H0 | _]; [lra | ].
  rewrite Hl. destruct v as [a b c]. simpl. f_equal; field.
Qed.

Lemma normalize_components (v : Vector3) :
  length v <> 0 ->
  normalize v =
  mkVector3 (vx v / length v) (vy v / length v) (vz v / length v).
Proof.
  intros Hl. unfold normalize, divideScalar, multiplyScalar.
  destruct (Req_dec_T (length v) 0) as [H0 | _]; [contradiction | ].
  f_equal; field; exact Hl.
Qed.

Lemma length_normalize (v : Vector3) :
  length v <> 0 -> length (normalize v) = 1.
Proof.
  intros Hl. rewrite normalize_components by exact Hl.
  unfold length at 1. simpl.
  assert (Hs : length v * length v = vx v * vx v + vy v * vy v + vz v * vz v)
    by (apply sqrt_sqrt, sqr_sum_nonneg).
  replace (vx v / length v * (vx v / length v) +
           vy v / length v * (vy v / length v) +
           vz v / length v * (vz v / length v))
    with ((vx v * vx v + vy v * vy v + vz v * vz v) / (length v * length v))
    by (field; exact Hl).
  rewrite <- Hs. replace (length v * length v / (length v * length v)) with 1
    by (field; exact Hl).
  apply sqrt_1.
Qed.

(** Scaling by a positive factor does not change the normalized vector. *)
Lemma normalize_scaled (v : Vector3) (k : R) :
  0 < k -> length v <> 0 -> normalize (multiplyScalar v k) = normalize v.
Proof.
  intros Hk Hl.
  assert (Hlk : length (multiplyScalar v k) = length v * k).
  { unfold length, multiplyScalar. simpl.
    apply sqrt_lem_1.
    - apply sqr_sum_nonneg.
    - apply Rmult_le_pos; [apply sqrt_pos | lra].
    - assert (Hs : sqrt (vx v * vx v + vy v * vy v + vz v * vz v) *
                   sqrt (vx v * vx v + vy v * vy v + vz v * vz v) =
                   vx v * vx v + vy v * vy v + vz v * vz v)
        by (apply sqrt_sqrt, sqr_sum_nonneg).
      replace (sqrt (vx v * vx v + vy v * vy v + vz v * vz v) * k *
               (sqrt (vx v * vx v + vy v * vy v + vz v * vz v) * k))
        with (sqrt (vx v * vx v + vy v * vy v + vz v * vz v) *
              sqrt (vx v * vx v + vy v * vy v + vz v * vz v) * (k * k)) by ring.
      rewrite Hs. ring. }
  assert (Hne : length (multiplyScalar v k) <> 0) by (rewrite Hlk; nra).
  rewrite (normalize_components _ Hne), (normalize_components _ Hl), Hlk.
  unfold multiplyScalar. simpl. f_equal; field; split; lra.
Qed.

End UnitVectors.

(** ** Spherical angles of a unit vector *)

Section Spherical.

Import THREE.

Lemma length_directionVector (d : WorldDirection) :
  length (directionVector d) = 1.
Proof.
  unfold length, directionVector. simpl.
  pose proof (sin2_cos2 (phi d)) as Hp.
  pose proof (sin2_cos2 (theta d)) as Ht.
  unfold Rsqr in Hp, Ht.
  replace (cos (phi d) * sin (theta d) * (cos (phi d) * sin (theta d)) +
           sin (phi d) * sin (phi d) +
           cos (phi d) * cos (theta d) * (cos (phi d) * cos (theta d)))
    with (cos (phi d) * cos (phi d) *
          (sin (theta d) * sin (theta d) + cos (theta d) * cos (theta d)) +
          sin (phi d) * sin (phi d)) by ring.
  rewrite Ht. replace (cos (phi d) * cos (phi d) * 1 + sin (phi d) * sin (phi d))
    with 1 by lra.
  apply sqrt_1.
Qed.

(** [direction.normalize()] leaves the rebuilt direction unchanged. *)
Lemma normalize_directionVector (d : WorldDirection) :
  normalize (directionVector d) = directionVector d.
Proof. apply normalize_unit, length_directionVector. Qed.

(** Rebuilding a unit vector from its spherical angles gives it back. *)
Lemma directionVector_of_angles (u : Vector3) :
  length u = 1 -> (vx u <> 0 \/ vz u <> 0) ->
  directionVector (mkWorldDirection (asin (vy u)) (JsMath.atan2 (vx u) (vz u))) = u.
Proof.
  intros Hl Hxz. destruct u as [a b c]. simpl in *.
  unfold length in Hl. simpl in Hl.
  assert (Hsq : a * a + b * b + c * c = 1).
  { apply sqrt_lem_0 in Hl; [lra | apply sqr_sum_nonneg | lra]. }
  assert (Hb : -1 <= b <= 1) by (split; nra).
  unfold directionVector. simpl.
  rewrite sin_asin, cos_asin, sin_atan2, cos_atan2 by assumption.
  assert (Hr : 0 < sqrt (a * a + c * c)) by (apply sqrt_lt_R0; nra).
  replace (1 - b²) with (a * a + c * c) by (unfold Rsqr; lra).
  f_equal; field; lra.
Qed.

End Spherical.

(** ** The perspective camera at its initial pose *)

Section IdentityPoseCamera.

Import THREE.

Lemma Matrix4_ext (a0 a1 a2 a3 a4 a5 a6 a7 a8 a9 a10 a11 a12 a13 a14 a15
                   b0 b1 b2 b3 b4 b5 b6 b7 b8 b9 b10 b11 b12 b13 b14 b15 : R) :
  a0 = b0 -> a1 = b1 -> a2 = b2 -> a3 = b3 ->
  a4 = b4 -> a5 = b5 -> a6 = b6 -> a7 = b7 ->
  a8 = b8 -> a9 = b9 -> a10 = b10 -> a11 = b11 ->
  a12 = b12 -> a13 = b13 -> a14 = b14 -> a15 = b15 ->
  mkMatrix4 a0 a1 a2 a3 a4 a5 a6 a7 a8 a9 a10 a11 a12 a13 a14 a15 =
  mkMatrix4 b0 b1 b2 b3 b4 b5 b6 b7 b8 b9 b10 b11 b12 b13 b14 b15.
Proof. intros; subst; reflexivity. Qed.

Lemma applyMatrix4_identity (v : Vector3) : applyMatrix4 v identity = v.
Proof.
  destruct v as [a b c]. unfold applyMatrix4, identity. simpl.
  f_equal; field.
Qed.

Lemma half_fov_tan_pos (fov : R) :
  0 < fov < 180 -> 0 < tan (DEG2RAD * (1 / 2) * fov).
Proof.
  intros Hf. pose proof PI_RGT_0 as Hpi. unfold DEG2RAD.
  apply tan_gt_0; nra.
Qed.

Lemma updateProjectionMatrix_symmetric (fov aspect near far : R) :
  0 < fov < 180 -> 0 < aspect -> 0 < near ->
  updateProjectionMatrix fov aspect near far =
  symmetricPerspective
    (1 / (aspect * tan (DEG2RAD * (1 / 2) * fov)))
    (1 / tan (DEG2RAD * (1 / 2) * fov))
    (- (far + near) / (far - near))
    ((- 2 * far * near) / (far - near)).
Proof.
  intros Hf Ha Hn. pose proof (half_fov_tan_pos fov Hf) as Ht.
  unfold updateProjectionMatrix, makePerspective, symmetricPerspective.
  assert (Hnt : 0 < near * tan (DEG2RAD * (1 / 2) * fov))
    by (apply Rmult_lt_0_compat; assumption).
  assert (Hant : 0 < aspect * (near * tan (DEG2RAD * (1 / 2) * fov)))
    by (apply Rmult_lt_0_compat; assumption).
  apply Matrix4_ext; try reflexivity; field; repeat split; lra.
Qed.

(** The closed form [invertPerspective] is a two-sided inverse. *)
Lemma invertPerspective_right (px py c d : R) :
  px <> 0 -> py <> 0 -> d <> 0 ->
  multiplyMatrices (symmetricPerspective px py c d)
                   (invertPerspective (symmetricPerspective px py c d)) = identity.
Proof.
  intros Hx Hy Hd.
  unfold multiplyMatrices, invertPerspective, symmetricPerspective, identity.
  simpl. apply Matrix4_ext; field; repeat split; assumption.
Qed.

Lemma invertPerspective_left (px py c d : R) :
  px <> 0 -> py <> 0 -> d <> 0 ->
  multiplyMatrices (invertPerspective (symmetricPerspective px py c d))
                   (symmetricPerspective px py c d) = identity.
Proof.
  intros Hx Hy Hd.
  unfold multiplyMatrices, invertPerspective, symmetricPerspective, identity.
  simpl. apply Matrix4_ext; field; repeat split; assumption.
Qed.

Variables (fov0 px py c d : R).
Hypothesis Hpx : px <> 0.
Hypothesis Hpy : py <> 0.
Hypothesis Hd : d <> 0.
Hypothesis Hw : 0 < 1 / (1 / d * (1 / 2) + c / d).

Let P := symmetricPerspective px py c d.
Let cam := mkCamera fov0 identity identity P (invertPerspective P).

Lemma length_eyePoint (nx ny : R) : 1 <= length (eyePoint px py nx ny).
Proof.
  unfold length, eyePoint. simpl.
  rewrite <- sqrt_1 at 1. apply sqrt_le_1; nra.
Qed.

Lemma ray_direction_identity_pose (nx ny : R) :
  direction (setFromCamera (mkVector2 nx ny) cam) = normalize (eyePoint px py nx ny).
Proof.
  pose proof (length_eyePoint nx ny) as Hl.
  unfold setFromCamera, unproject, cam, P. simpl.
  rewrite applyMatrix4_identity.
  rewrite <- (normalize_scaled (eyePoint px py nx ny)
                               (1 / (1 / d * (1 / 2) + c / d))) by (exact Hw || lra).
  f_equal.
  unfold applyMatrix4, sub, setFromMatrixPosition, multiplyScalar, eyePoint,
    invertPerspective, symmetricPerspective, identity.
  simpl.
  replace (0 * nx + 0 * ny + 1 / d * (1 / 2) + c / d)
    with (1 / d * (1 / 2) + c / d) by ring.
  set (k := 1 / (1 / d * (1 / 2) + c / d)).
  f_equal; field; assumption.
Qed.

Lemma clip_of_ray_identity_pose (nx ny : R) :
  let ray := normalize (direction (setFromCamera (mkVector2 nx ny) cam)) in
  clipVector (mkWorldDirection (asin (vy ray)) (JsMath.atan2 (vx ray) (vz ray))) cam =
  mkVector3 nx ny (- c + d * length (eyePoint px py nx ny)).
Proof.
  intros ray. subst ray.
  pose proof (length_eyePoint nx ny) as Hl.
  assert (Hne : length (eyePoint px py nx ny) <> 0) by lra.
  rewrite ray_direction_identity_pose.
  rewrite (normalize_unit (normalize _)) by (apply length_normalize; exact Hne).
  assert (Hz : vz (normalize (eyePoint px py nx ny)) <> 0).
  { rewrite normalize_components by exact Hne. simpl.
    unfold Rdiv. apply Rmult_integral_contrapositive_currified; [lra | ].
    apply Rinv_neq_0_compat. exact Hne. }
  unfold clipVector.
  rewrite normalize_directionVector.
  rewrite directionVector_of_angles
    by (try (apply length_normalize; exact Hne); right; exact Hz).
  unfold project. simpl. rewrite applyMatrix4_identity.
  rewrite normalize_components by exact Hne.
  unfold applyMatrix4. simpl.
  set (L := length (eyePoint px py nx ny)) in *.
  f_equal; field; repeat split; assumption || lra.
Qed.

End IdentityPoseCamera.

(** ** Culling *)

Section Culling.

Import THREE.

Lemma worldDirectionToScreen_none (d : WorldDirection) (W H : R)
    (camera : PerspectiveCamera) :
  worldDirectionToScreen d W H camera = None <->
  (vz (clipVector d camera) > 1 \/
   Rabs (vx (clipVector d camera)) > 3 \/
   Rabs (vy (clipVector d camera)) > 3).
Proof.
  unfold worldDirectionToScreen, JsMath.abs.
  generalize (clipVector d camera). intros cv.
  destruct (JsMath.gtb (vz cv) 1) eqn:Ez.
  - apply gtb_true in Ez. split; [intros _; left; exact Ez | reflexivity].
  - apply gtb_false in Ez.
    destruct (JsMath.gtb (Rabs (vx cv)) 3) eqn:Ex;
      destruct (JsMath.gtb (Rabs (vy cv)) 3) eqn:Ey; cbn [orb];
      try apply gtb_true in Ex; try apply gtb_true in Ey;
      try apply gtb_false in Ex; try apply gtb_false in Ey.
    + split; [intros _; right; left; exact Ex | reflexivity].
    + split; [intros _; right; left; exact Ex | reflexivity].
    + split; [intros _; right; right; exact Ey | reflexivity].
    + split; [discriminate | intros [Hc | [Hc | Hc]]; lra].
Qed.

Lemma worldDirectionToScreen_some (d : WorldDirection) (W H : R)
    (camera : PerspectiveCamera) :
  ~ (vz (clipVector d camera) > 1 \/
     Rabs (vx (clipVector d camera)) > 3 \/
     Rabs (vy (clipVector d camera)) > 3) ->
  worldDirectionToScreen d W H camera =
  Some (mkScreenPoint ((vx (clipVector d camera) + 1) * W / 2)
                      ((- vy (clipVector d camera) + 1) * H / 2)).
Proof.
  intros Hn.
  destruct (worldDirectionToScreen d W H camera) eqn:E.
  - unfold worldDirectionToScreen in E.
    destruct (JsMath.gtb (vz (clipVector d camera)) 1); [discriminate | ].
    destruct (JsMath.gtb (JsMath.abs (vx (clipVector d camera))) 3
              || JsMath.gtb (JsMath.abs (vy (clipVector d camera))) 3);
      [discriminate | ].
    symmetry. exact E.
  - apply worldDirectionToScreen_none in E. contradiction.
Qed.

End Culling.

(** ** Round trip through the camera at its initial pose *)

Section RoundTrip.

Import THREE.

Lemma in_viewport_ndc (s size : R) :
  0 < s < size -> -1 < s / size * 2 - 1 < 1.
Proof.
  intros [Hs Hlt].
  assert (Hsz : 0 < size) by lra.
  assert (H0 : 0 < s / size) by (apply Rdiv_lt_0_compat; lra).
  assert (H1 : s / size < 1).
  { apply (Rmult_lt_reg_r size); [exact Hsz | ].
    unfold Rdiv. rewrite Rmult_assoc, Rinv_l by lra. lra. }
  lra.
Qed.

Lemma depth_coefficients (near far : R) :
  0 < near < far ->
  (- 2 * far * near) / (far - near) <> 0 /\
  0 < 1 / (1 / ((- 2 * far * near) / (far - near)) * (1 / 2) +
           (- (far + near) / (far - near)) / ((- 2 * far * near) / (far - near))).
Proof.
  intros [Hn Hf].
  assert (Hfn : 0 < far * near) by nra.
  split.
  - unfold Rdiv. apply Rmult_integral_contrapositive_currified; [lra | ].
    apply Rinv_neq_0_compat. lra.
  - replace (1 / (1 / (-2 * far * near / (far - near)) * (1 / 2) +
                  - (far + near) / (far - near) / (-2 * far * near / (far - near))))
      with (4 * (far * near) / (far + 3 * near)) by (field; repeat split; lra).
    apply Rdiv_lt_0_compat; lra.
Qed.

(** Depth of a point at distance at least one stays inside the frustum
    once the far plane is at distance at least one. *)
Lemma clip_depth_le_1 (near far L : R) :
  0 < near < far -> 1 <= far -> 1 <= L ->
  - (- (far + near) / (far - near)) + (- 2 * far * near) / (far - near) * L <= 1.
Proof.
  intros [Hn Hf] Hfar HL.
  replace (- (- (far + near) / (far - near)) + -2 * far * near / (far - near) * L)
    with ((far + near - 2 * far * near * L) / (far - near)) by (field; lra).
  apply (Rmult_le_reg_r (far - near)); [lra | ].
  unfold Rdiv. rewrite Rmult_assoc, Rinv_l by lra.
  assert (1 <= far * L) by nra.
  nra.
Qed.

(** The exact form of the round trip: over the reals the pointer position
    is recovered without error. *)
Lemma round_trip_exact (x y W H fov aspect near far : R) (rot : CameraRotation) :
  0 < x < W -> 0 < y < H ->
  0 < fov < 180 -> 0 < aspect -> 0 < near < far -> 1 <= far ->
  exists d,
    screenToWorldDirection x y W H (newPerspectiveCamera fov aspect near far) rot
      = Some d /\
    worldDirectionToScreen d W H (newPerspectiveCamera fov aspect near far)
      = Some (mkScreenPoint x y).
Proof.
  intros Hx Hy Hfov Ha Hnf Hfar.
  pose proof (half_fov_tan_pos fov Hfov) as Ht.
  destruct (depth_coefficients near far Hnf) as [Hd Hw].
  set (cam := newPerspectiveCamera fov aspect near far).
  set (nx := x / W * 2 - 1).
  set (ny := - (y / H) * 2 + 1).
  set (ray := normalize (direction (setFromCamera (mkVector2 nx ny) cam))).
  exists (mkWorldDirection (asin (vy ray)) (JsMath.atan2 (vx ray) (vz ray))).
  split; [reflexivity | ].
  set (px := 1 / (aspect * tan (DEG2RAD * (1 / 2) * fov))).
  set (py := 1 / tan (DEG2RAD * (1 / 2) * fov)).
  assert (Hpx : px <> 0).
  { unfold px, Rdiv. rewrite Rmult_1_l. apply Rinv_neq_0_compat.
    apply Rmult_integral_contrapositive_currified; lra. }
  assert (Hpy : py <> 0).
  { unfold py, Rdiv. rewrite Rmult_1_l. apply Rinv_neq_0_compat. lra. }
  assert (Hclip :
            clipVector (mkWorldDirection (asin (vy ray))
                                         (JsMath.atan2 (vx ray) (vz ray))) cam =
            mkVector3 nx ny
                      (- (- (far + near) / (far - near)) +
                       (- 2 * far * near) / (far - near) *
                       length (eyePoint px py nx ny))).
  { unfold ray, cam, newPerspectiveCamera.
    rewrite updateProjectionMatrix_symmetric by lra.
    apply (clip_of_ray_identity_pose fov px py _ _ Hpx Hpy Hw). }
  pose proof (in_viewport_ndc x W Hx) as Hnx.
  assert (Hny : -1 < ny < 1).
  { pose proof (in_viewport_ndc y H Hy). unfold ny. lra. }
  pose proof (length_eyePoint px py nx ny) as HL.
  pose proof (clip_depth_le_1 near far _ Hnf Hfar HL) as Hz.
  rewrite worldDirectionToScreen_some; rewrite Hclip; simpl.
  - f_equal. unfold nx, ny. f_equal; field; lra.
  - fold nx in Hnx.
    intros [Hc | [Hc | Hc]]; [lra | | ];
      unfold Rabs in Hc; destruct (Rcase_abs _); lra.
Qed.

End RoundTrip.

(** ** Claims about the spherical direction model *)

Section DirectionModel.

Import THREE.

(** C10 -- totality of [screenToWorldDirection]: for every pointer
    position, viewport size, camera and pose argument the function returns
    a direction and never [null], although its declared result type
    admits [null]. *)
Theorem C10_screenToWorldDirection_total
    (screenX screenY screenWidth screenHeight : R)
    (camera : PerspectiveCamera) (rot : CameraRotation) :
  (exists d, screenToWorldDirection screenX screenY screenWidth screenHeight
                                    camera rot = Some d) /\
  screenToWorldDirection screenX screenY screenWidth screenHeight camera rot
  <> None.
Proof.
  split.
  - eexists. unfold screenToWorldDirection. reflexivity.
  - unfold screenToWorldDirection. discriminate.
Qed.

(** C1 -- round trip for a visible point: for a pointer position strictly
    inside a [W] by [H] viewport and a perspective camera at its initial
    pose (field of view between 0 and 180 degrees, positive aspect,
    [0 < near < far], far plane no nearer than the unit sphere),
    [worldDirectionToScreen (screenToWorldDirection x y W H cam) W H cam]
    is a screen point, not [null], within one pixel of [(x, y)]. *)
Theorem C1_round_trip_visible_point
    (x y W H fov aspect near far : R) (rot : CameraRotation) :
  0 < x < W -> 0 < y < H ->
  0 < fov < 180 -> 0 < aspect -> 0 < near < far -> 1 <= far ->
  exists d p,
    screenToWorldDirection x y W H (newPerspectiveCamera fov aspect near far) rot
      = Some d /\
    worldDirectionToScreen d W H (newPerspectiveCamera fov aspect near far)
      = Some p /\
    Rabs (pt_x p - x) <= 1 /\ Rabs (pt_y p - y) <= 1.
Proof.
  intros Hx Hy Hfov Ha Hnf Hfar.
  destruct (round_trip_exact x y W H fov aspect near far rot Hx Hy Hfov Ha Hnf Hfar)
    as [d [Hd Hp]].
  exists d, (mkScreenPoint x y). repeat split; try assumption; simpl.
  - replace (x - x) with 0 by ring. rewrite Rabs_R0. lra.
  - replace (y - y) with 0 by ring. rewrite Rabs_R0. lra.
Qed.

Lemma C1_round_trip_witness :
  exists d p,
    screenToWorldDirection 700 300 1920 1080 (playerCamera 1920 1080)
                           (mkWorldDirection 0 0) = Some d /\
    worldDirectionToScreen d 1920 1080 (playerCamera 1920 1080) = Some p /\
    Rabs (pt_x p - 700) <= 1 /\ Rabs (pt_y p - 300) <= 1.
Proof.
  unfold playerCamera.
  apply (C1_round_trip_visible_point 700 300 1920 1080 75 (1920 / 1080)
                                     (1 / 10) 1000 (mkWorldDirection 0 0));
    lra.
Defined.

Lemma directionVector_opposite (f : WorldDirection) :
  directionVector (opposite f) =
  mkVector3 (- vx (directionVector f)) (- vy (directionVector f))
            (- vz (directionVector f)).
Proof.
  unfold directionVector, opposite. simpl.
  rewrite cos_neg, sin_neg, neg_sin, neg_cos. f_equal; ring.
Qed.

(** A linear view matrix takes the opposite vector to the opposite image. *)
Lemma applyMatrix4_linear_opp (m : Matrix4) (v : Vector3) :
  viewIsLinear m ->
  applyMatrix4 (mkVector3 (- vx v) (- vy v) (- vz v)) m =
  mkVector3 (- vx (applyMatrix4 v m)) (- vy (applyMatrix4 v m))
            (- vz (applyMatrix4 v m)).
Proof.
  intros (H3 & H7 & H11 & H15 & H12 & H13 & H14).
  unfold applyMatrix4. simpl.
  rewrite H3, H7, H11, H15, H12, H13, H14.
  f_equal; field.
Qed.

(** The direction opposite to the camera's forward vector has clip-space
    depth above one. *)
Lemma clip_depth_behind (camera : PerspectiveCamera) (forward : WorldDirection)
    (near far : R) :
  looksAlong camera forward -> hasFrustum camera near far -> 0 < near < far ->
  vz (clipVector (opposite forward) camera) > 1.
Proof.
  intros [Hlin Hfwd] [px [py Hp]] [Hn Hf].
  unfold clipVector. rewrite normalize_directionVector, directionVector_opposite.
  unfold project. rewrite (applyMatrix4_linear_opp _ _ Hlin), Hfwd, Hp.
  unfold applyMatrix4, symmetricPerspective. simpl.
  replace ((0 * - 0 + 0 * - 0 + - (far + near) / (far - near) * - -1 +
            -2 * far * near / (far - near)) *
           (1 / (0 * - 0 + 0 * - 0 + -1 * - -1 + 0)))
    with (1 + (2 * near + 2 * far * near) / (far - near)) by (field; lra).
  assert (0 < (2 * near + 2 * far * near) / (far - near)).
  { apply Rdiv_lt_0_compat; nra. }
  lra.
Qed.

(** C4 -- culling condition of [worldDirectionToScreen]: the result is
    [null] exactly when the projected direction has clip-space [z > 1],
    [|x| > 3] or [|y| > 3]; otherwise it is the pixel
    [((clipX + 1) * W / 2, (- clipY + 1) * H / 2)]; and the direction
    opposite to the forward vector of a perspective camera placed at the
    origin ([theta = forwardTheta + PI], [phi = - forwardPhi]) projects to
    [null]. *)
Theorem C4_culling_condition :
  (forall (d : WorldDirection) (W H : R) (camera : PerspectiveCamera),
      worldDirectionToScreen d W H camera = None <->
      (vz (clipVector d camera) > 1 \/
       Rabs (vx (clipVector d camera)) > 3 \/
       Rabs (vy (clipVector d camera)) > 3)) /\
  (forall (d : WorldDirection) (W H : R) (camera : PerspectiveCamera),
      ~ (vz (clipVector d camera) > 1 \/
         Rabs (vx (clipVector d camera)) > 3 \/
         Rabs (vy (clipVector d camera)) > 3) ->
      worldDirectionToScreen d W H camera =
      Some (mkScreenPoint ((vx (clipVector d camera) + 1) * W / 2)
                          ((- vy (clipVector d camera) + 1) * H / 2))) /\
  (forall (camera : PerspectiveCamera) (forward : WorldDirection)
          (near far W H : R),
      looksAlong camera forward -> hasFrustum camera near far ->
      0 < near < far ->
      worldDirectionToScreen
        (mkWorldDirection (- phi forward) (theta forward + PI)) W H camera
      = None).
Proof.
  split; [ | split].
  - exact worldDirectionToScreen_none.
  - exact worldDirectionToScreen_some.
  - intros camera forward near far W H Hl Hfr Hnf.
    apply worldDirectionToScreen_none. left.
    exact (clip_depth_behind camera forward near far Hl Hfr Hnf).
Qed.

(** Every camera built by [newPerspectiveCamera] has a symmetric frustum. *)
Lemma newPerspectiveCamera_hasFrustum (fov aspect near far : R) :
  hasFrustum (newPerspectiveCamera fov aspect near far) near far.
Proof.
  unfold hasFrustum, newPerspectiveCamera, updateProjectionMatrix,
    makePerspective, symmetricPerspective. simpl.
  assert (Hz : forall n d : R, n = 0 -> n / d = 0)
    by (intros n d E; rewrite E; unfold Rdiv; ring).
  eexists. eexists. apply Matrix4_ext; try reflexivity; apply Hz; field.
Qed.

(** The player's camera at its initial pose looks along [(0, 0, -1)],
    which is [phi = 0], [theta = PI]. *)
Lemma playerCamera_looksAlong (W H : R) :
  looksAlong (playerCamera W H) (mkWorldDirection 0 PI).
Proof.
  split.
  - unfold viewIsLinear, playerCamera, newPerspectiveCamera, identity. simpl.
    repeat split; reflexivity.
  - unfold playerCamera, newPerspectiveCamera. simpl.
    rewrite applyMatrix4_identity. unfold directionVector. simpl.
    rewrite cos_0, sin_0, sin_PI, cos_PI. f_equal; ring.
Qed.

Lemma C4_culling_witness :
  looksAlong (playerCamera 1920 1080) (mkWorldDirection 0 PI) /\
  hasFrustum (playerCamera 1920 1080) (1 / 10) 1000 /\
  0 < 1 / 10 < 1000 /\
  worldDirectionToScreen (mkWorldDirection (- 0) (PI + PI)) 1920 1080
                         (playerCamera 1920 1080) = None.
Proof.
  assert (Hl := playerCamera_looksAlong 1920 1080).
  assert (Hf : hasFrustum (playerCamera 1920 1080) (1 / 10) 1000)
    by apply newPerspectiveCamera_hasFrustum.
  assert (Hnf : 0 < 1 / 10 < 1000) by lra.
  split; [exact Hl | split; [exact Hf | split; [exact Hnf | ]]].
  exact (proj2 (proj2 C4_culling_condition) (playerCamera 1920 1080)
               (mkWorldDirection 0 PI) (1 / 10) 1000 1920 1080 Hl Hf Hnf).
Defined.

End DirectionModel.

(** ** Claims about the legacy conversion and the box size *)

Section LegacyAndBox.

Import THREE.

Lemma atan2_one (y : R) : JsMath.atan2 y 1 = atan y.
Proof.
  unfold JsMath.atan2. destruct (Rlt_dec 0 1); [ | lra].
  f_equal. field.
Qed.

(** The tangent of one half exceeds one half. *)
Lemma tan_half_gt_half : 1 / 2 < tan (1 / 2).
Proof.
  pose proof PI2_1 as Hpi.
  assert (Hc : 0 < cos (1 / 2)) by (apply cos_gt_0; lra).
  destruct (pre_sin_bound (1 / 2) 0) as [Hs _]; [lra | lra | ].
  destruct (pre_cos_bound (1 / 2) 0) as [_ Hcu]; [lra | lra | ].
  assert (Es : sin_approx (1 / 2) (2 * 0 + 1) = 23 / 48).
  { unfold sin_approx, sin_term. simpl. field. }
  assert (Ec : cos_approx (1 / 2) (2 * (0 + 1)) = 337 / 384).
  { unfold cos_approx, cos_term. simpl. field. }
  rewrite Es in Hs. rewrite Ec in Hcu.
  unfold tan. apply (Rmult_lt_reg_r (cos (1 / 2))); [exact Hc | ].
  replace (sin (1 / 2) / cos (1 / 2) * cos (1 / 2)) with (sin (1 / 2))
    by (field; lra).
  lra.
Qed.

Lemma atan_half_neq : atan (1 / 2) <> 1 / 2.
Proof.
  intros E. pose proof tan_half_gt_half as Ht.
  rewrite <- E in Ht at 2. rewrite tan_atan in Ht. lra.
Qed.

(** What the conversion computes: the offsets are
    [atan ndc * (fov / 2)]. *)
Lemma legacyBoxToWorldDirection_some (b : Box) (pose : CameraRotation) :
  legacyBoxToWorldDirection b (Some pose) =
  mkWorldDirection
    (Rmax (- PI / 2)
          (Rmin (PI / 2)
                (phi pose +
                 atan (- (box_y b + box_height b / 2 - 5 / 10) * 2) *
                 (75 * (PI / 180) / 2))))
    (theta pose +
     atan ((box_x b + box_width b / 2 - 5 / 10) * 2) * (75 * (PI / 180) / 2)).
Proof.
  unfold legacyBoxToWorldDirection, JsMath.max, JsMath.min.
  rewrite !atan2_one. reflexivity.
Qed.

(** C3 -- contract of [legacyBoxToWorldDirection], amended: with
    [ndcX = (x + width/2 - 0.5) * 2], [ndcY = - (y + height/2 - 0.5) * 2]
    and [fov] = 75 degrees in radians, a recorded pose gives
    [theta = pose.theta + atan2(ndcX, 1) * (fov / 2)] and
    [phi = pose.phi + atan2(ndcY, 1) * (fov / 2)] clamped to
    [[-PI/2, PI/2]]; no recorded pose gives [{phi: 0, theta: 0}], in
    particular for the box [{x: 0.45, y: 0.45, width: 0.1, height: 0.1}]. *)
Theorem C3_legacyBoxToWorldDirection_contract :
  (forall (b : Box) (pose : CameraRotation),
      let ndcX := (box_x b + box_width b / 2 - 5 / 10) * 2 in
      let ndcY := - (box_y b + box_height b / 2 - 5 / 10) * 2 in
      let fov := 75 * (PI / 180) in
      legacyBoxToWorldDirection b (Some pose) =
      mkWorldDirection
        (Rmax (- PI / 2) (Rmin (PI / 2) (phi pose + atan ndcY * (fov / 2))))
        (theta pose + atan ndcX * (fov / 2))) /\
  (forall b : Box, legacyBoxToWorldDirection b None = mkWorldDirection 0 0) /\
  legacyBoxToWorldDirection (mkBox (45 / 100) (45 / 100) (1 / 10) (1 / 10)) None
  = mkWorldDirection 0 0.
Proof.
  split; [ | split].
  - intros b pose. apply legacyBoxToWorldDirection_some.
  - intros b. reflexivity.
  - reflexivity.
Qed.

(** C3, as stated, fails: for the box [{x: 0.5, y: 0.25, width: 0.5,
    height: 0.5}] recorded under the pose [{phi: 0, theta: 0}] the code
    yields [theta = atan(0.5) * (fov / 2)], not [0.5 * (fov / 2)]. *)
Lemma C3_small_angle_counterexample :
  legacyBoxToWorldDirection (mkBox (1 / 2) (1 / 4) (1 / 2) (1 / 2))
                            (Some (mkWorldDirection 0 0))
  <> legacyBoxToWorldDirection_smallAngle
       (mkBox (1 / 2) (1 / 4) (1 / 2) (1 / 2)) (Some (mkWorldDirection 0 0)).
Proof.
  rewrite legacyBoxToWorldDirection_some.
  unfold legacyBoxToWorldDirection_smallAngle. simpl.
  intros E. apply (f_equal theta) in E. simpl in E.
  replace ((1 / 2 + 1 / 2 / 2 - 5 / 10) * 2) with (1 / 2) in E by field.
  pose proof PI_RGT_0 as Hpi.
  assert (Ea : atan (1 / 2) = 1 / 2).
  { apply (Rmult_eq_reg_r (75 * (PI / 180) / 2)); lra. }
  exact (atan_half_neq Ea).
Qed.

End LegacyAndBox.

(** ** Ranges of the produced angles *)

Section AngleRanges.

Import THREE.

(** [phi] of a pointer direction is an arcsine. *)
Lemma screenToWorldDirection_phi_bound
    (x y W H : R) (camera : PerspectiveCamera) (rot : CameraRotation)
    (d : WorldDirection) :
  screenToWorldDirection x y W H camera rot = Some d ->
  - (PI / 2) <= phi d <= PI / 2.
Proof.
  unfold screenToWorldDirection. intros E. injection E as E. subst d. simpl.
  apply asin_bound.
Qed.

(** [theta] of a pointer direction is an [atan2], in (-PI, PI]. *)
Lemma screenToWorldDirection_theta_bound
    (x y W H : R) (camera : PerspectiveCamera) (rot : CameraRotation)
    (d : WorldDirection) :
  screenToWorldDirection x y W H camera rot = Some d ->
  - PI < theta d <= PI.
Proof.
  unfold screenToWorldDirection. intros E. injection E as E. subst d. simpl.
  apply atan2_bound.
Qed.

(** [phi] of a migrated direction is clamped. *)
Lemma legacyBoxToWorldDirection_phi_bound (b : Box) (pose : option CameraRotation) :
  - (PI / 2) <= phi (legacyBoxToWorldDirection b pose) <= PI / 2.
Proof.
  pose proof PI_RGT_0 as Hpi.
  destruct pose as [pose | ].
  - unfold legacyBoxToWorldDirection, JsMath.max, JsMath.min. simpl.
    split.
    + eapply Rle_trans; [ | apply Rmax_l]. lra.
    + apply Rmax_lub; [lra | apply Rmin_l].
  - simpl. lra.
Qed.

Lemma atan2_negative (y x : R) : y < 0 -> JsMath.atan2 y x < 0.
Proof.
  intros Hy. unfold JsMath.atan2.
  pose proof (atan_bound (y / x)) as Hb. pose proof PI_RGT_0 as Hpi.
  destruct (Rlt_dec 0 x) as [Hx | Hx].
  - rewrite <- atan_0. apply atan_increasing.
    unfold Rdiv. assert (0 < / x) by (apply Rinv_0_lt_compat; exact Hx). nra.
  - destruct (Rlt_dec x 0).
    + destruct (Rle_dec 0 y); lra.
    + destruct (Rlt_dec 0 y); [lra | ].
      destruct (Rlt_dec y 0); lra.
Qed.

(** A pointer left of the centre, seen by the camera at its initial
    pose, has a negative [theta]. *)
Lemma screenToWorldDirection_left_of_centre
    (x y W H fov aspect near far : R) (rot : CameraRotation) :
  0 < W -> 0 <= x -> x < W / 2 ->
  0 < fov < 180 -> 0 < aspect -> 0 < near < far ->
  exists d,
    screenToWorldDirection x y W H (newPerspectiveCamera fov aspect near far) rot
    = Some d /\ theta d < 0.
Proof.
  intros HW Hx0 Hx Hfov Ha Hnf.
  pose proof (half_fov_tan_pos fov Hfov) as Ht.
  destruct (depth_coefficients near far Hnf) as [Hd Hw].
  set (cam := newPerspectiveCamera fov aspect near far).
  set (nx := x / W * 2 - 1).
  set (ny := - (y / H) * 2 + 1).
  set (ray := normalize (direction (setFromCamera (mkVector2 nx ny) cam))).
  exists (mkWorldDirection (asin (vy ray)) (JsMath.atan2 (vx ray) (vz ray))).
  split; [reflexivity | ]. cbn [theta].
  apply atan2_negative.
  set (px := 1 / (aspect * tan (DEG2RAD * (1 / 2) * fov))).
  set (py := 1 / tan (DEG2RAD * (1 / 2) * fov)).
  assert (Hpx : 0 < px).
  { unfold px. apply Rdiv_lt_0_compat; [lra | ].
    apply Rmult_lt_0_compat; assumption. }
  assert (Hpy : py <> 0).
  { unfold py, Rdiv. rewrite Rmult_1_l. apply Rinv_neq_0_compat. lra. }
  pose proof (length_eyePoint px py nx ny) as HL.
  assert (Eray : ray = normalize (eyePoint px py nx ny)).
  { unfold ray, cam, newPerspectiveCamera.
    rewrite updateProjectionMatrix_symmetric by lra.
    rewrite (ray_direction_identity_pose fov px py _ _
               (Rgt_not_eq _ _ Hpx) Hpy Hw).
    apply normalize_unit, length_normalize. lra. }
  rewrite Eray, normalize_components by lra. cbn [vx eyePoint].
  assert (Hnx : nx < 0).
  { unfold nx. assert (x / W < 1 / 2); [ | lra].
    apply (Rmult_lt_reg_r W); [exact HW | ].
    unfold Rdiv at 1. rewrite Rmult_assoc, Rinv_l by lra. lra. }
  assert (Hq : nx / px < 0).
  { unfold Rdiv. assert (0 < / px) by (apply Rinv_0_lt_compat; exact Hpx).
    nra. }
  unfold Rdiv at 1.
  assert (0 < / length (eyePoint px py nx ny))
    by (apply Rinv_0_lt_compat; lra).
  nra.
Qed.

(** C5 -- well-formedness of produced directions, at two inputs where the
    code leaves the documented range [theta] in [[0, 2 PI)]: the pointer
    (480, 540) in a 1920 by 1080 viewport under the player's camera at
    its initial pose gives a negative [theta] (with [phi] in range), and
    the centred box migrated under the recorded pose
    [{phi: 0, theta: -1}] gives [theta = -1]. *)
Theorem C5_theta_leaves_documented_range :
  (exists d,
      screenToWorldDirection 480 540 1920 1080 (playerCamera 1920 1080)
                             (mkWorldDirection 0 0) = Some d /\
      theta d < 0 /\ - (PI / 2) <= phi d <= PI / 2) /\
  theta (legacyBoxToWorldDirection
           (mkBox (45 / 100) (45 / 100) (1 / 10) (1 / 10))
           (Some (mkWorldDirection 0 (-1)))) = -1.
Proof.
  split.
  - destruct (screenToWorldDirection_left_of_centre
                480 540 1920 1080 75 (1920 / 1080) (1 / 10) 1000
                (mkWorldDirection 0 0)) as [d [Hd Ht]]; try lra.
    exists d. split; [exact Hd | split; [exact Ht | ]].
    exact (screenToWorldDirection_phi_bound _ _ _ _ _ _ _ Hd).
  - rewrite legacyBoxToWorldDirection_some. simpl.
    replace ((45 / 100 + 1 / 10 / 2 - 5 / 10) * 2) with 0 by field.
    rewrite atan_0. ring.
Qed.

(** ** The annotation box *)

Lemma getAnnotationBox_none (d : WorldDirection) (W H : R)
    (camera : PerspectiveCamera) (s : R) :
  getAnnotationBox d W H camera s = None <->
  worldDirectionToScreen d W H camera = None.
Proof.
  unfold getAnnotationBox.
  destruct (worldDirectionToScreen d W H camera); split; intros E;
    try discriminate; reflexivity.
Qed.

(** The edge of the box, in pixels. *)
Lemma boxSize_monotone (H t s1 s2 : R) :
  0 <= H -> 0 < t -> s1 <= s2 ->
  Rmax 20 (s1 * (PI / 180) * (H / (2 * t))) <=
  Rmax 20 (s2 * (PI / 180) * (H / (2 * t))).
Proof.
  intros HH Ht Hs. pose proof PI_RGT_0 as Hpi.
  assert (Hq : 0 <= PI / 180 * (H / (2 * t))).
  { apply Rmult_le_pos; [lra | ].
    unfold Rdiv. apply Rmult_le_pos; [exact HH | ].
    left. apply Rinv_0_lt_compat. lra. }
  apply Rle_max_compat_l.
  rewrite !Rmult_assoc. apply Rmult_le_compat_r; assumption.
Qed.

(** C7 -- contract of [getAnnotationBox]: it is [null] exactly when
    [worldDirectionToScreen] is; otherwise the box is centred on the
    projected point and its width and height both equal
    [max(20, s * (PI/180) * H / (2 * tan(fovRadians / 2)))], so each edge
    is at least 20 pixels; and, for a viewport of non-negative height
    and a field of view between 0 and 180 degrees, a larger [s] never
    gives a smaller box. *)
Theorem C7_getAnnotationBox_contract
    (d : WorldDirection) (W H : R) (camera : PerspectiveCamera) :
  (forall s, getAnnotationBox d W H camera s = None <->
             worldDirectionToScreen d W H camera = None) /\
  (forall s center,
      worldDirectionToScreen d W H camera = Some center ->
      let size :=
        Rmax 20 (s * (PI / 180) * (H / (2 * tan (fov camera * (PI / 180) / 2)))) in
      getAnnotationBox d W H camera s =
      Some (mkBox (pt_x center - size / 2) (pt_y center - size / 2) size size) /\
      20 <= size) /\
  (forall s1 s2 b1 b2,
      0 <= H -> 0 < fov camera < 180 -> s1 <= s2 ->
      getAnnotationBox d W H camera s1 = Some b1 ->
      getAnnotationBox d W H camera s2 = Some b2 ->
      box_width b1 <= box_width b2 /\ box_height b1 <= box_height b2).
Proof.
  split; [ | split].
  - intros s. apply getAnnotationBox_none.
  - intros s center Hc size. split.
    + unfold getAnnotationBox. rewrite Hc. reflexivity.
    + apply Rmax_l.
  - intros s1 s2 b1 b2 HH Hfov Hs E1 E2.
    unfold getAnnotationBox in E1, E2.
    destruct (worldDirectionToScreen d W H camera) as [center | ];
      [ | discriminate].
    injection E1 as E1. injection E2 as E2. subst b1 b2. simpl.
    unfold JsMath.max.
    assert (Ht : 0 < tan (fov camera * (PI / 180) / 2)).
    { pose proof PI_RGT_0 as Hpi. apply tan_gt_0; nra. }
    split; apply boxSize_monotone; assumption.
Qed.

End AngleRanges.

(** ** The forward direction *)

Section ForwardDirection.

Import THREE.

(** The clip-space image of the direction the camera looks along. *)
Lemma clipVector_forward (camera : PerspectiveCamera) (forward : WorldDirection)
    (near far : R) :
  looksAlong camera forward -> hasFrustum camera near far ->
  clipVector forward camera =
  mkVector3 0 0 (- (- (far + near) / (far - near)) +
                 (- 2 * far * near) / (far - near)).
Proof.
  intros [Hlin Hfwd] [px [py Hp]].
  unfold clipVector, project.
  rewrite normalize_directionVector, Hfwd, Hp.
  generalize (- (far + near) / (far - near)) (-2 * far * near / (far - near)).
  intros c d.
  unfold applyMatrix4, symmetricPerspective. simpl.
  f_equal; field.
Qed.

(** The direction the camera looks along projects to the centre of the
    viewport, provided the far plane is not nearer than the unit sphere. *)
Lemma forward_projects_to_centre (camera : PerspectiveCamera)
    (forward : WorldDirection) (near far W H : R) :
  looksAlong camera forward -> hasFrustum camera near far ->
  0 < near < far -> 1 <= far ->
  worldDirectionToScreen forward W H camera =
  Some (mkScreenPoint (W / 2) (H / 2)).
Proof.
  intros Hl Hf Hnf Hfar.
  pose proof (clip_depth_le_1 near far 1 Hnf Hfar (Rle_refl 1)) as Hz.
  rewrite Rmult_1_r in Hz.
  rewrite worldDirectionToScreen_some;
    rewrite (clipVector_forward camera forward near far Hl Hf); simpl.
  - f_equal. f_equal; field.
  - rewrite Rabs_R0. intros [Hc | [Hc | Hc]]; lra.
Qed.

Lemma C7_getAnnotationBox_witness :
  exists b1 b2,
    getAnnotationBox (mkWorldDirection 0 PI) 1920 1080
                     (playerCamera 1920 1080) 5 = Some b1 /\
    getAnnotationBox (mkWorldDirection 0 PI) 1920 1080
                     (playerCamera 1920 1080) 10 = Some b2 /\
    box_width b1 <= box_width b2 /\ box_height b1 <= box_height b2.
Proof.
  assert (Hc : worldDirectionToScreen (mkWorldDirection 0 PI) 1920 1080
                                      (playerCamera 1920 1080) =
               Some (mkScreenPoint (1920 / 2) (1080 / 2))).
  { apply (forward_projects_to_centre _ _ (1 / 10) 1000).
    - apply playerCamera_looksAlong.
    - apply newPerspectiveCamera_hasFrustum.
    - lra.
    - lra. }
  destruct (C7_getAnnotationBox_contract (mkWorldDirection 0 PI) 1920 1080
                                         (playerCamera 1920 1080))
    as (_ & Hsome & Hmono).
  destruct (Hsome 5 _ Hc) as [E1 _].
  destruct (Hsome 10 _ Hc) as [E2 _].
  eexists. eexists. split; [exact E1 | split; [exact E2 | ]].
  apply (Hmono 5 10 _ _); try assumption; simpl; lra.
Defined.

End ForwardDirection.

(** ** Legacy migration *)

Section Migration.

Lemma migrateAnnotation_idempotent (a : Annotation) :
  migrateAnnotation (migrateAnnotation a) = migrateAnnotation a.
Proof.
  unfold migrateAnnotation.
  destruct (worldDirection a) eqn:Ew.
  - rewrite Ew. reflexivity.
  - destruct (box a) eqn:Eb.
    + reflexivity.
    + rewrite Ew, Eb. reflexivity.
Qed.

Lemma withWorldDirection_changes (a : Annotation) (d : WorldDirection) :
  worldDirection a = None -> withWorldDirection a d <> a.
Proof.
  intros Ew E. apply (f_equal worldDirection) in E. simpl in E.
  rewrite Ew in E. discriminate.
Qed.

Lemma migrateLegacyAnnotations_idempotent (xs : list Annotation) :
  migrateLegacyAnnotations (migrateLegacyAnnotations xs) =
  migrateLegacyAnnotations xs.
Proof.
  unfold migrateLegacyAnnotations. rewrite map_map.
  apply map_ext. intros a. apply migrateAnnotation_idempotent.
Qed.

(** C6 -- migration idempotence: for every collection,
    [migrateLegacyAnnotations] applied twice gives what it gives once.
    The result has the entries of the input position by position: an
    entry that has a [worldDirection] is returned unchanged; an entry
    differs from its input only when the input has a box and no
    [worldDirection], and then it is the input with the computed
    [legacyBoxToWorldDirection] attached (box kept); every such entry is
    so modified. *)
Theorem C6_migration_idempotent (xs : list Annotation) :
  migrateLegacyAnnotations (migrateLegacyAnnotations xs) =
  migrateLegacyAnnotations xs /\
  List.length (migrateLegacyAnnotations xs) = List.length xs /\
  forall (i : nat) (a : Annotation),
    nth_error xs i = Some a ->
    exists a',
      nth_error (migrateLegacyAnnotations xs) i = Some a' /\
      (worldDirection a <> None -> a' = a) /\
      (a' <> a ->
       worldDirection a = None /\
       exists b, box a = Some b /\
                 a' = withWorldDirection
                        a (legacyBoxToWorldDirection b (cameraRotation a))) /\
      (forall b,
          worldDirection a = None -> box a = Some b ->
          a' = withWorldDirection
                 a (legacyBoxToWorldDirection b (cameraRotation a)) /\
          worldDirection a' =
            Some (legacyBoxToWorldDirection b (cameraRotation a)) /\
          box a' = Some b).
Proof.
  split; [apply migrateLegacyAnnotations_idempotent | ].
  split; [apply length_map | ].
  intros i a Hi. exists (migrateAnnotation a).
  split.
  - unfold migrateLegacyAnnotations. rewrite nth_error_map, Hi. reflexivity.
  - unfold migrateAnnotation.
    destruct (worldDirection a) as [d | ] eqn:Ew.
    + split; [reflexivity | ]. split; [intros H; contradiction | ].
      intros b H. discriminate H.
    + destruct (box a) as [b | ] eqn:Eb.
      * split; [intros H; contradiction | ].
        split.
        -- intros _. split; [reflexivity | ]. exists b. split; reflexivity.
        -- intros b0 _ E. injection E as <-.
           split; [reflexivity | ]. split; [reflexivity | exact Eb].
      * split; [reflexivity | ]. split; [intros H; contradiction | ].
        intros b _ H. discriminate H.
Qed.

Lemma C6_migration_witness :
  exists a',
    nth_error
      (migrateLegacyAnnotations
         [annotationAt 3;
          legacyAnnotation (mkBox (45 / 100) (45 / 100) (1 / 10) (1 / 10)) None])
      1 = Some a' /\
    worldDirection a' =
      Some (legacyBoxToWorldDirection
              (mkBox (45 / 100) (45 / 100) (1 / 10) (1 / 10)) None) /\
    box a' = Some (mkBox (45 / 100) (45 / 100) (1 / 10) (1 / 10)).
Proof.
  destruct (proj2 (proj2 (C6_migration_idempotent
                            [annotationAt 3;
                             legacyAnnotation
                               (mkBox (45 / 100) (45 / 100) (1 / 10) (1 / 10))
                               None]))
                  1%nat _ eq_refl)
    as (a' & E & _ & _ & H).
  exists a'. split; [exact E | ].
  destruct (H _ eq_refl eq_refl) as (_ & Hw & Hb).
  split; [exact Hw | exact Hb].
Defined.

End Migration.

(** ** The active set *)

Section ActiveSet.

Lemma ltb_true (a b : R) : ltb a b = true <-> a < b.
Proof.
  unfold ltb. destruct (Rlt_dec a b); split; intros; try easy.
Qed.

(** C8 -- active-set membership: an annotation is in the active set
    exactly when it is in the collection and the absolute difference
    between its video time and the playback time is below 1.0 second;
    with annotations at 10.0 s and 12.5 s and playback at 10.4 s only
    the first is active. *)
Theorem C8_active_set_membership :
  (forall (annotations : list Annotation) (currentVideoTime : R) (a : Annotation),
      In a (activeAnnotations annotations currentVideoTime) <->
      In a annotations /\ Rabs (videoTime a - currentVideoTime) < 1) /\
  (forall a1 a2 : Annotation,
      videoTime a1 = 10 -> videoTime a2 = 125 / 10 ->
      activeAnnotations [a1; a2] (104 / 10) = [a1]).
Proof.
  split.
  - intros annotations t a. unfold activeAnnotations.
    rewrite filter_In, ltb_true. reflexivity.
  - intros a1 a2 E1 E2. unfold activeAnnotations, JsMath.abs. simpl.
    rewrite E1, E2.
    assert (H1 : ltb (Rabs (10 - 104 / 10)) 1 = true).
    { apply ltb_true. unfold Rabs. destruct (Rcase_abs _); lra. }
    assert (H2 : ltb (Rabs (125 / 10 - 104 / 10)) 1 = false).
    { destruct (ltb (Rabs (125 / 10 - 104 / 10)) 1) eqn:E; [ | reflexivity].
      apply ltb_true in E. unfold Rabs in E. destruct (Rcase_abs _); lra. }
    rewrite H1, H2. reflexivity.
Qed.

Lemma C8_active_set_witness :
  activeAnnotations [annotationAt 10; annotationAt (125 / 10)] (104 / 10) =
  [annotationAt 10].
Proof.
  apply (proj2 C8_active_set_membership (annotationAt 10) (annotationAt (125 / 10)));
    reflexivity.
Defined.

End ActiveSet.

(** ** Gesture release *)

Section GestureRelease.

Lemma pauseVideo_when_paused (env : Env) (s : Overlay) :
  videoPaused s = true -> pauseVideo env s = s.
Proof.
  intros Hp. unfold pauseVideo. rewrite Hp.
  destruct (onPauseVideo env), (videoElement env); reflexivity.
Qed.

(** [pauseVideo] touches nothing but the paused flag of the video. *)
Lemma pauseVideo_fields (env : Env) (s : Overlay) :
  pauseVideo env s = s \/ pauseVideo env s = set_videoPaused true s.
Proof.
  unfold pauseVideo.
  destruct (onPauseVideo env && videoElement env && negb (videoPaused s));
    [right | left]; reflexivity.
Qed.

(** What the handler reduces to when the camera or its pose is missing. *)
Lemma handleMouseUp_no_camera (env : Env) (e : MouseEvent) (s : Overlay) :
  annotationMode env = true -> isDrawing s = true ->
  disableInteractions env = false -> button e = 2%Z ->
  getCamera env = None \/ getCameraRotation env = None ->
  handleMouseUp env e s =
  match currentBox s with
  | None => set_isDrawing false s
  | Some _ =>
      if canvasMounted env
      then consoleError cameraUnavailableMessage
                        (pauseVideo env (set_isDrawing false s))
      else set_isDrawing false s
  end.
Proof.
  intros Hmode Hdraw Hdis Hbtn Hcam.
  unfold handleMouseUp. rewrite Hmode, Hdraw, Hdis, Hbtn.
  cbn [negb orb Z.eqb Pos.eqb].
  change (currentBox (set_isDrawing false s)) with (currentBox s).
  destruct (currentBox s) as [cb | ]; [ | reflexivity].
  destruct (canvasMounted env); cbn [negb]; [ | reflexivity].
  destruct Hcam as [Hc | Hc]; rewrite Hc;
    [reflexivity | destruct (getCamera env); reflexivity].
Qed.

(** C9 -- abort on missing camera: when the drawing gesture is released
    and the camera or its pose is unavailable, the overlay is back to not
    drawing, no pending box or direction is stored, the form is not
    shown, nothing is handed to the parent, and at most the one error
    message is logged (exactly that message once a rectangle was dragged
    on a mounted canvas); with the video already paused, as it is since
    the gesture began, nothing else in the state changes. *)
Theorem C9_abort_on_missing_camera (env : Env) (e : MouseEvent) (s : Overlay) :
  annotationMode env = true -> isDrawing s = true ->
  disableInteractions env = false -> button e = 2%Z ->
  getCamera env = None \/ getCameraRotation env = None ->
  isDrawing (handleMouseUp env e s) = false /\
  pendingBox (handleMouseUp env e s) = pendingBox s /\
  pendingWorldDirection (handleMouseUp env e s) = pendingWorldDirection s /\
  showForm (handleMouseUp env e s) = showForm s /\
  formData (handleMouseUp env e s) = formData s /\
  created (handleMouseUp env e s) = created s /\
  canvas (handleMouseUp env e s) = canvas s /\
  alerts (handleMouseUp env e s) = alerts s /\
  (currentBox s <> None -> canvasMounted env = true ->
   consoleErrors (handleMouseUp env e s) =
   consoleErrors s ++ [cameraUnavailableMessage]) /\
  (currentBox s = None \/ canvasMounted env = false ->
   consoleErrors (handleMouseUp env e s) = consoleErrors s) /\
  (videoPaused s = true ->
   handleMouseUp env e s = set_isDrawing false s \/
   handleMouseUp env e s =
   consoleError cameraUnavailableMessage (set_isDrawing false s)).
Proof.
  intros Hmode Hdraw Hdis Hbtn Hcam.
  rewrite (handleMouseUp_no_camera env e s Hmode Hdraw Hdis Hbtn Hcam).
  destruct (currentBox s) as [cb | ] eqn:Ecb.
  - destruct (canvasMounted env) eqn:Ecanvas.
    + repeat split;
        try (destruct (pauseVideo_fields env (set_isDrawing false s)) as [Ep | Ep];
             rewrite Ep; reflexivity).
      * intros [Hc | Hc]; discriminate.
      * intros Hp. right.
        rewrite pauseVideo_when_paused by exact Hp. reflexivity.
    + repeat split; try reflexivity.
      * intros _ Hc. discriminate.
      * intros _. left. reflexivity.
  - repeat split; try reflexivity.
    + intros Hc. contradiction.
    + intros _. left. reflexivity.
Qed.

Lemma C9_abort_witness :
  isDrawing
    (handleMouseUp
       (mkEnv true 0 true [] 1920 1080 false true
              (Some (Some (mkWorldDirection 0 0))) (Some None)
              true true 0 0 true true false true false false
              (fun _ => Some EmptyString) EmptyString EmptyString)
       (mkMouseEvent 2 300 200)
       (mkOverlay true (100, 100) (Some (mkBox 100 100 200 100)) false
                  emptyFormData None None false None [] None None true [] [] []))
  = false /\
  consoleErrors
    (handleMouseUp
       (mkEnv true 0 true [] 1920 1080 false true
              (Some (Some (mkWorldDirection 0 0))) (Some None)
              true true 0 0 true true false true false false
              (fun _ => Some EmptyString) EmptyString EmptyString)
       (mkMouseEvent 2 300 200)
       (mkOverlay true (100, 100) (Some (mkBox 100 100 200 100)) false
                  emptyFormData None None false None [] None None true [] [] []))
  = [cameraUnavailableMessage].
Proof.
  pose proof
    (C9_abort_on_missing_camera
       (mkEnv true 0 true [] 1920 1080 false true
              (Some (Some (mkWorldDirection 0 0))) (Some None)
              true true 0 0 true true false true false false
              (fun _ => Some EmptyString) EmptyString EmptyString)
       (mkMouseEvent 2 300 200)
       (mkOverlay true (100, 100) (Some (mkBox 100 100 200 100)) false
                  emptyFormData None None false None [] None None true [] [] [])
       eq_refl eq_refl eq_refl eq_refl (or_introl eq_refl)) as H.
  destruct H as (H1 & _ & _ & _ & _ & _ & _ & _ & H9 & _).
  split; [exact H1 | ].
  apply H9; [discriminate | reflexivity].
Defined.

End GestureRelease.

(** ** Screenshot capture *)

Section Capture.

Lemma overlay_eta (s : Overlay) :
  s = set_loop (loop s) (loopDeps s) (set_canvas (canvas s) s).
Proof. destruct s. reflexivity. Qed.

Lemma set_loop_canvas_compose (l l' : option Closure) (d d' : option Deps)
    (cv cv' : Canvas) (s : Overlay) :
  set_loop l d (set_canvas cv (set_loop l' d' (set_canvas cv' s))) =
  set_loop l d (set_canvas cv s).
Proof. reflexivity. Qed.

(** [draw] changes nothing but the canvas. *)
Lemma draw_shape (env : Env) (c : Closure) (s : Overlay) :
  exists cv, draw env c s = set_loop (loop s) (loopDeps s) (set_canvas cv s).
Proof.
  unfold draw.
  destruct (canvasMounted env); cbn [negb];
    [ | exists (canvas s); apply overlay_eta].
  destruct (canvasContext env); cbn [negb];
    [ | exists (canvas s); apply overlay_eta].
  match goal with
  | |- exists cv, set_canvas ?X _ = _ => exists X
  end.
  destruct s. reflexivity.
Qed.

(** A tick or a render changes nothing but the canvas and the loop. *)
Lemma step_shape (env : Env) (ev : Background) (s : Overlay) :
  exists cv l d,
    match ev with Frame => frame env s | Render => render env s end =
    set_loop l d (set_canvas cv s).
Proof.
  destruct ev.
  - unfold frame, animate. destruct (loop s) as [c | ].
    + destruct (negb (c_isCapturingScreenshot c)).
      * destruct (draw_shape env c s) as [cv E]. rewrite E. eauto.
      * exists (canvas s), (loop s), (loopDeps s). apply overlay_eta.
    + exists (canvas s), (loop s), (loopDeps s). apply overlay_eta.
  - unfold render.
    destruct (match loopDeps s with
              | Some old => deps_eqb old (depsOf env s)
              | None => false
              end).
    + exists (canvas s), (loop s), (loopDeps s). apply overlay_eta.
    + destruct (isCapturingScreenshot s).
      * exists (canvas s), None, (Some (depsOf env s)).
        destruct s. reflexivity.
      * unfold animate.
        destruct (negb (c_isCapturingScreenshot (closureOf env s))).
        -- destruct (draw_shape env (closureOf env s)
                                (set_loop (Some (closureOf env s))
                                          (Some (depsOf env s)) s)) as [cv E].
           rewrite E. exists cv, (Some (closureOf env s)), (Some (depsOf env s)).
           destruct s. reflexivity.
        -- exists (canvas s), (Some (closureOf env s)), (Some (depsOf env s)).
           destruct s. reflexivity.
Qed.

Lemma background_shape (env : Env) (events : list Background) (s : Overlay) :
  exists cv l d, background env events s = set_loop l d (set_canvas cv s).
Proof.
  revert s. induction events as [ | ev events IH]; intros s.
  - exists (canvas s), (loop s), (loopDeps s). apply overlay_eta.
  - unfold background in *. cbn [fold_left].
    destruct (step_shape env ev s) as (cv1 & l1 & d1 & E1).
    destruct (IH (match ev with
                  | Frame => frame env s
                  | Render => render env s
                  end)) as (cv & l & d & E).
    rewrite E, E1. exists cv, l, d. reflexivity.
Qed.

(** *** No dashed stroke is painted while no drag is in progress *)












(** *** The redraw loop is suspended once a render sees the capture flag *)

Lemma deps_eqb_capturing (a b : Deps) :
  deps_eqb a b = true ->
  d_isCapturingScreenshot a = d_isCapturingScreenshot b.
Proof.
  unfold deps_eqb. intros H.
  apply andb_prop in H. destruct H as [_ H]. apply eqb_prop. exact H.
Qed.

Lemma render_stops_loop (env : Env) (s : Overlay) :
  isCapturingScreenshot s = true -> loopConsistent s ->
  loop (render env s) = None /\
  isCapturingScreenshot (render env s) = true /\
  canvas (render env s) = canvas s.
Proof.
  intros Hcap Hcons. unfold render.
  destruct (loopDeps s) as [old | ] eqn:Eold.
  - destruct (deps_eqb old (depsOf env s)) eqn:Eq.
    + apply deps_eqb_capturing in Eq. cbn [depsOf d_isCapturingScreenshot] in Eq.
      rewrite Hcap in Eq.
      unfold loopConsistent in Hcons.
      destruct (loop s) as [c | ]; [ | auto].
      destruct Hcons as [_ [d [Ed Hd]]]. rewrite Eold in Ed.
      injection Ed as Ed. subst d. rewrite Eq in Hd. discriminate.
    + rewrite Hcap. destruct s. cbn in *. auto.
  - rewrite Hcap. destruct s. cbn in *. auto.
Qed.

(** While capturing with no loop running, ticks and renders leave the
    canvas alone. *)
Lemma step_suspended (env : Env) (ev : Background) (s : Overlay) :
  isCapturingScreenshot s = true -> loop s = None ->
  let s' := match ev with Frame => frame env s | Render => render env s end in
  isCapturingScreenshot s' = true /\ loop s' = None /\ canvas s' = canvas s.
Proof.
  intros Hcap Hloop. destruct ev; cbn zeta.
  - unfold frame. rewrite Hloop. auto.
  - destruct (render_stops_loop env s Hcap) as (H1 & H2 & H3).
    + unfold loopConsistent. rewrite Hloop. exact I.
    + auto.
Qed.

Lemma background_suspended (env : Env) (events : list Background) (s : Overlay) :
  isCapturingScreenshot s = true -> loop s = None ->
  isCapturingScreenshot (background env events s) = true /\
  loop (background env events s) = None /\
  canvas (background env events s) = canvas s.
Proof.
  revert s. induction events as [ | ev events IH]; intros s Hcap Hloop.
  - auto.
  - unfold background in *. cbn [fold_left].
    destruct (step_suspended env ev s Hcap Hloop) as (H1 & H2 & H3).
    destruct (IH _ H1 H2) as (G1 & G2 & G3).
    rewrite G3, H3. auto.
Qed.

Lemma step_consistent (env : Env) (ev : Background) (s : Overlay) :
  isCapturingScreenshot s = true -> loopConsistent s ->
  let s' := match ev with Frame => frame env s | Render => render env s end in
  isCapturingScreenshot s' = true /\ loopConsistent s'.
Proof.
  intros Hcap Hcons. destruct ev; cbn zeta.
  - unfold frame, animate. destruct (loop s) as [c | ] eqn:El; [ | auto].
    destruct (negb (c_isCapturingScreenshot c)); [ | auto].
    destruct (draw_shape env c s) as [cv E]. rewrite E.
    split; [exact Hcap | ].
    unfold loopConsistent in *. cbn [loop loopDeps set_loop]. exact Hcons.
  - destruct (render_stops_loop env s Hcap Hcons) as (H1 & H2 & _).
    split; [exact H2 | ]. unfold loopConsistent. rewrite H1. exact I.
Qed.


(** *** The pieces of [handleFormSubmit] *)

Lemma submitBegin_accepts (env : Env) (s : Overlay) (pb : Box)
    (pwd : WorldDirection) :
  pendingBox s = Some pb -> pendingWorldDirection s = Some pwd ->
  nonEmpty (fd_primaryDescription (formData s)) = true ->
  nonEmpty (fd_secondaryDescription (formData s)) = true ->
  submitBegin env s =
  (Some (mkSubmission
           (annotationData env (formData s) pwd pb)
           (mkPendingAnnotation pwd (Some pb) (finalColor (formData s))
                                (finalNotes (formData s)))),
   setIsCapturingScreenshot true
     (setPendingAnnotationForScreenshot
        (Some (mkPendingAnnotation pwd (Some pb) (finalColor (formData s))
                                   (finalNotes (formData s))))
        (set_currentBox None (setShowForm false s)))).
Proof.
  intros Hb Hd Hp Hs. unfold submitBegin.
  rewrite Hb, Hd, Hp, Hs. reflexivity.
Qed.



Lemma logAll_created (msgs : list string) (s : Overlay) :
  created (logAll msgs s) = created s.
Proof.
  revert s. unfold logAll. induction msgs as [ | m msgs IH]; intros s.
  - reflexivity.
  - cbn [fold_left]. rewrite IH. reflexivity.
Qed.

Lemma capture_result (env : Env) (s : Overlay) :
  fst (capture env s) = screenshotOutcome env s /\
  created (snd (capture env s)) = created s.
Proof.
  unfold capture, captureScreenshot, screenshotOutcome, capturedRaster.
  destruct (videoElement env), (canvasMounted env); cbn [andb negb];
    try (split; reflexivity).
  destruct (rendererCanvasFound env); cbn [andb negb fst snd];
    [ | split; reflexivity].
  destruct (screenshotContext env); cbn [andb negb fst snd];
    [ | split; reflexivity].
  destruct (toDataURL env (fst (composite env (canvas s)))) as [url | ];
    cbn [fst snd].
  - split; [reflexivity | ].
    destruct (negb (nonEmpty url) || (String.length url <=? 100)%nat);
      cbn [created consoleError setPendingAnnotationForScreenshot];
      apply logAll_created.
  - split; [reflexivity | apply logAll_created].
Qed.




Ltac same_overlay s :=
  destruct s; unfold setPendingAnnotationForScreenshot, consoleError; cbn;
  rewrite <- ?app_assoc; reflexivity.

Lemma logAll_shape (msgs : list string) (s : Overlay) :
  logAll msgs s =
  mkOverlay (isDrawing s) (startPos s) (currentBox s) (showForm s) (formData s)
            (pendingBox s) (pendingWorldDirection s) (isCapturingScreenshot s)
            (pendingAnnotationForScreenshot s) (canvas s) (loop s) (loopDeps s)
            (videoPaused s) (consoleErrors s ++ msgs) (alerts s) (created s).
Proof.
  revert s. unfold logAll. induction msgs as [ | m msgs IH]; intros s.
  - cbn [fold_left]. rewrite app_nil_r. destruct s. reflexivity.
  - cbn [fold_left]. rewrite IH. unfold consoleError.
    cbn. rewrite <- app_assoc. reflexivity.
Qed.

(** [capture] only logs and, when it settles, clears the one-shot
    pending value. *)
Lemma capture_shape (env : Env) (s : Overlay) :
  exists msgs,
    snd (capture env s) =
    match screenshotOutcome env s with
    | Resolved _ => setPendingAnnotationForScreenshot None (logAll msgs s)
    | NeverSettled => logAll msgs s
    end.
Proof.
  unfold capture, captureScreenshot, screenshotOutcome, capturedRaster.
  destruct (videoElement env), (canvasMounted env); cbn [andb negb fst snd];
    try (exists ["Cannot capture screenshot: missing videoElement or canvas"%string];
         rewrite logAll_shape; same_overlay s).
  destruct (rendererCanvasFound env); cbn [andb negb fst snd].
  - destruct (screenshotContext env); cbn [andb negb fst snd].
    + destruct (toDataURL env (fst (composite env (canvas s)))) as [url | ];
        cbn [fst snd].
      * destruct (negb (nonEmpty url) || (String.length url <=? 100)%nat).
        -- exists (snd (composite env (canvas s)) ++
                   ["Screenshot capture failed or returned empty data"%string]).
           rewrite !logAll_shape. same_overlay s.
        -- exists (snd (composite env (canvas s))). reflexivity.
      * exists (snd (composite env (canvas s))). reflexivity.
    + exists ["Failed to get 2D context for screenshot canvas"%string;
              "Screenshot capture failed or returned empty data"%string].
      rewrite logAll_shape. same_overlay s.
  - exists ["Renderer canvas not found for screenshot"%string;
            "Screenshot capture failed or returned empty data"%string].
    rewrite logAll_shape. same_overlay s.
Qed.

Lemma forcedRedraw_shape (env : Env) (sub : Submission) (s : Overlay) :
  exists cv, forcedRedraw env sub s = set_canvas cv s.
Proof.
  unfold forcedRedraw. destruct (canvasMounted env && canvasContext env).
  - eexists. reflexivity.
  - exists (canvas s). destruct s. reflexivity.
Qed.

(** The pointer and form handlers leave the capture state, the loop and
    what was created alone. *)
Lemma handlers_keep (env : Env) (a : Activity) (s : Overlay) :
  (forall ev, a <> Tick ev) ->
  isCapturingScreenshot (act env s a) = isCapturingScreenshot s /\
  pendingAnnotationForScreenshot (act env s a) =
    pendingAnnotationForScreenshot s /\
  created (act env s a) = created s /\ alerts (act env s a) = alerts s /\
  loop (act env s a) = loop s /\ loopDeps (act env s a) = loopDeps s.
Proof.
  intros Hn.
  destruct a as [ev | e | e | e | fd | ];
    [exfalso; apply (Hn ev); reflexivity | | | | | ].
  - unfold act, handleMouseDown, pauseVideo.
    repeat match goal with
           | |- context [if ?b then _ else _] => destruct b
           end; repeat split; reflexivity.
  - unfold act, handleMouseMove.
    repeat match goal with
           | |- context [if ?b then _ else _] => destruct b
           end; try (repeat split; reflexivity).
    match goal with
    | |- context [draw env ?c ?s1] =>
        destruct (draw_shape env c s1) as [cv E]; rewrite E
    end.
    repeat split; reflexivity.
  - unfold act, handleMouseUp.
    destruct (negb (annotationMode env) || negb (isDrawing s)
              || disableInteractions env || negb (button e =? 2)%Z);
      [repeat split; reflexivity | ].
    destruct (currentBox (set_isDrawing false s)) as [cb | ];
      [ | repeat split; reflexivity].
    destruct (negb (canvasMounted env)); [repeat split; reflexivity | ].
    destruct (getCamera env) as [camera | ];
      [destruct (getCameraRotation env) as [rot | ] | ];
      unfold screenToWorldDirection, pauseVideo;
      destruct (onPauseVideo env && videoElement env
                && negb (videoPaused (set_isDrawing false s)));
      repeat split; reflexivity.
  - repeat split; reflexivity.
  - repeat split; reflexivity.
Qed.

(** Whatever runs while [onAnnotationCreate] is awaited, the capture flag,
    the one-shot pending value, the alerts and what was created stay. *)
Lemma act_keeps (env : Env) (a : Activity) (s : Overlay) :
  isCapturingScreenshot (act env s a) = isCapturingScreenshot s /\
  pendingAnnotationForScreenshot (act env s a) =
    pendingAnnotationForScreenshot s /\
  created (act env s a) = created s /\ alerts (act env s a) = alerts s.
Proof.
  destruct a as [ev | e | e | e | fd | ].
  - destruct (step_shape env ev s) as (cv & l & d & E).
    destruct ev; cbn [act]; rewrite E; repeat split; reflexivity.
  - destruct (handlers_keep env (PointerDown e) s) as (H1 & H2 & H3 & H4 & _);
      [discriminate | auto].
  - destruct (handlers_keep env (PointerMove e) s) as (H1 & H2 & H3 & H4 & _);
      [discriminate | auto].
  - destruct (handlers_keep env (PointerUp e) s) as (H1 & H2 & H3 & H4 & _);
      [discriminate | auto].
  - repeat split; reflexivity.
  - repeat split; reflexivity.
Qed.

Lemma unblocked_keeps (env : Env) (events : list Activity) (s : Overlay) :
  isCapturingScreenshot (unblocked env events s) = isCapturingScreenshot s /\
  pendingAnnotationForScreenshot (unblocked env events s) =
    pendingAnnotationForScreenshot s /\
  created (unblocked env events s) = created s /\
  alerts (unblocked env events s) = alerts s.
Proof.
  revert s. induction events as [ | a events IH]; intros s.
  - repeat split; reflexivity.
  - unfold unblocked in *. cbn [fold_left].
    destruct (IH (act env s a)) as (I1 & I2 & I3 & I4).
    destruct (act_keeps env a s) as (A1 & A2 & A3 & A4).
    rewrite I1, I2, I3, I4. auto.
Qed.

(** With only ticks and renders, nothing but the canvas and the loop
    changes. *)
Lemma unblocked_ticks (env : Env) (events : list Activity) (s : Overlay) :
  (forall a, In a events -> exists ev, a = Tick ev) ->
  exists cv l d, unblocked env events s = set_loop l d (set_canvas cv s).
Proof.
  revert s. induction events as [ | a events IH]; intros s Hticks.
  - exists (canvas s), (loop s), (loopDeps s). apply overlay_eta.
  - unfold unblocked in *. cbn [fold_left].
    destruct (Hticks a (or_introl eq_refl)) as [ev Ea]. subst a.
    destruct (step_shape env ev s) as (cv1 & l1 & d1 & E1).
    assert (Eact : act env s (Tick ev) = set_loop l1 d1 (set_canvas cv1 s)).
    { destruct ev; exact E1. }
    rewrite Eact.
    destruct (IH (set_loop l1 d1 (set_canvas cv1 s)))
      as (cv & l & d & E).
    { intros a Hin. apply Hticks. right. exact Hin. }
    rewrite E. exists cv, l, d. reflexivity.
Qed.

(** Where an accepted submission ends, up to the canvas, the loop and the
    log: when the capture settles, at the reset that follows whatever
    ran while the created annotation was handed over; when it does not,
    stuck behind the barrier with nothing created. *)
Lemma handleFormSubmit_accepted (env : Env)
    (settle paint release : list Background) (persist : list Activity)
    (s : Overlay) (pb : Box) (pwd : WorldDirection) :
  pendingBox s = Some pb -> pendingWorldDirection s = Some pwd ->
  nonEmpty (fd_primaryDescription (formData s)) = true ->
  nonEmpty (fd_secondaryDescription (formData s)) = true ->
  exists sub s4 cv l d msgs,
    beforeCapture env settle paint s = Some (sub, s4) /\
    sub_annotationData sub = annotationData env (formData s) pwd pb /\
    handleFormSubmit env settle paint release persist s =
    match screenshotOutcome env s4 with
    | Resolved url =>
        submitReset
          (unblocked
             (afterCreate
                env (finishedAnnotation env (formData s)
                                        (sub_annotationData sub) url))
             persist
             (mkOverlay (isDrawing s) (startPos s) None false (formData s)
                        (Some pb) (Some pwd) false None cv l d (videoPaused s)
                        (consoleErrors s ++ msgs) (alerts s)
                        (created s ++
                         [finishedAnnotation env (formData s)
                                             (sub_annotationData sub) url])))
    | NeverSettled =>
        mkOverlay (isDrawing s) (startPos s) None false (formData s)
                  (Some pb) (Some pwd) true
                  (Some (sub_pendingAnnotation sub))
                  cv l d (videoPaused s) (consoleErrors s ++ msgs)
                  (alerts s) (created s)
    end.
Proof.
  intros Hb Hd Hp Hs.
  pose proof (submitBegin_accepts env s pb pwd Hb Hd Hp Hs) as Ebegin.
  unfold beforeCapture, handleFormSubmit. rewrite Ebegin.
  match goal with
  | |- context [background env settle ?s1] =>
      destruct (background_shape env settle s1) as (cv2 & l2 & d2 & E2);
      rewrite E2
  end.
  match goal with
  | |- context [forcedRedraw env ?sub ?s2] =>
      destruct (forcedRedraw_shape env sub s2) as (cv3 & E3); rewrite E3
  end.
  match goal with
  | |- context [background env paint ?s3] =>
      destruct (background_shape env paint s3) as (cv4 & l4 & d4 & E4);
      rewrite E4
  end.
  match goal with
  | |- context [capture env ?s4] =>
      destruct (capture_result env s4) as [Eurl _];
      destruct (capture_shape env s4) as [msgs Ecap];
      destruct (capture env s4) as [outcome s5] eqn:Ec;
      cbn [fst snd] in Eurl, Ecap; rewrite <- Eurl in *
  end.
  destruct outcome as [url | ].
  - match goal with
    | |- context [background env release ?s5] =>
        destruct (background_shape env release s5) as (cv5 & l5 & d5 & E5);
        rewrite E5
    end.
    rewrite Ecap, logAll_shape.
    eexists. eexists. exists cv5, l5, d5, msgs.
    split; [reflexivity | ]. split; [reflexivity | ].
    rewrite <- Eurl. destruct s. cbn in Hb, Hd. subst. reflexivity.
  - rewrite Ecap, logAll_shape.
    eexists. eexists. exists cv4, l4, d4, msgs.
    split; [reflexivity | ]. split; [reflexivity | ].
    rewrite <- Eurl. destruct s. cbn in Hb, Hd. subst. reflexivity.
Qed.

End Capture.

(** ** Capture ordering *)

Section CaptureOrdering.


(** *** What of a stroked rectangle falls inside the canvas *)

Lemma ltb_false (a b : R) : ltb a b = false <-> b <= a.
Proof. unfold ltb. destruct (Rlt_dec a b); split; intros; try lra; discriminate. Qed.




Lemma Reqb_false (a b : R) : Reqb a b = false <-> a <> b.
Proof.
  unfold Reqb. destruct (Req_dec_T a b); split; intros; try assumption;
    try reflexivity; try discriminate; contradiction.
Qed.


(** A direction can project to a screen point and its box still lie
    wholly outside the canvas: seen through a camera of 90 degrees on a
    square viewport of 1000 pixels, the direction at [atan 2] to the
    right of the view axis projects to [(1500, 500)], and a box of a
    tenth of the viewport around it starts 448 pixels beyond the right
    edge. *)
Lemma projected_box_can_miss_canvas :
  worldDirectionToScreen (mkWorldDirection 0 (PI - atan 2)) 1000 1000
                         (THREE.newPerspectiveCamera 90 1 (1 / 10) 1000)
  = Some (mkScreenPoint 1500 500) /\
  strokeMeetsCanvas
    1000 1000 3
    (box_x (boxAround (mkScreenPoint 1500 500)
                      (mkBox 0 0 (1 / 10) (1 / 10)) 1000 1000))
    (box_y (boxAround (mkScreenPoint 1500 500)
                      (mkBox 0 0 (1 / 10) (1 / 10)) 1000 1000))
    (box_width (boxAround (mkScreenPoint 1500 500)
                          (mkBox 0 0 (1 / 10) (1 / 10)) 1000 1000))
    (box_height (boxAround (mkScreenPoint 1500 500)
                           (mkBox 0 0 (1 / 10) (1 / 10)) 1000 1000))
  = false.
Proof.
  split.
  - set (r := sqrt (1 + 2²)).
    assert (Hr2 : r * r = 5).
    { unfold r. rewrite sqrt_sqrt; unfold Rsqr; lra. }
    assert (Hr0 : 0 < r) by (unfold r; apply sqrt_lt_R0; unfold Rsqr; lra).
    assert (Hr : 2 < r < 3) by (split; nra).
    assert (Hdir : directionVector (mkWorldDirection 0 (PI - atan 2)) =
                   THREE.mkVector3 (2 / r) 0 (- (1 / r))).
    { unfold directionVector. cbn [phi theta].
      rewrite sin_0, cos_0, sin_minus, cos_minus, sin_PI, cos_PI,
        sin_atan, cos_atan.
      fold r. f_equal; field; lra. }
    assert (Hhalf : THREE.DEG2RAD * (1 / 2) * 90 = PI / 4)
      by (unfold THREE.DEG2RAD; field).
    assert (Hclip : clipVector (mkWorldDirection 0 (PI - atan 2))
                               (THREE.newPerspectiveCamera 90 1 (1 / 10) 1000) =
                    THREE.mkVector3
                      2 0
                      (- (- (1000 + 1 / 10) / (1000 - 1 / 10)) +
                       (- 2 * 1000 * (1 / 10)) / (1000 - 1 / 10) * r)).
    { unfold clipVector, THREE.project, THREE.newPerspectiveCamera.
      rewrite normalize_directionVector, Hdir.
      rewrite updateProjectionMatrix_symmetric by lra.
      rewrite Hhalf, tan_PI4.
      cbn [THREE.matrixWorldInverse THREE.projectionMatrix].
      rewrite applyMatrix4_identity.
      unfold THREE.applyMatrix4, THREE.symmetricPerspective. simpl.
      f_equal; field; lra. }
    rewrite worldDirectionToScreen_some; rewrite Hclip; simpl.
    + f_equal. f_equal; field.
    + intros [Hc | [Hc | Hc]].
      * lra.
      * unfold Rabs in Hc. destruct (Rcase_abs _); lra.
      * unfold Rabs in Hc. destruct (Rcase_abs _); lra.
  - unfold strokeMeetsCanvas.
    cbn [boxAround box_x box_y box_width box_height pt_x pt_y].
    apply andb_false_iff. left. apply andb_false_iff. left.
    apply andb_false_iff. left. apply andb_false_iff. left.
    apply andb_false_iff. right.
    assert (E : Reqb (1 / 10 * 1000) 0 = false) by (apply Reqb_false; lra).
    rewrite E.
    apply ltb_false. unfold Rmin. destruct (Rle_dec _ _); lra.
Qed.





End CaptureOrdering.

(** * Further properties of the geometry module *)

Section GeometryProperties.

Import THREE.

(** X1 -- yaw enters the projection only through its sine and cosine:
    a direction and the same direction with [theta] shifted by a full
    turn project to the same screen point and get the same box. *)
Theorem X1_projection_periodic_in_theta
    (d : WorldDirection) (W H : R) (camera : PerspectiveCamera) (s : R) :
  worldDirectionToScreen (mkWorldDirection (phi d) (theta d + 2 * PI)) W H camera
  = worldDirectionToScreen d W H camera /\
  worldDirectionToScreen (mkWorldDirection (phi d) (theta d - 2 * PI)) W H camera
  = worldDirectionToScreen d W H camera /\
  getAnnotationBox (mkWorldDirection (phi d) (theta d + 2 * PI)) W H camera s
  = getAnnotationBox d W H camera s.
Proof.
  assert (Ep : directionVector (mkWorldDirection (phi d) (theta d + 2 * PI)) =
               directionVector d).
  { unfold directionVector. cbn [phi theta].
    rewrite sin_plus, cos_plus, sin_2PI, cos_2PI. f_equal; ring. }
  assert (Em : directionVector (mkWorldDirection (phi d) (theta d - 2 * PI)) =
               directionVector d).
  { unfold directionVector. cbn [phi theta]. unfold Rminus.
    rewrite sin_plus, cos_plus, sin_neg, cos_neg, sin_2PI, cos_2PI.
    f_equal; ring. }
  unfold getAnnotationBox, worldDirectionToScreen, clipVector.
  rewrite Ep, Em. repeat split; reflexivity.
Qed.

(** X2 -- range of a pointer direction: for every pointer position,
    viewport and camera the direction returned by
    [screenToWorldDirection] has [phi] in [[-PI/2, PI/2]] and [theta] in
    [(-PI, PI]]. *)
Theorem X2_pointer_direction_ranges
    (x y W H : R) (camera : PerspectiveCamera) (rot : CameraRotation) :
  exists d,
    screenToWorldDirection x y W H camera rot = Some d /\
    - (PI / 2) <= phi d <= PI / 2 /\
    - PI < theta d <= PI.
Proof.
  eexists. split; [reflexivity | ]. cbn [phi theta].
  split; [apply asin_bound | apply atan2_bound].
Qed.

(** X3 -- a migrated direction always has its pitch in range: for every
    box and every recorded or missing pose, [phi] of
    [legacyBoxToWorldDirection] lies in [[-PI/2, PI/2]]. *)
Theorem X3_migrated_phi_in_range (b : Box) (pose : option CameraRotation) :
  - (PI / 2) <= phi (legacyBoxToWorldDirection b pose) <= PI / 2.
Proof. apply legacyBoxToWorldDirection_phi_bound. Qed.

(** X4 -- a legacy box centred in the viewport migrates to the recorded
    camera pose itself, when that pose has its pitch in range. *)
Theorem X4_centred_box_migrates_to_pose (b : Box) (pose : CameraRotation) :
  box_x b + box_width b / 2 = 1 / 2 ->
  box_y b + box_height b / 2 = 1 / 2 ->
  - (PI / 2) <= phi pose <= PI / 2 ->
  legacyBoxToWorldDirection b (Some pose) = pose.
Proof.
  intros Hx Hy [Hlo Hhi].
  rewrite legacyBoxToWorldDirection_some, Hx, Hy.
  replace ((1 / 2 - 5 / 10) * 2) with 0 by field.
  replace (- (1 / 2 - 5 / 10) * 2) with 0 by field.
  rewrite atan_0, !Rmult_0_l, !Rplus_0_r.
  rewrite Rmin_right by exact Hhi.
  rewrite Rmax_right by lra.
  destruct pose. reflexivity.
Qed.

Lemma X4_centred_box_witness :
  legacyBoxToWorldDirection (mkBox (45 / 100) (45 / 100) (1 / 10) (1 / 10))
                            (Some (mkWorldDirection 0 2))
  = mkWorldDirection 0 2.
Proof.
  pose proof PI_RGT_0 as Hpi.
  apply (X4_centred_box_migrates_to_pose
           (mkBox (45 / 100) (45 / 100) (1 / 10) (1 / 10))
           (mkWorldDirection 0 2)); simpl; lra.
Defined.

(** X5 -- the direction a perspective camera at the origin looks along
    projects to the centre of the viewport, as long as the far plane is
    not nearer than the unit sphere. *)
Theorem X5_forward_projects_to_centre
    (camera : PerspectiveCamera) (forward : WorldDirection) (near far W H : R) :
  looksAlong camera forward -> hasFrustum camera near far ->
  0 < near < far -> 1 <= far ->
  worldDirectionToScreen forward W H camera =
  Some (mkScreenPoint (W / 2) (H / 2)).
Proof. apply forward_projects_to_centre. Qed.

Lemma X5_forward_witness :
  worldDirectionToScreen (mkWorldDirection 0 PI) 1920 1080
                         (playerCamera 1920 1080)
  = Some (mkScreenPoint (1920 / 2) (1080 / 2)).
Proof.
  apply (X5_forward_projects_to_centre _ _ (1 / 10) 1000).
  - apply playerCamera_looksAlong.
  - apply newPerspectiveCamera_hasFrustum.
  - lra.
  - lra.
Defined.

Lemma worldDirectionToScreen_inv (d : WorldDirection) (W H : R)
    (camera : PerspectiveCamera) (p : ScreenPoint) :
  worldDirectionToScreen d W H camera = Some p ->
  p = mkScreenPoint ((vx (clipVector d camera) + 1) * W / 2)
                    ((- vy (clipVector d camera) + 1) * H / 2) /\
  vz (clipVector d camera) <= 1 /\
  Rabs (vx (clipVector d camera)) <= 3 /\
  Rabs (vy (clipVector d camera)) <= 3.
Proof.
  intros E.
  assert (Hn : ~ (vz (clipVector d camera) > 1 \/
                  Rabs (vx (clipVector d camera)) > 3 \/
                  Rabs (vy (clipVector d camera)) > 3)).
  { intros Hc. apply worldDirectionToScreen_none with (W := W) (H := H) in Hc.
    rewrite Hc in E. discriminate. }
  rewrite (worldDirectionToScreen_some d W H camera Hn) in E.
  injection E as E. split; [symmetry; exact E | ].
  repeat split; apply Rnot_gt_le; intros Hc; apply Hn; auto.
Qed.

(** X6 -- a projected point is never further than one viewport size
    outside the viewport: when [worldDirectionToScreen] returns a point
    for a viewport of non-negative size, [-W <= x <= 2 W] and
    [-H <= y <= 2 H]. *)
Theorem X6_projected_point_bounds
    (d : WorldDirection) (W H : R) (camera : PerspectiveCamera) (p : ScreenPoint) :
  0 <= W -> 0 <= H ->
  worldDirectionToScreen d W H camera = Some p ->
  - W <= pt_x p <= 2 * W /\ - H <= pt_y p <= 2 * H.
Proof.
  intros HW HH E.
  destruct (worldDirectionToScreen_inv d W H camera p E) as (Ep & _ & Hx & Hy).
  subst p. cbn [pt_x pt_y].
  assert (Hx' : -3 <= vx (clipVector d camera) <= 3)
    by (unfold Rabs in Hx; destruct (Rcase_abs _); lra).
  assert (Hy' : -3 <= vy (clipVector d camera) <= 3)
    by (unfold Rabs in Hy; destruct (Rcase_abs _); lra).
  split; split; nra.
Qed.

Lemma X6_projected_point_witness :
  - 1920 <= pt_x (mkScreenPoint (1920 / 2) (1080 / 2)) <= 2 * 1920 /\
  - 1080 <= pt_y (mkScreenPoint (1920 / 2) (1080 / 2)) <= 2 * 1080.
Proof.
  apply (X6_projected_point_bounds (mkWorldDirection 0 PI) 1920 1080
                                   (playerCamera 1920 1080)).
  - lra.
  - lra.
  - apply (forward_projects_to_centre _ _ (1 / 10) 1000).
    + apply playerCamera_looksAlong.
    + apply newPerspectiveCamera_hasFrustum.
    + lra.
    + lra.
Defined.

(** X7 -- everything behind a perspective camera at the origin is
    culled: a direction whose view-space depth coordinate is positive
    projects to [null], for every frustum with [0 < near < far]. *)
Theorem X7_rear_half_space_is_culled
    (camera : PerspectiveCamera) (d : WorldDirection) (near far W H : R) :
  viewIsLinear (matrixWorldInverse camera) -> hasFrustum camera near far ->
  0 < near < far ->
  0 < vz (applyMatrix4 (directionVector d) (matrixWorldInverse camera)) ->
  worldDirectionToScreen d W H camera = None.
Proof.
  intros Hlin [px [py Hp]] [Hn Hf] Hz.
  apply worldDirectionToScreen_none. left.
  unfold clipVector, project. rewrite normalize_directionVector, Hp.
  set (v := applyMatrix4 (directionVector d) (matrixWorldInverse camera)) in *.
  unfold applyMatrix4 at 1, symmetricPerspective. cbn [vz e2 e6 e10 e14 e3 e7 e11 e15].
  replace ((0 * vx v + 0 * vy v + - (far + near) / (far - near) * vz v +
            -2 * far * near / (far - near)) *
           (1 / (0 * vx v + 0 * vy v + -1 * vz v + 0)))
    with (1 + (2 * near * vz v + 2 * far * near) / ((far - near) * vz v))
    by (field; split; lra).
  assert (0 < (2 * near * vz v + 2 * far * near) / ((far - near) * vz v)).
  { apply Rdiv_lt_0_compat; nra. }
  lra.
Qed.

Lemma X7_rear_half_space_witness :
  worldDirectionToScreen (mkWorldDirection 0 0) 1920 1080
                         (playerCamera 1920 1080) = None.
Proof.
  apply (X7_rear_half_space_is_culled _ _ (1 / 10) 1000).
  - apply playerCamera_looksAlong.
  - apply newPerspectiveCamera_hasFrustum.
  - lra.
  - unfold playerCamera, newPerspectiveCamera. cbn [matrixWorldInverse].
    rewrite applyMatrix4_identity. unfold directionVector. cbn [vz phi theta].
    rewrite cos_0. lra.
Defined.

End GeometryProperties.

(** * Further properties of the persistence layer *)

Section StorageProperties.

(** An annotation counts as newly migrated only when migration changed it. *)
Lemma newly_migrated_iff (a : Annotation) :
  negb (isSome (worldDirection a)) && isSome (worldDirection (migrateAnnotation a))
  = true <-> migrateAnnotation a <> a.
Proof.
  unfold migrateAnnotation.
  destruct (worldDirection a) as [d | ] eqn:Ew.
  - rewrite Ew. cbn. split; [discriminate | intros H; contradiction].
  - destruct (box a) as [b | ] eqn:Eb.
    + cbn. split; [ | reflexivity].
      intros _. apply withWorldDirection_changes. exact Ew.
    + rewrite Ew. cbn. split; [discriminate | intros H; contradiction].
Qed.

(** Migration either leaves an annotation as it is or changes it. *)
Lemma migrateAnnotation_changed_dec (a : Annotation) :
  migrateAnnotation a = a \/ migrateAnnotation a <> a.
Proof.
  unfold migrateAnnotation.
  destruct (worldDirection a) eqn:Ew; [left; reflexivity | ].
  destruct (box a) eqn:Eb; [ | left; reflexivity].
  right. apply withWorldDirection_changes. exact Ew.
Qed.

Lemma needsSaving_false (xs : list Annotation) :
  needsSaving xs (migrateLegacyAnnotations xs) = false ->
  migrateLegacyAnnotations xs = xs.
Proof.
  unfold needsSaving, migrateLegacyAnnotations.
  induction xs as [ | a xs IH]; [reflexivity | ].
  cbn [map combine existsb fst snd]. intros H.
  apply orb_false_elim in H. destruct H as [Ha Hxs].
  rewrite (IH Hxs). f_equal.
  destruct (migrateAnnotation_changed_dec a) as [E | E]; [exact E | ].
  apply newly_migrated_iff in E. rewrite E in Ha. discriminate.
Qed.

Lemma needsSaving_same (xs : list Annotation) : needsSaving xs xs = false.
Proof.
  unfold needsSaving. induction xs as [ | a xs IH]; [reflexivity | ].
  cbn [combine existsb fst snd]. rewrite IH.
  destruct (worldDirection a); reflexivity.
Qed.

Lemma loadAnnotations_returns (setItemThrows : bool) (xs : list Annotation) :
  fst (loadAnnotations setItemThrows (Parsed xs)) = migrateLegacyAnnotations xs.
Proof.
  unfold loadAnnotations.
  destruct (needsSaving xs (migrateLegacyAnnotations xs)); reflexivity.
Qed.

Lemma loadAnnotations_written (xs : list Annotation) :
  loadAnnotations false (Parsed xs) =
  (migrateLegacyAnnotations xs, Parsed (migrateLegacyAnnotations xs)).
Proof.
  unfold loadAnnotations, saveAnnotations.
  destruct (needsSaving xs (migrateLegacyAnnotations xs)) eqn:E;
    [reflexivity | ].
  rewrite (needsSaving_false xs E). reflexivity.
Qed.

Lemma loadAnnotations_not_written (xs : list Annotation) :
  snd (loadAnnotations true (Parsed xs)) = Parsed xs.
Proof.
  unfold loadAnnotations, saveAnnotations.
  destruct (needsSaving xs (migrateLegacyAnnotations xs)); reflexivity.
Qed.

(** X8 -- what a load returns and what it leaves in the store: when the
    stored annotations parse, [loadAnnotations] returns the migrated
    collection whether or not the write-back succeeds; the store then
    holds the migrated collection when [localStorage.setItem] works, and
    is left exactly as it was when it throws (the error is swallowed). *)
Theorem X8_load_leaves_migrated_store (setItemThrows : bool)
    (xs : list Annotation) :
  fst (loadAnnotations setItemThrows (Parsed xs)) = migrateLegacyAnnotations xs /\
  snd (loadAnnotations false (Parsed xs)) = Parsed (migrateLegacyAnnotations xs) /\
  snd (loadAnnotations true (Parsed xs)) = Parsed xs.
Proof.
  split; [apply loadAnnotations_returns | ].
  split; [rewrite loadAnnotations_written; reflexivity | ].
  apply loadAnnotations_not_written.
Qed.

Lemma loadAnnotations_store_cases (t : bool) (xs : list Annotation) :
  snd (loadAnnotations t (Parsed xs)) = Parsed xs \/
  snd (loadAnnotations t (Parsed xs)) = Parsed (migrateLegacyAnnotations xs).
Proof.
  destruct t.
  - left. apply loadAnnotations_not_written.
  - right. rewrite loadAnnotations_written. reflexivity.
Qed.

(** X9 -- loading is stable: a load after any earlier load returns the
    same collection as the earlier one, whether or not either write-back
    succeeded, so nothing is approximated twice; and once a load has run
    with a working [setItem], a later load leaves the store as it found
    it. *)
Theorem X9_second_load_is_stable (first second : bool) (store : Stored) :
  fst (loadAnnotations second (snd (loadAnnotations first store))) =
  fst (loadAnnotations first store) /\
  snd (loadAnnotations second (snd (loadAnnotations false store))) =
  snd (loadAnnotations false store) /\
  needsSaving (fst (loadAnnotations first store))
              (migrateLegacyAnnotations (fst (loadAnnotations first store)))
  = false.
Proof.
  destruct store as [ | | xs].
  - repeat split; reflexivity.
  - repeat split; reflexivity.
  - split; [ | split].
    + rewrite (loadAnnotations_returns first).
      destruct (loadAnnotations_store_cases first xs) as [E | E]; rewrite E.
      * apply loadAnnotations_returns.
      * rewrite loadAnnotations_returns.
        apply migrateLegacyAnnotations_idempotent.
    + rewrite loadAnnotations_written. cbn [snd].
      destruct (loadAnnotations_store_cases
                  second (migrateLegacyAnnotations xs)) as [E | E]; rewrite E.
      * reflexivity.
      * rewrite migrateLegacyAnnotations_idempotent. reflexivity.
    + rewrite loadAnnotations_returns.
      rewrite migrateLegacyAnnotations_idempotent. apply needsSaving_same.
Qed.


(** X11 -- after a load every annotation that has a box has a world
    direction, and a stored annotation that has neither a box nor a
    direction is returned as it was stored; both whether or not the
    write-back succeeds. *)
Theorem X11_loaded_boxes_have_directions (setItemThrows : bool)
    (store : Stored) (a : Annotation) :
  (In a (fst (loadAnnotations setItemThrows store)) ->
   box a <> None -> worldDirection a <> None) /\
  (forall xs, store = Parsed xs -> In a xs ->
              box a = None -> worldDirection a = None ->
              In a (fst (loadAnnotations setItemThrows store))).
Proof.
  split.
  - destruct store as [ | | xs]; try (cbn; contradiction).
    rewrite loadAnnotations_returns.
    unfold migrateLegacyAnnotations. rewrite in_map_iff.
    intros [a0 [E Hin]] Hb Hw. subst a. unfold migrateAnnotation in *.
    destruct (worldDirection a0) eqn:Ew0.
    + rewrite Ew0 in Hw. discriminate.
    + destruct (box a0) eqn:Eb0.
      * discriminate.
      * apply Hb. exact Eb0.
  - intros xs E Hin Hb Hw. subst store.
    rewrite loadAnnotations_returns.
    unfold migrateLegacyAnnotations. rewrite in_map_iff.
    exists a. split; [ | exact Hin].
    unfold migrateAnnotation. rewrite Hw, Hb. reflexivity.
Qed.

Lemma X11_loaded_witness :
  box (migrateAnnotation
         (legacyAnnotation (mkBox (45 / 100) (45 / 100) (1 / 10) (1 / 10)) None))
  <> None /\
  worldDirection
    (migrateAnnotation
       (legacyAnnotation (mkBox (45 / 100) (45 / 100) (1 / 10) (1 / 10)) None))
  <> None.
Proof.
  assert (Hb : box (migrateAnnotation
                      (legacyAnnotation
                         (mkBox (45 / 100) (45 / 100) (1 / 10) (1 / 10)) None))
               <> None) by discriminate.
  split; [exact Hb | ].
  apply (proj1 (X11_loaded_boxes_have_directions
                  true
                  (Parsed [legacyAnnotation
                             (mkBox (45 / 100) (45 / 100) (1 / 10) (1 / 10)) None])
                  _)).
  - rewrite loadAnnotations_returns. left. reflexivity.
  - exact Hb.
Defined.

End StorageProperties.

(** * Paths and times of the persistence layer *)

Section Paths.

Open Scope string_scope.

(** Index of the last separator of either kind. *)
Lemma lastIndexFrom_noSeparator (c : ascii) (s : string) (i acc : Z) :
  isSeparator c = true -> noSeparator s = true ->
  lastIndexFrom c s i acc = acc.
Proof.
  intros Hc. revert i acc. induction s as [ | a r IH]; intros i acc Hs.
  - reflexivity.
  - cbn [noSeparator] in Hs. apply andb_prop in Hs. destruct Hs as [Ha Hr].
    cbn [lastIndexFrom]. rewrite IH by exact Hr.
    destruct (Ascii.eqb a c) eqn:E; [ | reflexivity].
    apply Ascii.eqb_eq in E. subst a. rewrite Hc in Ha. discriminate.
Qed.

Lemma max_lastIndexFrom (s : string) (i a1 a2 : Z) :
  (a1 < i)%Z -> (a2 < i)%Z ->
  forall pre sep base,
    s = pre ++ String sep base ->
    isSeparator sep = true -> noSeparator base = true ->
    Z.max (lastIndexFrom slash s i a1) (lastIndexFrom backslash s i a2) =
    (i + Z.of_nat (String.length pre))%Z.
Proof.
  intros H1 H2 pre. revert s i a1 a2 H1 H2.
  induction pre as [ | a pre IH]; intros s i a1 a2 H1 H2 sep base E Hsep Hbase.
  - subst s. cbn [append lastIndexFrom String.length Z.of_nat].
    rewrite !lastIndexFrom_noSeparator by (assumption || reflexivity).
    unfold isSeparator in Hsep.
    destruct (Ascii.eqb sep slash), (Ascii.eqb sep backslash);
      try discriminate; lia.
  - subst s. cbn [append lastIndexFrom String.length].
    assert (G1 : ((if Ascii.eqb a slash then i else a1) < i + 1)%Z)
      by (destruct (Ascii.eqb a slash); lia).
    assert (G2 : ((if Ascii.eqb a backslash then i else a2) < i + 1)%Z)
      by (destruct (Ascii.eqb a backslash); lia).
    rewrite (IH _ (i + 1)%Z _ _ G1 G2 sep base eq_refl Hsep Hbase).
    lia.
Qed.

Lemma substring_prefix (pre rest : string) :
  substring 0 (String.length pre) (pre ++ rest) = pre.
Proof.
  induction pre as [ | a pre IH].
  - destruct rest; reflexivity.
  - cbn [append String.length substring]. rewrite IH. reflexivity.
Qed.

(** The directory of [pre ++ sep ++ base] is [pre], for a final component
    [base] without separator. *)
Lemma getDirectoryFromPath_split (pre base : string) (sep : ascii) :
  isSeparator sep = true -> noSeparator base = true ->
  getDirectoryFromPath (pre ++ String sep base) = pre.
Proof.
  intros Hsep Hbase. unfold getDirectoryFromPath, lastIndexOf.
  rewrite (max_lastIndexFrom _ 0 (-1) (-1) ltac:(lia) ltac:(lia)
                             pre sep base eq_refl Hsep Hbase).
  replace (0 + Z.of_nat (String.length pre))%Z with (Z.of_nat (String.length pre))
    by lia.
  destruct (Z.of_nat (String.length pre) =? -1)%Z eqn:E;
    [apply Z.eqb_eq in E; lia | ].
  rewrite Nat2Z.id. apply substring_prefix.
Qed.

Lemma getDirectoryFromPath_noSeparator (p : string) :
  noSeparator p = true -> getDirectoryFromPath p = EmptyString.
Proof.
  intros Hp. unfold getDirectoryFromPath, lastIndexOf.
  rewrite !lastIndexFrom_noSeparator by (assumption || reflexivity).
  reflexivity.
Qed.

(** Every string either has no separator or splits at its last one. *)
Lemma split_at_last_separator (p : string) :
  noSeparator p = true \/
  exists pre sep base,
    p = pre ++ String sep base /\ isSeparator sep = true /\
    noSeparator base = true.
Proof.
  induction p as [ | a r IH].
  - left. reflexivity.
  - destruct IH as [Hr | (pre & sep & base & E & Hsep & Hbase)].
    + destruct (isSeparator a) eqn:Ea.
      * right. exists EmptyString, a, r. repeat split; assumption.
      * left. cbn [noSeparator]. rewrite Ea, Hr. reflexivity.
    + right. exists (String a pre), sep, base. subst r.
      repeat split; assumption.
Qed.

(** X12 -- [getDirectoryFromPath] cuts a path at its last separator of
    either kind: a path without separator has the empty directory;
    otherwise the path is the directory, one separator and a final
    component that contains no separator. *)
Theorem X12_directory_splits_path (filePath : string) :
  (noSeparator filePath = true /\ getDirectoryFromPath filePath = EmptyString) \/
  (exists sep base,
      filePath = getDirectoryFromPath filePath ++ String sep base /\
      isSeparator sep = true /\ noSeparator base = true).
Proof.
  destruct (split_at_last_separator filePath)
    as [Hp | (pre & sep & base & E & Hsep & Hbase)].
  - left. split; [exact Hp | apply getDirectoryFromPath_noSeparator; exact Hp].
  - right. exists sep, base. subst filePath.
    rewrite getDirectoryFromPath_split by assumption.
    repeat split; assumption.
Qed.

(** X13 -- the deliverables folder is a sibling of the video: whenever
    the video path has a non-empty directory, the directory of
    [getDeliverablesFolderPath] is that directory; a video path without
    directory, including one directly under the root, gives the relative
    folder ["deliverables"]. *)
Theorem X13_deliverables_is_sibling (videoPath : string) :
  (getDirectoryFromPath videoPath <> EmptyString ->
   getDirectoryFromPath (getDeliverablesFolderPath videoPath) =
   getDirectoryFromPath videoPath) /\
  (getDirectoryFromPath videoPath = EmptyString ->
   getDeliverablesFolderPath videoPath = "deliverables") /\
  getDeliverablesFolderPath "/video.mp4" = "deliverables".
Proof.
  split; [ | split].
  - intros Hd. unfold getDeliverablesFolderPath.
    destruct (getDirectoryFromPath videoPath) as [ | a d] eqn:E;
      [contradiction | ].
    cbn [nonEmpty negb].
    apply getDirectoryFromPath_split.
    + destruct (includes backslash videoPath); reflexivity.
    + reflexivity.
  - intros E. unfold getDeliverablesFolderPath. rewrite E. reflexivity.
  - reflexivity.
Qed.

Lemma X13_deliverables_witness :
  getDirectoryFromPath (getDeliverablesFolderPath "C:\videos\site.mp4") =
  getDirectoryFromPath "C:\videos\site.mp4".
Proof.
  apply (proj1 (X13_deliverables_is_sibling "C:\videos\site.mp4")).
  discriminate.
Defined.

End Paths.

Section Times.

Lemma Ztrunc_nonneg (x : R) : 0 <= x -> Ztrunc x = Zfloor x.
Proof.
  intros Hx. unfold Ztrunc. destruct (Rle_dec 0 x); [reflexivity | contradiction].
Qed.

Lemma formatTimeParts_nonneg (seconds : R) :
  0 <= seconds ->
  (0 <= fst (formatTimeParts seconds))%Z /\
  (0 <= snd (formatTimeParts seconds) <= 59)%Z /\
  (60 * fst (formatTimeParts seconds) + snd (formatTimeParts seconds)
   = Zfloor seconds)%Z.
Proof.
  intros Hs. unfold formatTimeParts, remainder. cbn [fst snd].
  assert (Hq : 0 <= seconds / 60) by lra.
  rewrite Ztrunc_nonneg by exact Hq.
  set (m := Zfloor (seconds / 60)).
  pose proof (Zfloor_bound (seconds / 60)) as Hb. fold m in Hb.
  assert (Hm : (0 <= m)%Z) by (apply Zfloor_lub; exact Hq).
  assert (Er : seconds - 60 * IZR m = seconds + IZR (- (60 * m))).
  { rewrite opp_IZR, mult_IZR. ring. }
  rewrite Er, Zfloor_addz.
  assert (Hlo : IZR (60 * m) <= seconds) by (rewrite mult_IZR; lra).
  assert (Hhi : seconds < IZR (60 * m + 60)) by (rewrite plus_IZR, mult_IZR; lra).
  pose proof (Zfloor_bound seconds) as Hf.
  assert (H1 : (60 * m <= Zfloor seconds)%Z) by (apply Zfloor_lub; exact Hlo).
  assert (H2 : (Zfloor seconds < 60 * m + 60)%Z).
  { apply lt_IZR. lra. }
  repeat split; lia.
Qed.

(** X14 -- for a non-negative time, the minutes and seconds that
    [formatTime] prints are non-negative, the seconds are below 60, and
    together they account for exactly the whole seconds elapsed:
    [60 * mins + secs = floor(seconds)]. *)
Theorem X14_formatTime_parts (seconds : R) :
  0 <= seconds ->
  (0 <= fst (formatTimeParts seconds))%Z /\
  (0 <= snd (formatTimeParts seconds) <= 59)%Z /\
  (60 * fst (formatTimeParts seconds) + snd (formatTimeParts seconds)
   = Zfloor seconds)%Z /\
  formatTime seconds =
  (padStart 2 "0" (toString (fst (formatTimeParts seconds))) ++ ":" ++
   padStart 2 "0" (toString (snd (formatTimeParts seconds))))%string.
Proof.
  intros Hs. destruct (formatTimeParts_nonneg seconds Hs) as (H1 & H2 & H3).
  repeat split; try assumption; lia.
Qed.

Lemma X14_formatTime_witness :
  (60 * fst (formatTimeParts (1257 / 10)) + snd (formatTimeParts (1257 / 10))
   = Zfloor (1257 / 10))%Z.
Proof.
  apply (X14_formatTime_parts (1257 / 10)). lra.
Defined.

Lemma padStart_two_digits (z : Z) :
  (0 <= z < 100)%Z -> twoDigits (padStart 2 "0" (toString z)) = true.
Proof.
  intros Hz.
  assert (Hall : forallb (fun n => twoDigits (padStart 2 "0" (toString (Z.of_nat n))))
                         (seq 0 100) = true) by (vm_compute; reflexivity).
  rewrite forallb_forall in Hall.
  rewrite <- (Z2Nat.id z) by lia. apply Hall.
  apply in_seq. lia.
Qed.

(** X15 -- below one hundred minutes [formatTime] prints exactly
    [mm:ss]: two decimal digits, a colon, two decimal digits. *)
Theorem X15_formatTime_shape (seconds : R) :
  0 <= seconds < 6000 ->
  exists m1 m2 s1 s2,
    formatTime seconds =
    String m1 (String m2 (String ":" (String s1 (String s2 EmptyString)))) /\
    isDigit m1 = true /\ isDigit m2 = true /\
    isDigit s1 = true /\ isDigit s2 = true.
Proof.
  intros [Hlo Hhi].
  destruct (formatTimeParts_nonneg seconds Hlo) as (H1 & H2 & H3).
  assert (Hm : (fst (formatTimeParts seconds) < 100)%Z).
  { assert (Zfloor seconds < 6000)%Z.
    { apply lt_IZR. pose proof (Zfloor_bound seconds). lra. }
    lia. }
  pose proof (padStart_two_digits (fst (formatTimeParts seconds))
                                  (conj H1 Hm)) as Pm.
  pose proof (padStart_two_digits (snd (formatTimeParts seconds))
                                  ltac:(lia)) as Ps.
  unfold formatTime.
  destruct (padStart 2 "0" (toString (fst (formatTimeParts seconds))))
    as [ | m1 [ | m2 [ | ? ?]]]; try discriminate.
  destruct (padStart 2 "0" (toString (snd (formatTimeParts seconds))))
    as [ | s1 [ | s2 [ | ? ?]]]; try discriminate.
  cbn [twoDigits] in Pm, Ps.
  apply andb_prop in Pm. apply andb_prop in Ps.
  exists m1, m2, s1, s2. cbn [append]. intuition.
Qed.

Lemma X15_formatTime_witness :
  exists m1 m2 s1 s2,
    formatTime (1257 / 10) =
    String m1 (String m2 (String ":" (String s1 (String s2 EmptyString)))) /\
    isDigit m1 = true /\ isDigit m2 = true /\
    isDigit s1 = true /\ isDigit s2 = true.
Proof.
  apply X15_formatTime_shape. lra.
Defined.

End Times.

(** * Further properties of the overlay component *)

Section GestureProperties.

(** X16 -- outside annotation mode, or with interactions disabled, none
    of the three pointer handlers changes anything; and a press or
    release of a button other than the right one is ignored. *)
Theorem X16_handlers_inert (env : Env) (e : MouseEvent) (s : Overlay) :
  (annotationMode env = false \/ disableInteractions env = true ->
   handleMouseDown env e s = s /\ handleMouseMove env e s = s /\
   handleMouseUp env e s = s) /\
  (button e <> 2%Z ->
   handleMouseDown env e s = s /\ handleMouseUp env e s = s) /\
  (isDrawing s = false ->
   handleMouseMove env e s = s /\ handleMouseUp env e s = s).
Proof.
  unfold handleMouseDown, handleMouseMove, handleMouseUp.
  split; [ | split].
  - intros [H | H]; rewrite H; cbn [negb orb];
      rewrite ?orb_true_r; cbn [orb]; repeat split; reflexivity.
  - intros Hb. apply Z.eqb_neq in Hb. rewrite Hb. cbn [negb].
    rewrite !orb_true_r. split; reflexivity.
  - intros Hd. rewrite Hd. cbn [negb]. rewrite !orb_true_r. cbn [orb].
    split; reflexivity.
Qed.

Lemma X16_handlers_inert_witness :
  handleMouseDown exampleEnv (mkMouseEvent 0 10 10) initialOverlay = initialOverlay /\
  handleMouseUp exampleEnv (mkMouseEvent 0 10 10) initialOverlay = initialOverlay.
Proof.
  apply (proj1 (proj2 (X16_handlers_inert exampleEnv (mkMouseEvent 0 10 10)
                                          initialOverlay))).
  discriminate.
Defined.

Lemma handleMouseMove_drawing (env : Env) (e : MouseEvent) (s : Overlay) :
  annotationMode env = true -> isDrawing s = true ->
  disableInteractions env = false -> canvasMounted env = true ->
  exists cv,
    handleMouseMove env e s =
    set_canvas cv
      (set_currentBox
         (Some (mkBox (Rmin (fst (startPos s)) (clientX e - canvasLeft env))
                      (Rmin (snd (startPos s)) (clientY e - canvasTop env))
                      (Rabs (clientX e - canvasLeft env - fst (startPos s)))
                      (Rabs (clientY e - canvasTop env - snd (startPos s)))))
         s).
Proof.
  intros Hm Hd Hi Hc. unfold handleMouseMove.
  rewrite Hm, Hd, Hi, Hc. cbn [negb orb].
  match goal with
  | |- exists cv, draw ?env ?c ?s' = _ =>
      destruct (draw_shape env c s') as [cv E]; exists cv; rewrite E
  end.
  destruct s. reflexivity.
Qed.

(** X17 -- while a drag is in progress, every pointer move stores a
    rectangle of non-negative size whose horizontal and vertical extents
    run between the start point and the pointer, and changes nothing of
    the pending annotation, the form or the collection. *)
Theorem X17_drag_rectangle (env : Env) (e : MouseEvent) (s : Overlay) :
  annotationMode env = true -> isDrawing s = true ->
  disableInteractions env = false -> canvasMounted env = true ->
  exists b,
    currentBox (handleMouseMove env e s) = Some b /\
    0 <= box_width b /\ 0 <= box_height b /\
    box_x b = Rmin (fst (startPos s)) (clientX e - canvasLeft env) /\
    box_x b + box_width b = Rmax (fst (startPos s)) (clientX e - canvasLeft env) /\
    box_y b = Rmin (snd (startPos s)) (clientY e - canvasTop env) /\
    box_y b + box_height b = Rmax (snd (startPos s)) (clientY e - canvasTop env) /\
    isDrawing (handleMouseMove env e s) = true /\
    pendingBox (handleMouseMove env e s) = pendingBox s /\
    showForm (handleMouseMove env e s) = showForm s /\
    created (handleMouseMove env e s) = created s.
Proof.
  intros Hm Hd Hi Hc.
  destruct (handleMouseMove_drawing env e s Hm Hd Hi Hc) as [cv E].
  rewrite E. eexists. split; [reflexivity | ].
  cbn [box_x box_y box_width box_height].
  assert (Hspan : forall a b : R, Rmin a b + Rabs (b - a) = Rmax a b).
  { intros a b. unfold Rmin, Rmax, Rabs.
    destruct (Rle_dec a b), (Rcase_abs (b - a)); lra. }
  repeat split; try apply Rabs_pos; try apply Hspan; try exact Hd; reflexivity.
Qed.

Lemma X17_drag_rectangle_witness :
  exists b,
    currentBox
      (handleMouseMove exampleEnv (mkMouseEvent 2 300 50)
         (mkOverlay true (400, 100) None false emptyFormData None None false
                    None [] None None true [] [] [])) = Some b /\
    0 <= box_width b /\ 0 <= box_height b.
Proof.
  destruct (X17_drag_rectangle
              exampleEnv (mkMouseEvent 2 300 50)
              (mkOverlay true (400, 100) None false emptyFormData None None false
                         None [] None None true [] [] [])
              eq_refl eq_refl eq_refl eq_refl)
    as (b & E & Hw & Hh & _).
  exists b. split; [exact E | split; assumption].
Defined.

Lemma handleMouseUp_success (env : Env) (e : MouseEvent) (s : Overlay)
    (cb : Box) (camera : THREE.PerspectiveCamera) (rot : CameraRotation) :
  annotationMode env = true -> isDrawing s = true ->
  disableInteractions env = false -> button e = 2%Z ->
  currentBox s = Some cb -> canvasMounted env = true ->
  getCamera env = Some camera -> getCameraRotation env = Some rot ->
  handleMouseUp env e s =
  setShowForm true
    (setFormData emptyFormData
       (setPendingWorldDirection
          (screenToWorldDirection (box_x cb + box_width cb / 2)
                                  (box_y cb + box_height cb / 2)
                                  (width env) (height env) camera rot)
          (setPendingBox
             (Some (mkBox (box_x cb / width env) (box_y cb / height env)
                          (box_width cb / width env) (box_height cb / height env)))
             (pauseVideo env (set_isDrawing false s))))).
Proof.
  intros Hm Hd Hi Hb Hcb Hc Hcam Hrot.
  unfold handleMouseUp. rewrite Hm, Hd, Hi, Hb.
  cbn [negb orb Z.eqb Pos.eqb].
  change (currentBox (set_isDrawing false s)) with (currentBox s).
  rewrite Hcb, Hc, Hcam, Hrot. cbn [negb].
  unfold screenToWorldDirection. reflexivity.
Qed.

Lemma midpoint_of_span (a b : R) : Rmin a b + Rabs (b - a) / 2 = (a + b) / 2.
Proof.
  unfold Rmin, Rabs. destruct (Rle_dec a b), (Rcase_abs (b - a)); lra.
Qed.

(** X18 -- a complete drawing gesture: a right-button press at one
    point, a move to another and a right-button release, with camera and
    pose available, leave the overlay waiting for confirmation: not
    drawing, form shown with fresh form data, the dragged rectangle
    stored normalised by the viewport size, and the pending direction
    that of the midpoint of the drag; nothing is created yet. *)
Theorem X18_gesture_reaches_confirmation
    (env : Env) (e0 e1 e2 : MouseEvent) (s : Overlay)
    (camera : THREE.PerspectiveCamera) (rot : CameraRotation) :
  annotationMode env = true -> disableInteractions env = false ->
  canvasMounted env = true ->
  button e0 = 2%Z -> button e2 = 2%Z ->
  getCamera env = Some camera -> getCameraRotation env = Some rot ->
  let x0 := clientX e0 - canvasLeft env in
  let y0 := clientY e0 - canvasTop env in
  let x1 := clientX e1 - canvasLeft env in
  let y1 := clientY e1 - canvasTop env in
  let s3 := handleMouseUp env e2
              (handleMouseMove env e1 (handleMouseDown env e0 s)) in
  isDrawing s3 = false /\ showForm s3 = true /\
  formData s3 = emptyFormData /\
  pendingBox s3 =
    Some (mkBox (Rmin x0 x1 / width env) (Rmin y0 y1 / height env)
                (Rabs (x1 - x0) / width env) (Rabs (y1 - y0) / height env)) /\
  pendingWorldDirection s3 =
    screenToWorldDirection ((x0 + x1) / 2) ((y0 + y1) / 2)
                           (width env) (height env) camera rot /\
  created s3 = created s.
Proof.
  intros Hm Hi Hc Hb0 Hb2 Hcam Hrot x0 y0 x1 y1 s3.
  assert (E1 : handleMouseDown env e0 s =
               set_currentBox None
                 (set_startPos (x0, y0) (set_isDrawing true (pauseVideo env s)))).
  { unfold handleMouseDown. rewrite Hm, Hi, Hb0, Hc. reflexivity. }
  destruct (handleMouseMove_drawing env e1 (handleMouseDown env e0 s) Hm
              ltac:(rewrite E1; reflexivity) Hi Hc) as [cv E2].
  assert (Hbox : currentBox (handleMouseMove env e1 (handleMouseDown env e0 s)) =
                 Some (mkBox (Rmin x0 x1) (Rmin y0 y1)
                             (Rabs (x1 - x0)) (Rabs (y1 - y0)))).
  { rewrite E2, E1. reflexivity. }
  assert (Hdraw : isDrawing (handleMouseMove env e1 (handleMouseDown env e0 s)) =
                  true).
  { rewrite E2, E1. reflexivity. }
  unfold s3.
  rewrite (handleMouseUp_success env e2 _ _ camera rot Hm Hdraw Hi Hb2 Hbox Hc
                                 Hcam Hrot).
  cbn [box_x box_y box_width box_height].
  rewrite !midpoint_of_span.
  repeat split; try reflexivity.
  all: destruct (pauseVideo_fields
                   env (set_isDrawing false
                          (handleMouseMove env e1 (handleMouseDown env e0 s))))
    as [Ep | Ep]; rewrite Ep, E2, E1;
    destruct (pauseVideo_fields env s) as [Eq | Eq]; rewrite Eq; reflexivity.
Qed.

Lemma X18_gesture_witness :
  pendingBox
    (handleMouseUp exampleEnv (mkMouseEvent 2 300 200)
       (handleMouseMove exampleEnv (mkMouseEvent 2 300 200)
          (handleMouseDown exampleEnv (mkMouseEvent 2 100 100) initialOverlay)))
  = Some (mkBox (Rmin (100 - 0) (300 - 0) / 1920) (Rmin (100 - 0) (200 - 0) / 1080)
                (Rabs (300 - 0 - (100 - 0)) / 1920)
                (Rabs (200 - 0 - (100 - 0)) / 1080)).
Proof.
  apply (X18_gesture_reaches_confirmation
           exampleEnv (mkMouseEvent 2 100 100) (mkMouseEvent 2 300 200)
           (mkMouseEvent 2 300 200) initialOverlay
           (playerCamera 1920 1080) (mkWorldDirection 0 0)
           eq_refl eq_refl eq_refl eq_refl eq_refl eq_refl eq_refl).
Defined.

(** X19 -- cancelling the confirmation discards the pending direction
    and rectangle and hides the form without creating anything, and a
    submission after it does nothing at all. *)
Theorem X19_cancel_discards (env : Env)
    (settle paint release : list Background) (persist : list Activity)
    (s : Overlay) :
  showForm (handleFormCancel s) = false /\
  pendingBox (handleFormCancel s) = None /\
  pendingWorldDirection (handleFormCancel s) = None /\
  currentBox (handleFormCancel s) = None /\
  created (handleFormCancel s) = created s /\
  isCapturingScreenshot (handleFormCancel s) = isCapturingScreenshot s /\
  handleFormSubmit env settle paint release persist (handleFormCancel s) =
  handleFormCancel s.
Proof.
  repeat split.
Qed.

(** X20 -- a submission without primary or secondary description is
    refused: the user is alerted and nothing else changes, so the form
    stays open, the pending annotation is kept, no capture starts and
    nothing is created.  The alert asks for the primary description when
    it is missing, and for the secondary one otherwise. *)
Theorem X20_validation_refuses (env : Env)
    (settle paint release : list Background) (persist : list Activity)
    (s : Overlay) (pb : Box) (pwd : WorldDirection) :
  pendingBox s = Some pb -> pendingWorldDirection s = Some pwd ->
  nonEmpty (fd_primaryDescription (formData s)) = false \/
  nonEmpty (fd_secondaryDescription (formData s)) = false ->
  exists msg,
    handleFormSubmit env settle paint release persist s = alert msg s /\
    (msg = "Please select a primary description."%string \/
     msg = "Please select a secondary description."%string) /\
    (msg = "Please select a primary description."%string <->
     nonEmpty (fd_primaryDescription (formData s)) = false).
Proof.
  intros Hb Hd Hv. unfold handleFormSubmit, submitBegin. rewrite Hb, Hd.
  destruct (nonEmpty (fd_primaryDescription (formData s))) eqn:Ep; cbn [negb].
  - destruct Hv as [Hv | Hv]; [discriminate | ]. rewrite Hv. cbn [negb].
    eexists. split; [reflexivity | ]. split; [right; reflexivity | ].
    split; intros H; discriminate H.
  - eexists. split; [reflexivity | ]. split; [left; reflexivity | ].
    split; reflexivity.
Qed.

Lemma X20_validation_witness :
  exists msg,
    handleFormSubmit exampleEnv [Render] [] [] []
      (mkOverlay false (0, 0) None true emptyFormData
                 (Some (mkBox 0 0 1 1)) (Some (mkWorldDirection 0 0))
                 false None [] None None true [] [] []) =
    alert msg
      (mkOverlay false (0, 0) None true emptyFormData
                 (Some (mkBox 0 0 1 1)) (Some (mkWorldDirection 0 0))
                 false None [] None None true [] [] []) /\
    (msg = "Please select a primary description."%string \/
     msg = "Please select a secondary description."%string) /\
    (msg = "Please select a primary description."%string <->
     nonEmpty (fd_primaryDescription emptyFormData) = false).
Proof.
  apply (X20_validation_refuses
           exampleEnv [Render] [] [] []
           (mkOverlay false (0, 0) None true emptyFormData
                      (Some (mkBox 0 0 1 1)) (Some (mkWorldDirection 0 0))
                      false None [] None None true [] [] [])
           (mkBox 0 0 1 1) (mkWorldDirection 0 0) eq_refl eq_refl).
  left. reflexivity.
Defined.

End GestureProperties.

Section SubmissionProperties.

(** X21 -- an accepted submission whose screenshot encoding does not
    throw creates exactly one annotation and lifts the barrier, whatever
    renders and frames interleave with its waits and whatever the user
    does while the created annotation is handed over (no second
    submission being started meanwhile): not capturing, pending values
    and drag rectangle cleared, no alert; the annotation carries the
    pending direction and box, the playback time, the final colour and
    notes, the next defect number and the current camera pose.  When the
    user does nothing in that last wait the form is hidden and no drag is
    in progress unless one was.  When [canvas.toDataURL] throws the
    submission never finishes: the barrier stays up, the pending values
    are kept and nothing is created. *)
Theorem X21_submission_creates_and_returns_to_idle
    (env : Env) (settle paint release : list Background)
    (persist : list Activity) (s : Overlay)
    (pb : Box) (pwd : WorldDirection) :
  pendingBox s = Some pb -> pendingWorldDirection s = Some pwd ->
  nonEmpty (fd_primaryDescription (formData s)) = true ->
  nonEmpty (fd_secondaryDescription (formData s)) = true ->
  let s' := handleFormSubmit env settle paint release persist s in
  ((forall raster, toDataURL env raster <> None) ->
   isCapturingScreenshot s' = false /\
   pendingBox s' = None /\ pendingWorldDirection s' = None /\
   currentBox s' = None /\ pendingAnnotationForScreenshot s' = None /\
   alerts s' = alerts s /\
   ((forall a, In a persist -> exists ev, a = Tick ev) ->
    showForm s' = false /\ isDrawing s' = isDrawing s) /\
   exists a,
     created s' = created s ++ [a] /\
     worldDirection a = Some pwd /\ box a = Some pb /\
     videoTime a = currentVideoTime env /\
     colour a = finalColor (formData s) /\ notes a = finalNotes (formData s) /\
     defectNumber a = Some (Z.of_nat (List.length (annotations env)) + 1)%Z /\
     cameraRotation a = getCameraRotation env) /\
  (forall sub s4 raster,
      beforeCapture env settle paint s = Some (sub, s4) ->
      capturedRaster env s4 = Some raster -> toDataURL env raster = None ->
      isCapturingScreenshot s' = true /\ created s' = created s /\
      showForm s' = false /\
      pendingBox s' = Some pb /\ pendingWorldDirection s' = Some pwd /\
      pendingAnnotationForScreenshot s' = Some (sub_pendingAnnotation sub)).
Proof.
  intros Hb Hd Hp Hs s'.
  destruct (handleFormSubmit_accepted env settle paint release persist s pb pwd
                                      Hb Hd Hp Hs)
    as (sub & s4 & cv & l & d & msgs & Ebefore & Edata & E).
  split.
  - intros Hurl. unfold s'. rewrite E.
    assert (Hout : exists url, screenshotOutcome env s4 = Resolved url).
    { unfold screenshotOutcome.
      destruct (capturedRaster env s4) as [r | ]; [ | eauto].
      destruct (toDataURL env r) as [url | ] eqn:Er; [eauto | ].
      exfalso. exact (Hurl r Er). }
    destruct Hout as [url Hout]. rewrite Hout.
    match goal with
    | |- context [unblocked ?env' persist ?s7] =>
        destruct (unblocked_keeps env' persist s7) as (K1 & K2 & K3 & K4);
        pose proof (unblocked_ticks env' persist s7) as Kt;
        set (s8 := unblocked env' persist s7) in *
    end.
    split; [exact K1 | ].
    split; [reflexivity | ]. split; [reflexivity | ]. split; [reflexivity | ].
    split; [exact K2 | ]. split; [exact K4 | ].
    split.
    + intros Hticks. destruct (Kt Hticks) as (cv8 & l8 & d8 & E8).
      rewrite E8. split; reflexivity.
    + eexists. split; [exact K3 | ].
      rewrite Edata. cbn. unfold getCameraRotation. repeat split.
  - intros sub' s4' raster Eb Er Hnone.
    rewrite Ebefore in Eb. injection Eb as <- <-.
    unfold s'. rewrite E. unfold screenshotOutcome. rewrite Er, Hnone.
    cbn. repeat split.
Qed.

Lemma X21_submission_witness :
  isCapturingScreenshot
    (handleFormSubmit exampleEnv [Render] [Frame] []
                      [Tick Render; PointerDown (mkMouseEvent 2 10 10)]
                      (exampleOverlay (mkWorldDirection 0 PI))) = false /\
  pendingBox
    (handleFormSubmit exampleEnv [Render] [Frame] []
                      [Tick Render; PointerDown (mkMouseEvent 2 10 10)]
                      (exampleOverlay (mkWorldDirection 0 PI))) = None.
Proof.
  destruct (proj1 (X21_submission_creates_and_returns_to_idle
                     exampleEnv [Render] [Frame] []
                     [Tick Render; PointerDown (mkMouseEvent 2 10 10)]
                     (exampleOverlay (mkWorldDirection 0 PI))
                     (mkBox (100 / 1920) (100 / 1080) (200 / 1920) (100 / 1080))
                     (mkWorldDirection 0 PI) eq_refl eq_refl eq_refl eq_refl))
    as (H1 & H2 & _).
  - intros raster H. discriminate H.
  - split; assumption.
Defined.

(** X22 -- losing the screenshot does not lose the annotation: when the
    video element, the overlay canvas, the renderer canvas or the 2D
    context of the screenshot canvas is missing, an accepted submission
    still creates the annotation, with an empty screenshot. *)
Theorem X22_capture_failure_keeps_annotation
    (env : Env) (settle paint release : list Background)
    (persist : list Activity) (s : Overlay)
    (pb : Box) (pwd : WorldDirection) :
  pendingBox s = Some pb -> pendingWorldDirection s = Some pwd ->
  nonEmpty (fd_primaryDescription (formData s)) = true ->
  nonEmpty (fd_secondaryDescription (formData s)) = true ->
  videoElement env = false \/ canvasMounted env = false \/
  rendererCanvasFound env = false \/ screenshotContext env = false ->
  exists a,
    created (handleFormSubmit env settle paint release persist s)
    = created s ++ [a] /\
    screenshotDataUrl a = EmptyString /\
    worldDirection a = Some pwd /\ box a = Some pb.
Proof.
  intros Hb Hd Hp Hs Hfail.
  destruct (handleFormSubmit_accepted env settle paint release persist s pb pwd
                                      Hb Hd Hp Hs)
    as (sub & s4 & cv & l & d & msgs & _ & Edata & E).
  rewrite E.
  assert (Er : capturedRaster env s4 = None).
  { unfold capturedRaster.
    destruct Hfail as [H | [H | [H | H]]]; rewrite H;
      rewrite ?andb_false_r; reflexivity. }
  unfold screenshotOutcome. rewrite Er.
  change (created (submitReset ?x)) with (created x).
  match goal with
  | |- context [unblocked ?env' persist ?s7] =>
      destruct (unblocked_keeps env' persist s7) as (_ & _ & Hc' & _);
      rewrite Hc'
  end.
  cbn [created].
  eexists. split; [reflexivity | ].
  rewrite Edata. cbn. repeat split.
Qed.

Lemma X22_capture_failure_witness :
  exists a,
    created
      (handleFormSubmit
         (mkEnv true 0 true [] 1920 1080 false true
                (Some (Some (mkWorldDirection 0 0)))
                (Some (Some (playerCamera 1920 1080)))
                true true 0 0 false true false true false false
                (fun _ => None) EmptyString EmptyString)
         [Render] [] []
         [Tick Render; PointerDown (mkMouseEvent 2 10 10)]
         (exampleOverlay (mkWorldDirection 0 PI)))
    = created (exampleOverlay (mkWorldDirection 0 PI)) ++ [a] /\
    screenshotDataUrl a = EmptyString /\
    worldDirection a = Some (mkWorldDirection 0 PI) /\
    box a = Some (mkBox (100 / 1920) (100 / 1080) (200 / 1920) (100 / 1080)).
Proof.
  apply (X22_capture_failure_keeps_annotation
           (mkEnv true 0 true [] 1920 1080 false true
                  (Some (Some (mkWorldDirection 0 0)))
                  (Some (Some (playerCamera 1920 1080)))
                  true true 0 0 false true false true false false
                  (fun _ => None) EmptyString EmptyString)
           [Render] [] []
           [Tick Render; PointerDown (mkMouseEvent 2 10 10)]
           (exampleOverlay (mkWorldDirection 0 PI))
           (mkBox (100 / 1920) (100 / 1080) (200 / 1920) (100 / 1080))
           (mkWorldDirection 0 PI) eq_refl eq_refl eq_refl eq_refl).
  right. right. left. reflexivity.
Defined.

End SubmissionProperties.

Section RiskAndColour.

Lemma validScore_cases (v : Score) :
  validScore v = true ->
  v = NA \/ v = ScoreValue 1 \/ v = ScoreValue 2 \/ v = ScoreValue 3 \/
  v = ScoreValue 4.
Proof.
  destruct v as [ | n]; [auto | ].
  cbn [validScore]. intros H. apply andb_prop in H. destruct H as [H1 H2].
  apply Z.leb_le in H1. apply Z.leb_le in H2.
  assert (n = 1 \/ n = 2 \/ n = 3 \/ n = 4)%Z as [E | [E | [E | E]]] by lia;
    subst n; auto.
Qed.

Lemma getRiskLevel_bands (r : Z) :
  (1 <= r <= 16)%Z ->
  (getRiskLevel r = "Low"%string <-> (r <= 4)%Z) /\
  (getRiskLevel r = "Medium"%string <-> (5 <= r <= 8)%Z) /\
  (getRiskLevel r = "High"%string <-> (9 <= r <= 12)%Z) /\
  (getRiskLevel r = "Extreme"%string <-> (13 <= r)%Z) /\
  getRiskLevel r <> "N/A"%string.
Proof.
  intros Hr. unfold getRiskLevel.
  repeat match goal with
         | |- context [(?a <=? ?b)%Z] => destruct (Z.leb_spec a b)
         end; cbn [andb];
    repeat split; intros; try discriminate; try reflexivity; try lia.
Qed.

Lemma calculateRiskIndex_range (grade drops : Score) :
  validScore grade = true -> validScore drops = true ->
  (1 <= calculateRiskIndex grade drops <= 16)%Z.
Proof.
  intros Hg Hd.
  destruct (validScore_cases grade Hg) as [E | [E | [E | [E | E]]]];
    destruct (validScore_cases drops Hd) as [F | [F | [F | [F | F]]]];
    subst grade drops; cbn; lia.
Qed.

(** X23 -- risk classification: for scores the form can produce (N/A or
    1 to 4, N/A counting as 3) the risk index lies between 1 and 16 and
    the risk level is Low up to 4, Medium up to 8, High up to 12 and
    Extreme above; it is never the fallback ["N/A"]. *)
Theorem X23_risk_classification (grade drops : Score) :
  validScore grade = true -> validScore drops = true ->
  let riskIndex := calculateRiskIndex grade drops in
  (1 <= riskIndex <= 16)%Z /\
  (getRiskLevel riskIndex = "Low"%string <-> (riskIndex <= 4)%Z) /\
  (getRiskLevel riskIndex = "Medium"%string <-> (5 <= riskIndex <= 8)%Z) /\
  (getRiskLevel riskIndex = "High"%string <-> (9 <= riskIndex <= 12)%Z) /\
  (getRiskLevel riskIndex = "Extreme"%string <-> (13 <= riskIndex)%Z) /\
  getRiskLevel riskIndex <> "N/A"%string.
Proof.
  intros Hg Hd riskIndex.
  pose proof (calculateRiskIndex_range grade drops Hg Hd) as Hr.
  split; [exact Hr | ]. apply getRiskLevel_bands. exact Hr.
Qed.

Lemma X23_risk_witness :
  (1 <= calculateRiskIndex NA (ScoreValue 4) <= 16)%Z /\
  getRiskLevel (calculateRiskIndex NA (ScoreValue 4)) <> "N/A"%string.
Proof.
  destruct (X23_risk_classification NA (ScoreValue 4) eq_refl eq_refl)
    as (H1 & _ & _ & _ & _ & H6).
  split; assumption.
Defined.

(** X24 -- the annotation colour: when grade and DROPS are both scored
    the colour the user selected is kept; when one of them is N/A the
    colour follows the other score (1 green, 2 yellow, 3 orange, 4 red)
    whatever the user selected; when both are N/A it is white. *)
Theorem X24_final_colour (fd : FormData) :
  (isNA (fd_grade fd) = false -> isNA (fd_drops fd) = false ->
   finalColor fd = fd_colour fd) /\
  (forall v,
      (fd_grade fd = NA /\ fd_drops fd = ScoreValue v) \/
      (fd_grade fd = ScoreValue v /\ fd_drops fd = NA) ->
      (1 <= v <= 4)%Z ->
      finalColor fd =
      nth (Z.to_nat (v - 1))
          ["#00ff00"; "#ffff00"; "#ffa500"; "#ff0000"]%string EmptyString) /\
  (fd_grade fd = NA -> fd_drops fd = NA -> finalColor fd = "#ffffff"%string).
Proof.
  unfold finalColor, calculateColor.
  split; [ | split].
  - intros Hg Hd. rewrite Hg, Hd. reflexivity.
  - intros v [[Hg Hd] | [Hg Hd]] Hv; rewrite Hg, Hd; cbn [isNA orb];
      assert (v = 1 \/ v = 2 \/ v = 3 \/ v = 4)%Z as [E | [E | [E | E]]] by lia;
      subst v; reflexivity.
  - intros Hg Hd. rewrite Hg, Hd. reflexivity.
Qed.

Lemma X24_final_colour_witness :
  finalColor (mkFormData EmptyString "#0000ff" NA (ScoreValue 3)
                         "Piping & Valves" "Corrosion" EmptyString)
  = "#ffa500"%string.
Proof.
  apply (proj1 (proj2 (X24_final_colour
                         (mkFormData EmptyString "#0000ff" NA (ScoreValue 3)
                                     "Piping & Valves" "Corrosion" EmptyString)))
               3%Z).
  - left. split; reflexivity.
  - lia.
Defined.

End RiskAndColour.

Section LoopProperties.

(** X25 -- the redraw loop is suspended during capture: once a render
    has seen the capture flag, no loop is running and no later tick or
    render touches the overlay canvas. *)
Theorem X25_loop_suspended_during_capture
    (env : Env) (events : list Background) (s : Overlay) :
  isCapturingScreenshot s = true -> loopConsistent s ->
  loop (background env events (render env s)) = None /\
  canvas (background env events (render env s)) = canvas s.
Proof.
  intros Hcap Hcons.
  destruct (render_stops_loop env s Hcap Hcons) as (H1 & H2 & H3).
  destruct (background_suspended env events _ H2 H1) as (_ & G2 & G3).
  rewrite G3, H3. auto.
Qed.

Lemma X25_loop_suspended_witness :
  loop (background exampleEnv [Frame; Frame; Render; Frame]
          (render exampleEnv
             (setIsCapturingScreenshot true (render exampleEnv initialOverlay))))
  = None /\
  canvas (background exampleEnv [Frame; Frame; Render; Frame]
            (render exampleEnv
               (setIsCapturingScreenshot true (render exampleEnv initialOverlay))))
  = canvas (setIsCapturingScreenshot true (render exampleEnv initialOverlay)).
Proof.
  apply X25_loop_suspended_during_capture.
  - reflexivity.
  - unfold loopConsistent. cbn.
    split; [reflexivity | ]. eexists. split; reflexivity.
Defined.

Lemma render_suspends (env : Env) (s : Overlay) :
  isCapturingScreenshot s = true -> loopConsistent s ->
  loopSuspended (render env s).
Proof.
  intros Hcap Hcons.
  destruct (render_stops_loop env s Hcap Hcons) as (H1 & H2 & _).
  split; [exact H2 | split; [exact H1 | ]].
  unfold render.
  destruct (loopDeps s) as [old | ] eqn:Eold.
  - destruct (deps_eqb old (depsOf env s)) eqn:Eq.
    + exists old. split; [exact Eold | ].
      apply deps_eqb_capturing in Eq. rewrite Eq. exact Hcap.
    + rewrite Hcap. exists (depsOf env s). split; [reflexivity | exact Hcap].
  - rewrite Hcap. exists (depsOf env s). split; [reflexivity | exact Hcap].
Qed.

Lemma step_keeps_suspended (env : Env) (ev : Background) (s : Overlay) :
  loopSuspended s ->
  loopSuspended match ev with Frame => frame env s | Render => render env s end.
Proof.
  intros (Hcap & Hloop & Hd). destruct ev.
  - unfold frame. rewrite Hloop. split; [ | split]; assumption.
  - apply render_suspends; [exact Hcap | ].
    unfold loopConsistent. rewrite Hloop. exact I.
Qed.

Lemma background_keeps_suspended (env : Env) (events : list Background)
    (s : Overlay) :
  loopSuspended s -> loopSuspended (background env events s).
Proof.
  revert s. induction events as [ | ev events IH]; intros s Hs.
  - exact Hs.
  - unfold background in *. cbn [fold_left]. apply IH.
    apply step_keeps_suspended. exact Hs.
Qed.

Lemma settle_suspends (env : Env) (events : list Background) (s : Overlay) :
  isCapturingScreenshot s = true -> loopConsistent s -> In Render events ->
  loopSuspended (background env events s).
Proof.
  revert s. induction events as [ | ev events IH]; intros s Hcap Hcons Hin.
  - destruct Hin.
  - unfold background in *. cbn [fold_left].
    destruct Hin as [Hev | Hin].
    + subst ev. apply (background_keeps_suspended env events).
      apply render_suspends; assumption.
    + destruct (step_consistent env ev s Hcap Hcons) as [H1 H2].
      apply IH; assumption.
Qed.

(** A render after the barrier is lifted leaves a loop running. *)
Lemma render_resumes (env : Env) (s : Overlay) :
  loopResuming s ->
  loopResuming (render env s) /\
  exists c, loop (render env s) = Some c /\
            c_isCapturingScreenshot c = false /\
            c_pendingAnnotationForScreenshot c = None.
Proof.
  intros (Hcap & Hpend & Hloop).
  assert (Hrestart :
            loopResuming
              (animate env (closureOf env s)
                       (set_loop (Some (closureOf env s))
                                 (Some (depsOf env s)) s)) /\
            exists c,
              loop (animate env (closureOf env s)
                            (set_loop (Some (closureOf env s))
                                      (Some (depsOf env s)) s)) = Some c /\
              c_isCapturingScreenshot c = false /\
              c_pendingAnnotationForScreenshot c = None).
  { unfold animate. cbn [closureOf c_isCapturingScreenshot].
    rewrite Hcap. cbn [negb].
    match goal with
    | |- context [draw env ?c ?s1] =>
        destruct (draw_shape env c s1) as [cv E]; rewrite E
    end.
    cbn [loop loopDeps set_loop set_canvas].
    assert (Hc : c_isCapturingScreenshot (closureOf env s) = false /\
                 c_pendingAnnotationForScreenshot (closureOf env s) = None).
    { split; [exact Hcap | exact Hpend]. }
    split.
    - split; [exact Hcap | ]. split; [exact Hpend | ].
      right. eexists. split; [reflexivity | exact Hc].
    - eexists. split; [reflexivity | exact Hc]. }
  unfold render.
  destruct Hloop as [[Hnone [d [Ed Hd]]] | [c [Ec [Hc1 Hc2]]]].
  - rewrite Ed.
    assert (Eq : deps_eqb d (depsOf env s) = false).
    { unfold deps_eqb. cbn [depsOf d_isCapturingScreenshot].
      rewrite Hd, Hcap. cbn [Bool.eqb]. apply andb_false_r. }
    rewrite Eq, Hcap. exact Hrestart.
  - destruct (match loopDeps s with
              | Some old => deps_eqb old (depsOf env s)
              | None => false
              end).
    + split.
      * split; [exact Hcap | ]. split; [exact Hpend | ].
        right. exists c. auto.
      * exists c. auto.
    + rewrite Hcap. exact Hrestart.
Qed.

(** A tick after the barrier is lifted keeps the loop as it is. *)
Lemma frame_resumes (env : Env) (s : Overlay) :
  loopResuming s ->
  loopResuming (frame env s) /\ loop (frame env s) = loop s.
Proof.
  intros (Hcap & Hpend & Hloop). unfold frame, animate.
  destruct (loop s) as [c | ] eqn:El.
  - destruct (negb (c_isCapturingScreenshot c)).
    + destruct (draw_shape env c s) as [cv E]. rewrite E.
      cbn [loop loopDeps set_loop set_canvas].
      split; [ | exact El].
      split; [exact Hcap | ]. split; [exact Hpend | ].
      rewrite El. exact Hloop.
    + split; [ | exact El].
      split; [exact Hcap | ]. split; [exact Hpend | ].
      rewrite El. exact Hloop.
  - split; [ | exact El].
    split; [exact Hcap | ]. split; [exact Hpend | ].
    rewrite El. exact Hloop.
Qed.

Lemma unblocked_resumes (env : Env) (events : list Activity) (s : Overlay) :
  loopResuming s ->
  loopResuming (unblocked env events s) /\
  (~ In (Tick Render) events -> loop (unblocked env events s) = loop s) /\
  ((In (Tick Render) events \/ loop s <> None) ->
   exists c, loop (unblocked env events s) = Some c /\
             c_isCapturingScreenshot c = false /\
             c_pendingAnnotationForScreenshot c = None).
Proof.
  revert s. induction events as [ | a events IH]; intros s Hs.
  - split; [exact Hs | ]. split; [reflexivity | ].
    intros [[] | Hne]. destruct Hs as (_ & _ & [[Hnone _] | Hc]).
    + contradiction.
    + exact Hc.
  - unfold unblocked in *. cbn [fold_left].
    assert (Hkeep : forall a0,
               (forall ev, a0 <> Tick ev) ->
               loopResuming (act env s a0) /\ loop (act env s a0) = loop s).
    { intros a0 Hn.
      destruct (handlers_keep env a0 s Hn) as (K1 & K2 & _ & _ & K5 & K6).
      split; [ | exact K5].
      destruct Hs as (Hcap & Hpend & Hloop).
      split; [rewrite K1; exact Hcap | ].
      split; [rewrite K2; exact Hpend | ].
      rewrite K5, K6. exact Hloop. }
    destruct a as [[ | ] | e | e | e | fd | ].
    + destruct (frame_resumes env s Hs) as [Hf El].
      destruct (IH _ Hf) as (I1 & I2 & I3).
      split; [exact I1 | ]. split.
      * intros Hn. cbn [act]. rewrite I2, El; [reflexivity | ].
        intros Hin. apply Hn. right. exact Hin.
      * intros [[Hev | Hin] | Hne].
        -- discriminate Hev.
        -- apply I3. left. exact Hin.
        -- apply I3. right. cbn [act]. rewrite El. exact Hne.
    + destruct (render_resumes env s Hs) as [Hr [c [Ec Hc]]].
      destruct (IH _ Hr) as (I1 & I2 & I3).
      split; [exact I1 | ]. split.
      * intros Hn. exfalso. apply Hn. left. reflexivity.
      * intros _. apply I3. right. cbn [act]. rewrite Ec. discriminate.
    + destruct (Hkeep (PointerDown e)) as [Hf El]; [discriminate | ].
      destruct (IH _ Hf) as (I1 & I2 & I3).
      split; [exact I1 | ]. split.
      * intros Hn. rewrite I2, El; [reflexivity | ].
        intros Hin. apply Hn. right. exact Hin.
      * intros [[Hev | Hin] | Hne].
        -- discriminate Hev.
        -- apply I3. left. exact Hin.
        -- apply I3. right. rewrite El. exact Hne.
    + destruct (Hkeep (PointerMove e)) as [Hf El]; [discriminate | ].
      destruct (IH _ Hf) as (I1 & I2 & I3).
      split; [exact I1 | ]. split.
      * intros Hn. rewrite I2, El; [reflexivity | ].
        intros Hin. apply Hn. right. exact Hin.
      * intros [[Hev | Hin] | Hne].
        -- discriminate Hev.
        -- apply I3. left. exact Hin.
        -- apply I3. right. rewrite El. exact Hne.
    + destruct (Hkeep (PointerUp e)) as [Hf El]; [discriminate | ].
      destruct (IH _ Hf) as (I1 & I2 & I3).
      split; [exact I1 | ]. split.
      * intros Hn. rewrite I2, El; [reflexivity | ].
        intros Hin. apply Hn. right. exact Hin.
      * intros [[Hev | Hin] | Hne].
        -- discriminate Hev.
        -- apply I3. left. exact Hin.
        -- apply I3. right. rewrite El. exact Hne.
    + destruct (Hkeep (FormChange fd)) as [Hf El]; [discriminate | ].
      destruct (IH _ Hf) as (I1 & I2 & I3).
      split; [exact I1 | ]. split.
      * intros Hn. rewrite I2, El; [reflexivity | ].
        intros Hin. apply Hn. right. exact Hin.
      * intros [[Hev | Hin] | Hne].
        -- discriminate Hev.
        -- apply I3. left. exact Hin.
        -- apply I3. right. rewrite El. exact Hne.
    + destruct (Hkeep FormCancel) as [Hf El]; [discriminate | ].
      destruct (IH _ Hf) as (I1 & I2 & I3).
      split; [exact I1 | ]. split.
      * intros Hn. rewrite I2, El; [reflexivity | ].
        intros Hin. apply Hn. right. exact Hin.
      * intros [[Hev | Hin] | Hne].
        -- discriminate Hev.
        -- apply I3. left. exact Hin.
        -- apply I3. right. rewrite El. exact Hne.
Qed.

(** X26 -- the redraw loop resumes after the protocol: when a render
    committed during the first wait of an accepted submission and the
    screenshot encoding does not throw, the loop is restarted by the
    first render that commits after the barrier is lifted.  If one
    commits while [onAnnotationCreate] is awaited, a loop is already
    running when [handleFormSubmit] returns; if none does, no loop is
    running then; in both cases the loop that runs after the next render,
    under whatever props, is not capturing and has no pending annotation
    left to draw. *)
Theorem X26_loop_resumes_after_capture
    (env : Env) (settle paint release : list Background)
    (persist : list Activity) (s : Overlay)
    (pb : Box) (pwd : WorldDirection) :
  pendingBox s = Some pb -> pendingWorldDirection s = Some pwd ->
  nonEmpty (fd_primaryDescription (formData s)) = true ->
  nonEmpty (fd_secondaryDescription (formData s)) = true ->
  loopConsistent s -> In Render settle ->
  (forall raster, toDataURL env raster <> None) ->
  let s' := handleFormSubmit env settle paint release persist s in
  (In (Tick Render) persist ->
   exists c, loop s' = Some c /\ c_isCapturingScreenshot c = false /\
             c_pendingAnnotationForScreenshot c = None) /\
  (~ In (Tick Render) persist -> loop s' = None) /\
  (forall env' : Env,
      exists c, loop (render env' s') = Some c /\
                c_isCapturingScreenshot c = false /\
                c_pendingAnnotationForScreenshot c = None).
Proof.
  intros Hb Hd Hp Hs Hcons Hin Hurl s'.
  pose proof (submitBegin_accepts env s pb pwd Hb Hd Hp Hs) as Ebegin.
  assert (Hend : exists env8 s7,
             s' = submitReset (unblocked env8 persist s7) /\
             loopResuming s7 /\ loop s7 = None).
  { unfold s', handleFormSubmit. rewrite Ebegin.
    match goal with
    | |- context [background env settle ?s1] =>
        assert (H2 : loopSuspended (background env settle s1))
          by (apply settle_suspends; [reflexivity | exact Hcons | exact Hin]);
        set (s2 := background env settle s1) in *
    end.
    match goal with
    | |- context [forcedRedraw env ?sub s2] =>
        destruct (forcedRedraw_shape env sub s2) as (cv3 & E3); rewrite E3
    end.
    assert (H3 : loopSuspended (set_canvas cv3 s2)) by exact H2.
    pose proof (background_keeps_suspended env paint _ H3) as H4.
    set (s4 := background env paint (set_canvas cv3 s2)) in *.
    destruct (capture_result env s4) as [Eout _].
    destruct (capture_shape env s4) as [msgs Ecap].
    assert (Hout : exists url, screenshotOutcome env s4 = Resolved url).
    { unfold screenshotOutcome.
      destruct (capturedRaster env s4) as [r | ]; [ | eauto].
      destruct (toDataURL env r) as [url | ] eqn:Er; [eauto | ].
      exfalso. exact (Hurl r Er). }
    destruct Hout as [url Hout]. rewrite Hout in Eout, Ecap.
    destruct (capture env s4) as [outcome s5]. cbn [fst snd] in Eout, Ecap.
    subst outcome s5.
    assert (H5 : loopSuspended
                   (setPendingAnnotationForScreenshot None (logAll msgs s4))).
    { rewrite logAll_shape. exact H4. }
    pose proof (background_keeps_suspended env release _ H5) as H6.
    destruct (background_shape
                env release
                (setPendingAnnotationForScreenshot None (logAll msgs s4)))
      as (cv6 & l6 & d6 & E6).
    eexists. eexists. split; [reflexivity | ].
    destruct H6 as (_ & Hloop6 & Hdeps6).
    split; [ | exact Hloop6].
    split; [reflexivity | ]. split.
    - unfold submitCreate. rewrite E6. reflexivity.
    - left. split; [exact Hloop6 | exact Hdeps6]. }
  destruct Hend as (env8 & s7 & Es' & Hres & Hnone).
  destruct (unblocked_resumes env8 persist s7 Hres) as (R1 & R2 & R3).
  assert (Hres' : loopResuming s').
  { rewrite Es'. exact R1. }
  split; [ | split].
  - intros Hr. rewrite Es'. apply R3. left. exact Hr.
  - intros Hn. rewrite Es'.
    change (loop (submitReset (unblocked env8 persist s7)))
      with (loop (unblocked env8 persist s7)).
    rewrite (R2 Hn). exact Hnone.
  - intros env'. apply (render_resumes env' s' Hres').
Qed.

Lemma X26_loop_resumes_witness :
  exists c,
    loop (handleFormSubmit exampleEnv [Render] [Frame] [Render]
                           [Tick Render; Tick Frame]
                           (exampleOverlay (mkWorldDirection 0 PI)))
    = Some c /\
    c_isCapturingScreenshot c = false /\
    c_pendingAnnotationForScreenshot c = None.
Proof.
  apply (proj1 (X26_loop_resumes_after_capture
                  exampleEnv [Render] [Frame] [Render]
                  [Tick Render; Tick Frame]
                  (exampleOverlay (mkWorldDirection 0 PI))
                  (mkBox (100 / 1920) (100 / 1080) (200 / 1920) (100 / 1080))
                  (mkWorldDirection 0 PI) eq_refl eq_refl eq_refl eq_refl I
                  (or_introl eq_refl)
                  (fun raster H => eq_ind (Some "data:image/png;base64,"%string)
                                     (fun o => match o with
                                               | Some _ => True
                                               | None => False
                                               end) I None H))).
  left. reflexivity.
Defined.

End LoopProperties.

(** ** The pan controls of the player *)

Section PanControls.

Import Video360Player.

Lemma clampPhi_range (p : R) : - PI / 2 <= clampPhi p <= PI / 2.
Proof.
  pose proof PI_RGT_0 as Hpi.
  unfold clampPhi, JsMath.max, JsMath.min, Rmax, Rmin.
  destruct (Rle_dec (PI / 2) p); destruct (Rle_dec _ _); lra.
Qed.

Lemma clampPhi_fixed (p : R) : - PI / 2 <= p <= PI / 2 -> clampPhi p = p.
Proof.
  intros Hp. unfold clampPhi, JsMath.max, JsMath.min, Rmax, Rmin.
  destruct (Rle_dec (PI / 2) p); destruct (Rle_dec _ _); lra.
Qed.

Lemma step_panInvariant (s : State) (pe : Page * Event) :
  panInvariant s -> panInvariant (step s pe).
Proof.
  intros [Hphi Hlook]. destruct pe as [page ev]. unfold step. cbn [fst snd].
  destruct ev as [e | e | | p t | ].
  - unfold handleMouseDown.
    destruct (isPresenting page); [split; assumption | ].
    destruct (negb _); split; assumption.
  - unfold handleMouseMove.
    destruct (isPresenting page); [split; assumption | ].
    destruct (negb (isDragging s) || negb (cameraRef page));
      [split; assumption | ].
    split; cbn [cameraRotation lookAt phi].
    + apply clampPhi_range.
    + intros t0 Ht. injection Ht as <-. apply length_directionVector.
  - split; assumption.
  - unfold restoreCameraView. split; cbn [cameraRotation lookAt phi].
    + apply clampPhi_range.
    + destruct (cameraRef page); [ | exact Hlook].
      intros t0 Ht. injection Ht as <-. apply length_directionVector.
  - split; [exact Hphi | ]. intros t0 Ht. discriminate Ht.
Qed.

Lemma run_panInvariant (events : list (Page * Event)) (s : State) :
  panInvariant s -> panInvariant (run events s).
Proof.
  revert s. induction events as [ | pe events IH]; intros s Hs.
  - exact Hs.
  - unfold run in *. cbn [fold_left]. apply IH, step_panInvariant, Hs.
Qed.

Lemma initial_panInvariant : panInvariant initial.
Proof.
  pose proof PI_RGT_0 as Hpi. split.
  - cbn. lra.
  - intros t Ht. discriminate Ht.
Qed.

(** X27 -- the pan controls never flip the camera: whatever sequence of
    mouse downs, moves, ups, view restorations and scene creations the
    player goes through from its initial state, the pitch it keeps stays
    within [-PI/2, PI/2] and every point handed to [camera.lookAt] lies
    on the unit sphere. *)
Theorem X27_pan_keeps_pitch_in_range (events : list (Page * Event)) :
  - PI / 2 <= phi (cameraRotation (run events initial)) <= PI / 2 /\
  forall t, lookAt (run events initial) = Some t -> THREE.length t = 1.
Proof. exact (run_panInvariant events initial initial_panInvariant). Qed.

Lemma X27_pan_witness :
  let page := mkPage false true in
  let events := [(page, MouseDown (mkMouseEvent 0 100 100));
                 (page, MouseMove (mkMouseEvent 0 300 900));
                 (page, RestoreCameraView 4 1);
                 (page, MouseUp)] in
  - PI / 2 <= phi (cameraRotation (run events initial)) <= PI / 2 /\
  forall t, lookAt (run events initial) = Some t -> THREE.length t = 1.
Proof.
  intros page events. apply (X27_pan_keeps_pitch_in_range events).
Defined.

Lemma step_inSync (s : State) (pe : Page * Event) :
  cameraRef (fst pe) = true -> inSync s -> inSync (step s pe).
Proof.
  intros Hcam Hs. destruct pe as [page ev]. cbn [fst] in Hcam.
  unfold step. cbn [fst snd].
  destruct ev as [e | e | | p t | ].
  - unfold handleMouseDown.
    destruct (isPresenting page); [exact Hs | ].
    destruct (negb _); exact Hs.
  - unfold handleMouseMove.
    destruct (isPresenting page); [exact Hs | ].
    destruct (negb (isDragging s) || negb (cameraRef page)); [exact Hs | ].
    intros t0 Ht. injection Ht as <-. reflexivity.
  - exact Hs.
  - unfold restoreCameraView, inSync. cbn [lookAt cameraRotation].
    rewrite Hcam. intros t0 Ht. injection Ht as <-. reflexivity.
  - intros t0 Ht. discriminate Ht.
Qed.

Lemma run_inSync (events : list (Page * Event)) (s : State) :
  Forall (fun pe => cameraRef (fst pe) = true) events ->
  inSync s -> inSync (run events s).
Proof.
  revert s. induction events as [ | pe events IH]; intros s Hall Hs.
  - exact Hs.
  - unfold run in *. cbn [fold_left].
    inversion Hall as [ | pe' events' Hpe Hrest]; subst.
    apply IH; [exact Hrest | ]. apply step_inSync; assumption.
Qed.

Lemma directionVector_initial :
  directionVector (mkWorldDirection 0 0) = THREE.mkVector3 0 0 1.
Proof.
  unfold directionVector. cbn [phi theta].
  rewrite sin_0, cos_0. f_equal; ring.
Qed.

(** X28 -- restoring a saved view: with the camera present, the
    rotation read with [getCameraRotation] in a reachable state is what
    [restoreCameraView] puts back after any further panning, and the
    camera is turned to its direction.  When the camera had been turned
    at least once since it was created, that is exactly where it was
    aimed when the view was saved.  When it had not, it is not in
    general: a new camera faces [(0, 0, -1)] and the restoration turns it
    to the direction of the stored rotation; for a view saved in the
    initial state that is [(0, 0, 1)], the opposite direction. *)
Theorem X28_saved_view_is_restored
    (before after : list (Page * Event)) (page : Page) (r : CameraRotation) :
  Forall (fun pe => cameraRef (fst pe) = true) before ->
  cameraRef page = true ->
  getCameraRotation (run before initial) = Some r ->
  let s := run before initial in
  let s' := restoreCameraView page (phi r) (theta r) (run after s) in
  getCameraRotation s' = Some r /\
  lookAt s' = Some (directionVector r) /\
  (lookAt s <> None -> aim s' = aim s) /\
  (lookAt s = None ->
   aim s = THREE.mkVector3 0 0 (-1) /\ aim s' = directionVector r) /\
  (before = [] ->
   aim s = THREE.mkVector3 0 0 (-1) /\ aim s' = THREE.mkVector3 0 0 1).
Proof.
  intros Hall Hcam Hr s s'.
  destruct (run_panInvariant before initial initial_panInvariant) as [Hphi _].
  assert (Hsync : inSync s).
  { apply run_inSync; [exact Hall | ]. intros t Ht. discriminate Ht. }
  unfold getCameraRotation in Hr. injection Hr as Hr. fold s in Hr, Hphi.
  assert (Hrot : cameraRotation s = r).
  { rewrite <- Hr. destruct (cameraRotation s). reflexivity. }
  assert (Hc : clampPhi (phi r) = phi r).
  { apply clampPhi_fixed. rewrite <- Hrot. exact Hphi. }
  assert (Hlook : lookAt s' = Some (directionVector r)).
  { unfold s', restoreCameraView. cbn [lookAt]. rewrite Hcam, Hc.
    destruct r. reflexivity. }
  split; [ | split; [exact Hlook | split; [ | split]]].
  - unfold s', restoreCameraView, getCameraRotation.
    cbn [cameraRotation phi theta]. rewrite Hc. destruct r. reflexivity.
  - intros Hturned. unfold aim. rewrite Hlook.
    destruct (lookAt s) as [t | ] eqn:El; [ | contradiction].
    rewrite (Hsync t El), Hrot. reflexivity.
  - intros Hnever. unfold aim. rewrite Hlook, Hnever.
    split; reflexivity.
  - intros Hempty. unfold aim. rewrite Hlook.
    assert (Es : s = initial) by (unfold s; rewrite Hempty; reflexivity).
    rewrite Es in *. cbn [lookAt initial].
    split; [reflexivity | ].
    rewrite <- Hrot. apply directionVector_initial.
Qed.

Lemma X28_saved_view_witness :
  let page := mkPage false true in
  let before := [(page, SceneCreated);
                 (page, MouseDown (mkMouseEvent 0 100 100));
                 (page, MouseMove (mkMouseEvent 0 300 40))] in
  let after := [(page, MouseMove (mkMouseEvent 0 900 700)); (page, MouseUp);
                (page, SceneCreated)] in
  aim (restoreCameraView page
         (phi (cameraRotation (run before initial)))
         (theta (cameraRotation (run before initial)))
         (run after (run before initial)))
  = aim (run before initial).
Proof.
  intros page before after.
  assert (Hall : Forall (fun pe => cameraRef (fst pe) = true) before)
    by (repeat constructor).
  destruct (X28_saved_view_is_restored
              before after page
              (mkWorldDirection (phi (cameraRotation (run before initial)))
                                (theta (cameraRotation (run before initial))))
              Hall eq_refl eq_refl)
    as (_ & _ & H & _).
  apply H. discriminate.
Defined.

Lemma step_move (page : Page) (e : MouseEvent) (s : State) :
  isPresenting page = false -> cameraRef page = true -> isDragging s = true ->
  step s (page, MouseMove e) =
  let rotation :=
    mkWorldDirection
      (clampPhi (phi (cameraRotation s) +
                 (clientY e - snd (previousMousePosition s)) * (5 / 1000)))
      (theta (cameraRotation s) -
       (clientX e - fst (previousMousePosition s)) * (5 / 1000)) in
  mkState true (clientX e, clientY e) rotation (Some (directionVector rotation)).
Proof.
  intros Hp Hc Hd. unfold step. cbn [fst snd]. unfold handleMouseMove.
  rewrite Hp, Hd, Hc. reflexivity.
Qed.

Lemma run_moves (page : Page) (moves : list MouseEvent) (s : State) :
  isPresenting page = false -> cameraRef page = true -> isDragging s = true ->
  let s' := run (map (fun e => (page, MouseMove e)) moves) s in
  isDragging s' = true /\
  previousMousePosition s' = lastPosition moves (previousMousePosition s) /\
  theta (cameraRotation s') =
  theta (cameraRotation s) -
  (fst (previousMousePosition s') - fst (previousMousePosition s)) * (5 / 1000).
Proof.
  intros Hp Hc. revert s. induction moves as [ | e moves IH]; intros s Hd.
  - cbn. repeat split; try assumption. ring.
  - cbn [map].
    change (run ((page, MouseMove e) :: map (fun e => (page, MouseMove e)) moves) s)
      with (run (map (fun e => (page, MouseMove e)) moves)
                (step s (page, MouseMove e))).
    rewrite (step_move page e s Hp Hc Hd). cbv zeta.
    match goal with
    | |- context [run _ ?s1] =>
        destruct (IH s1 eq_refl) as (I1 & I2 & I3);
        cbn [previousMousePosition cameraRotation theta fst] in I2, I3
    end.
    split; [exact I1 | ]. split.
    + rewrite I2. reflexivity.
    + rewrite I3. cbn [fst]. ring.
Qed.

(** X29 -- a drag turns the camera by the pointer's travel: while the
    left button is held outside VR, the yaw after any number of mouse
    moves is the yaw at the start minus 0.005 radians per pixel between
    the first and the last pointer position, whatever path was taken. *)
Theorem X29_drag_turns_by_pointer_travel
    (page : Page) (moves : list MouseEvent) (s : State) :
  isPresenting page = false -> cameraRef page = true -> isDragging s = true ->
  let s' := run (map (fun e => (page, MouseMove e)) moves) s in
  previousMousePosition s' = lastPosition moves (previousMousePosition s) /\
  theta (cameraRotation s') =
  theta (cameraRotation s) -
  (fst (lastPosition moves (previousMousePosition s)) -
   fst (previousMousePosition s)) * (5 / 1000).
Proof.
  intros Hp Hc Hd s'.
  destruct (run_moves page moves s Hp Hc Hd) as (_ & I2 & I3).
  fold s' in I2, I3. split; [exact I2 | ]. rewrite <- I2. exact I3.
Qed.

Lemma X29_drag_witness :
  let page := mkPage false true in
  let s := handleMouseDown page (mkMouseEvent 0 100 100) initial in
  let moves := [mkMouseEvent 0 180 90; mkMouseEvent 0 40 300;
                mkMouseEvent 0 300 120] in
  theta (cameraRotation (run (map (fun e => (page, MouseMove e)) moves) s)) =
  0 - (300 - 100) * (5 / 1000).
Proof.
  intros page s moves.
  apply (X29_drag_turns_by_pointer_travel page moves s eq_refl eq_refl eq_refl).
Defined.

End PanControls.

(** ** The round trip for a camera turned about the origin *)

Section RotatedCamera.

Import THREE.

Lemma directionVector_of_unit (u : Vector3) :
  length u = 1 ->
  directionVector (mkWorldDirection (asin (vy u)) (JsMath.atan2 (vx u) (vz u))) = u.
Proof.
  intros Hl.
  destruct (Req_dec_T (vx u) 0) as [Hx | Hx];
    [ | apply directionVector_of_angles; auto].
  destruct (Req_dec_T (vz u) 0) as [Hz | Hz];
    [ | apply directionVector_of_angles; auto].
  destruct u as [a b c]. simpl in *. subst a c.
  unfold length in Hl. simpl in Hl.
  assert (Hsq : 0 * 0 + b * b + 0 * 0 = 1).
  { apply sqrt_lem_0 in Hl; [lra | apply sqr_sum_nonneg | lra]. }
  assert (Hb : -1 <= b <= 1) by (split; nra).
  unfold directionVector. simpl.
  rewrite sin_asin, cos_asin by assumption.
  replace (1 - b²) with 0 by (unfold Rsqr; lra).
  rewrite sqrt_0. f_equal; ring.
Qed.

Lemma applyMatrix4_linear_scaled (m : Matrix4) (v : Vector3) (k : R) :
  viewIsLinear m ->
  applyMatrix4 (multiplyScalar v k) m = multiplyScalar (applyMatrix4 v m) k.
Proof.
  intros (H3 & H7 & H11 & H15 & H12 & H13 & H14).
  unfold applyMatrix4, multiplyScalar. simpl.
  rewrite H3, H7, H11, H15, H12, H13, H14.
  f_equal; field.
Qed.

Lemma setFromMatrixPosition_linear (m : Matrix4) :
  viewIsLinear m -> setFromMatrixPosition m = mkVector3 0 0 0.
Proof.
  intros (_ & _ & _ & _ & H12 & H13 & H14).
  unfold setFromMatrixPosition. rewrite H12, H13, H14. reflexivity.
Qed.

Lemma sub_origin (v : Vector3) : sub v (mkVector3 0 0 0) = v.
Proof. destruct v. unfold sub. simpl. f_equal; ring. Qed.

Variables (fov0 px py c d : R) (world view : Matrix4).
Hypothesis Hpx : px <> 0.
Hypothesis Hpy : py <> 0.
Hypothesis Hd : d <> 0.
Hypothesis Hw : 0 < 1 / (1 / d * (1 / 2) + c / d).
Hypothesis Hrot : isRotation world view.

Let P := symmetricPerspective px py c d.
Let cam := mkCamera fov0 world view P (invertPerspective P).

Lemma ray_direction_rotated (nx ny : R) :
  direction (setFromCamera (mkVector2 nx ny) cam) =
  normalize (applyMatrix4 (eyePoint px py nx ny) world).
Proof.
  destruct Hrot as (Hlw & Hlv & Hinv & Hiso).
  pose proof (length_eyePoint px py nx ny) as Hl.
  unfold setFromCamera, unproject, cam, P. cbn [matrixWorld projectionMatrixInverse
    direction v2x v2y].
  rewrite (setFromMatrixPosition_linear world Hlw), sub_origin.
  assert (E : applyMatrix4 (mkVector3 nx ny (1 / 2))
                           (invertPerspective (symmetricPerspective px py c d)) =
              multiplyScalar (eyePoint px py nx ny)
                             (1 / (1 / d * (1 / 2) + c / d))).
  { unfold applyMatrix4, multiplyScalar, eyePoint, invertPerspective,
      symmetricPerspective. simpl.
    replace (0 * nx + 0 * ny + 1 / d * (1 / 2) + c / d)
      with (1 / d * (1 / 2) + c / d) by ring.
    set (k := 1 / (1 / d * (1 / 2) + c / d)).
    f_equal; field; assumption. }
  rewrite E, (applyMatrix4_linear_scaled world _ _ Hlw).
  apply normalize_scaled; [exact Hw | ]. rewrite Hiso. lra.
Qed.

Lemma clip_of_ray_rotated (nx ny : R) :
  let ray := normalize (direction (setFromCamera (mkVector2 nx ny) cam)) in
  clipVector (mkWorldDirection (asin (vy ray)) (JsMath.atan2 (vx ray) (vz ray))) cam =
  mkVector3 nx ny (- c + d * length (eyePoint px py nx ny)).
Proof.
  intros ray. subst ray.
  pose proof (length_eyePoint px py nx ny) as Hl.
  rewrite ray_direction_rotated.
  destruct Hrot as (Hlw & Hlv & Hinv & Hiso).
  set (e := eyePoint px py nx ny) in *.
  assert (Hne : length (applyMatrix4 e world) <> 0) by (rewrite Hiso; lra).
  rewrite (normalize_unit (normalize _)) by (apply length_normalize; exact Hne).
  unfold clipVector.
  rewrite normalize_directionVector.
  rewrite directionVector_of_unit by (apply length_normalize; exact Hne).
  assert (E : normalize (applyMatrix4 e world) =
              applyMatrix4 (multiplyScalar e (1 / length e)) world).
  { rewrite (applyMatrix4_linear_scaled world _ _ Hlw).
    rewrite normalize_components by exact Hne. rewrite Hiso.
    unfold multiplyScalar. f_equal; field; lra. }
  rewrite E. unfold project, cam. cbn [matrixWorldInverse projectionMatrix].
  rewrite Hinv.
  set (L := length e) in *. clearbody L.
  unfold applyMatrix4, multiplyScalar, P, symmetricPerspective, e, eyePoint.
  simpl.
  f_equal; field; repeat split; assumption || lra.
Qed.

End RotatedCamera.

Section RoundTripAnyOrientation.

Import THREE.

Lemma makeRotationY_isRotation (a : R) :
  isRotation (makeRotationY a) (makeRotationY (- a)).
Proof.
  pose proof (sin2_cos2 a) as Hsc. unfold Rsqr in Hsc.
  unfold isRotation, viewIsLinear, makeRotationY. simpl.
  repeat split; try reflexivity.
  - intros [x y z]. unfold applyMatrix4. simpl.
    rewrite sin_neg, cos_neg.
    f_equal.
    + transitivity (x * (sin a * sin a + cos a * cos a));
        [field | rewrite Hsc; ring].
    + field.
    + transitivity (z * (sin a * sin a + cos a * cos a));
        [field | rewrite Hsc; ring].
  - intros [x y z]. unfold applyMatrix4, length. simpl. f_equal.
    transitivity ((x * x + z * z) * (sin a * sin a + cos a * cos a) + y * y);
      [field | rewrite Hsc; ring].
Qed.

(** X30 -- the round trip holds at every camera orientation: for a
    camera at the origin turned by any rotation, with the projection of
    [new THREE.PerspectiveCamera(fov, aspect, near, far)], a pointer
    position strictly inside the viewport is sent to a direction that
    [worldDirectionToScreen] projects back to exactly that position. *)
Theorem X30_round_trip_any_orientation
    (x y W H fov aspect near far : R) (rot : CameraRotation)
    (world view : Matrix4) :
  0 < x < W -> 0 < y < H ->
  0 < fov < 180 -> 0 < aspect -> 0 < near < far -> 1 <= far ->
  isRotation world view ->
  let camera := withPose (newPerspectiveCamera fov aspect near far) world view in
  exists dir,
    screenToWorldDirection x y W H camera rot = Some dir /\
    worldDirectionToScreen dir W H camera = Some (mkScreenPoint x y).
Proof.
  intros Hx Hy Hfov Ha Hnf Hfar Hrot camera.
  pose proof (half_fov_tan_pos fov Hfov) as Ht.
  destruct (depth_coefficients near far Hnf) as [Hd Hw].
  set (nx := x / W * 2 - 1).
  set (ny := - (y / H) * 2 + 1).
  set (ray := normalize (direction (setFromCamera (mkVector2 nx ny) camera))).
  exists (mkWorldDirection (asin (vy ray)) (JsMath.atan2 (vx ray) (vz ray))).
  split; [reflexivity | ].
  set (px := 1 / (aspect * tan (DEG2RAD * (1 / 2) * fov))).
  set (py := 1 / tan (DEG2RAD * (1 / 2) * fov)).
  assert (Hpx : px <> 0).
  { unfold px, Rdiv. rewrite Rmult_1_l. apply Rinv_neq_0_compat.
    apply Rmult_integral_contrapositive_currified; lra. }
  assert (Hpy : py <> 0).
  { unfold py, Rdiv. rewrite Rmult_1_l. apply Rinv_neq_0_compat. lra. }
  assert (Hclip :
            clipVector (mkWorldDirection (asin (vy ray))
                                         (JsMath.atan2 (vx ray) (vz ray))) camera =
            mkVector3 nx ny
                      (- (- (far + near) / (far - near)) +
                       (- 2 * far * near) / (far - near) *
                       length (eyePoint px py nx ny))).
  { unfold ray, camera, withPose, newPerspectiveCamera.
    cbn [THREE.fov projectionMatrix projectionMatrixInverse].
    rewrite updateProjectionMatrix_symmetric by lra.
    apply (clip_of_ray_rotated fov px py _ _ world view Hpx Hpy Hw Hrot). }
  pose proof (in_viewport_ndc x W Hx) as Hnx.
  assert (Hny : -1 < ny < 1).
  { pose proof (in_viewport_ndc y H Hy). unfold ny. lra. }
  pose proof (length_eyePoint px py nx ny) as HL.
  pose proof (clip_depth_le_1 near far _ Hnf Hfar HL) as Hz.
  rewrite worldDirectionToScreen_some; rewrite Hclip; simpl.
  - f_equal. unfold nx, ny. f_equal; field; lra.
  - fold nx in Hnx.
    intros [Hc | [Hc | Hc]]; [lra | | ];
      unfold Rabs in Hc; destruct (Rcase_abs _); lra.
Qed.

Lemma X30_round_trip_witness :
  exists dir,
    screenToWorldDirection 700 300 1920 1080
      (withPose (playerCamera 1920 1080)
                (makeRotationY (PI / 2)) (makeRotationY (- (PI / 2))))
      (mkWorldDirection 0 (PI / 2)) = Some dir /\
    worldDirectionToScreen dir 1920 1080
      (withPose (playerCamera 1920 1080)
                (makeRotationY (PI / 2)) (makeRotationY (- (PI / 2))))
    = Some (mkScreenPoint 700 300).
Proof.
  apply (X30_round_trip_any_orientation
           700 300 1920 1080 75 (1920 / 1080) (1 / 10) 1000
           (mkWorldDirection 0 (PI / 2))
           (makeRotationY (PI / 2)) (makeRotationY (- (PI / 2))));
    try lra.
  apply makeRotationY_isRotation.
Defined.

End RoundTripAnyOrientation.
